(** * Mycelica conversation importers

    A shallow embedding of the two import scripts of the repository,
    [scripts/import_conversations.py] (the pairing importer) and
    [scripts/import_test_data.py] (the flat importer), and the properties
    of their message pairing, title synthesis and database writes.

    Conventions of the embedding.
    - A Python [str] is a [string]; every [ascii] stands for one code point
      below 256, so [String.length] is Python's [len].
    - The objects produced by [json.load] are records with one optional
      field per key the scripts read: [None] is an absent key, [Some v] a
      key carrying a value of the type the export format gives it.
    - An exception is an explicit outcome [Raise e]; the interpreter state
      the scripts touch (wall clock, uuid generator, standard output, the
      SQLite connection and the database file) is threaded as a [world]. *)

From Stdlib Require Import ZArith String Ascii List Permutation Sorted.
From stdpp Require Import base strings gmap list pretty.
From stdpp Require Import sorting.

Open Scope string_scope.
Open Scope nat_scope.
Open Scope list_scope.

(** ** Python strings *)

(** The one-character string ['\n']. *)
Definition newline : ascii := "010"%char.

Definition nl : string := String newline EmptyString.

(** Truthiness of a [str]: only the empty string is falsy. *)
Definition truthy (s : string) : bool := negb (String.eqb s "").

(** [str.isspace] on one code point below 256: TAB..CR, FS..US, space,
    NEL (0x85) and NBSP (0xA0); this is the set [str.strip()] removes. *)
Definition is_space (c : ascii) : bool :=
  let n := nat_of_ascii c in
  ((9 <=? n) && (n <=? 13)) || ((28 <=? n) && (n <=? 32))
  || (n =? 133) || (n =? 160).

(** [s.lstrip()] *)
Fixpoint lstrip (s : string) : string :=
  match s with
  | EmptyString => EmptyString
  | String c s' => if is_space c then lstrip s' else s
  end.

(** [s.rstrip()] *)
Fixpoint rstrip (s : string) : string :=
  match s with
  | EmptyString => EmptyString
  | String c s' =>
      match rstrip s' with
      | EmptyString => if is_space c then EmptyString else String c EmptyString
      | r => String c r
      end
  end.

(** [s.strip()] *)
Definition strip (s : string) : string := rstrip (lstrip s).

(** [s.split(sep)] for a separator of one character: the pieces between
    the occurrences of [sep], never an empty list. *)
Fixpoint split_on (sep : ascii) (s : string) : list string :=
  match s with
  | EmptyString => [EmptyString]
  | String c s' =>
      if Ascii.eqb c sep then EmptyString :: split_on sep s'
      else match split_on sep s' with
           | [] => [String c EmptyString]
           | piece :: pieces => String c piece :: pieces
           end
  end.

(** The slice [s[:n]]. *)
Fixpoint slice_to (n : nat) (s : string) : string :=
  match n, s with
  | S n', String c s' => String c (slice_to n' s')
  | _, _ => EmptyString
  end.

(** [s.replace(c, by)] for a one-character pattern [c]. *)
Fixpoint replace_char (c : ascii) (by_ : string) (s : string) : string :=
  match s with
  | EmptyString => EmptyString
  | String d s' =>
      if Ascii.eqb d c then by_ +:+ replace_char c by_ s'
      else String d (replace_char c by_ s')
  end.

(** Bytes of a literal of the source that lies outside Latin-1. *)
Definition utf8 (bytes : list nat) : string :=
  string_of_list_ascii (map ascii_of_nat bytes).

(** ** Exceptions and the interpreter state *)

Inductive exn : Set :=
| IndexError
| KeyError
| IntegrityError.

Inductive outcome (A : Type) : Type :=
| Ok (a : A)
| Raise (e : exn).

Arguments Ok {A} a.
Arguments Raise {A} e.

(** One statement run on the SQLite connection that changes it. *)
Inductive sql_event : Set :=
| SqlDelete (table : string)
| SqlInsert (table : string) (key : string)
| SqlCommit.

(** [conn] is the database as the open connection sees it (pending
    writes included), [disk] the last committed state: what the file
    holds when the process ends without a further commit. *)
Record world (DB : Type) : Type := World {
  clock_reads : nat;
  uuid_draws : nat;
  stdout : list string;
  sql_log : list sql_event;
  conn : DB;
  disk : DB
}.

Arguments World {DB}.
Arguments clock_reads {DB}.
Arguments uuid_draws {DB}.
Arguments stdout {DB}.
Arguments sql_log {DB}.
Arguments conn {DB}.
Arguments disk {DB}.

(** A computation of the script: it ends in a value or an exception and
    leaves a new interpreter state. *)
Definition M (DB A : Type) : Type := world DB -> outcome A * world DB.

Definition ret {DB A} (a : A) : M DB A := fun w => (Ok a, w).

Definition raise {DB A} (e : exn) : M DB A := fun w => (Raise e, w).

Definition bind {DB A B} (m : M DB A) (k : A -> M DB B) : M DB B :=
  fun w =>
    match m w with
    | (Ok a, w') => k a w'
    | (Raise e, w') => (Raise e, w')
    end.

Notation "x <- m ;; k" := (bind m (fun x => k))
  (at level 100, m at next level, right associativity).

Notation "m ;; k" := (bind m (fun _ => k))
  (at level 100, right associativity).

(** A pure expression that can raise, run inside a computation. *)
Definition lift {DB A} (r : outcome A) : M DB A := fun w => (r, w).

(** [print(line)] *)
Definition print {DB} (line : string) : M DB unit :=
  fun w =>
    (Ok tt, World (clock_reads w) (uuid_draws w) (stdout w ++ [line])
                  (sql_log w) (conn w) (disk w)).

(** The SQL statement [ev] has run and left the connection in [db]. *)
Definition executed {DB} (ev : sql_event) (db : DB) : M DB unit :=
  fun w =>
    (Ok tt, World (clock_reads w) (uuid_draws w) (stdout w)
                  (sql_log w ++ [ev]) db (disk w)).

(** A query: it reads the connection and changes nothing. *)
Definition query {DB A} (q : DB -> A) : M DB A := fun w => (Ok (q (conn w)), w).

(** [sqlite3.connect(path)]: a new connection sees the committed state. *)
Definition connect {DB} : M DB unit :=
  fun w =>
    (Ok tt, World (clock_reads w) (uuid_draws w) (stdout w)
                  (sql_log w) (disk w) (disk w)).

(** [conn.close()]: what was not committed is dropped. *)
Definition close {DB} : M DB unit :=
  fun w =>
    (Ok tt, World (clock_reads w) (uuid_draws w) (stdout w)
                  (sql_log w) (disk w) (disk w)).

(** [conn.commit()] *)
Definition commit {DB} : M DB unit :=
  fun w =>
    (Ok tt, World (clock_reads w) (uuid_draws w) (stdout w)
                  (sql_log w ++ [SqlCommit]) (conn w) (conn w)).

(** A point of the circular layout, kept exact: [OnCircle c r k n] is
    [c + r * (cos a, sin a)] for the angle [a = 2 * pi * k / n]; the two
    columns [position_x] and [position_y] are its coordinates. *)
Inductive point : Set :=
| Origin
| OnCircle (center : point) (radius : Z) (k n : nat).

(** The state after [k] more readings of the wall clock. *)
Definition tick {DB} (k : nat) (w : world DB) : world DB :=
  World (k + clock_reads w) (uuid_draws w) (stdout w) (sql_log w)
        (conn w) (disk w).

(** The two states agree on the database, the log and the output, and
    [d] uuids were drawn from the one to the other. *)
Definition frame {DB} (d : nat) (w w' : world DB) : Prop :=
  conn w' = conn w /\ disk w' = disk w /\ sql_log w' = sql_log w
  /\ stdout w' = stdout w /\ uuid_draws w' = uuid_draws w + d.

Section Environment.

(** [iso_to_millis s] is [int(datetime.fromisoformat(s).timestamp() * 1000)],
    and [None] when that expression raises. *)
Variable iso_to_millis : string -> option Z.

(** [wall_clock k] is [int(datetime.now().timestamp() * 1000)] at the
    [k]-th reading of the clock. *)
Variable wall_clock : nat -> Z.

(** [uuid4 k] is [str(uuid.uuid4())] at the [k]-th draw. *)
Variable uuid4 : nat -> string.

Context {DB : Type}.

Definition now_millis : M DB Z :=
  fun w =>
    (Ok (wall_clock (clock_reads w)),
     World (S (clock_reads w)) (uuid_draws w) (stdout w)
           (sql_log w) (conn w) (disk w)).

Definition draw_uuid4 : M DB string :=
  fun w =>
    (Ok (uuid4 (uuid_draws w)),
     World (clock_reads w) (S (uuid_draws w)) (stdout w)
           (sql_log w) (conn w) (disk w)).

(** [parse_timestamp], the same text in both scripts: the bare [except]
    turns every failure of the parse into a reading of the clock. *)
Definition parse_timestamp (ts : string) : M DB Z :=
  match iso_to_millis (replace_char "Z"%char "+00:00" ts) with
  | Some millis => ret millis
  | None => now_millis
  end.

End Environment.

(** ** The pairing importer, [scripts/import_conversations.py] *)

Module Pairing.

(** One block of a message's [content] list; [block_text] is its ['text']. *)
Record block : Set := Block {
  block_text : option string
}.

(** One element of [chat_messages]; each field is the key of that name. *)
Record message : Set := Message {
  msg_sender : option string;
  msg_text : option string;
  msg_content : option (list block);
  msg_created_at : option string
}.

(** One element of the export file. *)
Record conversation : Set := Conversation {
  conv_uuid : option string;
  conv_name : option string;
  conv_summary : option string;
  conv_created_at : option string;
  conv_updated_at : option string;
  conv_chat_messages : option (list message)
}.

(** The dict appended to [exchanges]. *)
Record exchange : Set := Exchange {
  title : string;
  content : string;
  created_at : Z
}.

(** [create_exchange_title] *)
Definition create_exchange_title (human_text : string) : string :=
  let clean := strip human_text in
  let first_line := default EmptyString (split_on newline clean !! 0) in
  if 60 <? String.length first_line
  then slice_to 60 first_line +:+ "..."
  else first_line.

(** Line 35, the text of the message under the cursor:
    [msg.get('text', '') or msg.get('content', [{}])[0].get('text', '') or '']. *)
Definition message_text (msg : message) : outcome string :=
  let flat := default "" (msg_text msg) in
  if truthy flat then Ok flat
  else
    match default [Block None] (msg_content msg) with
    | [] => Raise IndexError
    | first :: _ =>
        let nested := default "" (block_text first) in
        if truthy nested then Ok nested else Ok ""
    end.

(** Lines 45 to 50, the text of the assistant message that answers a
    human one. *)
Definition assistant_text (assistant_msg : message) : string :=
  let flat := default "" (msg_text assistant_msg) in
  let flat := if truthy flat then flat else "" in
  if negb (truthy flat) then
    match msg_content assistant_msg with
    | Some (first :: _) => default "" (block_text first)
    | _ => flat
    end
  else flat.

(** [messages[i].get('sender') == role] with [i] in range. *)
Definition sender_at (messages : list message) (i : nat) (role : string) : bool :=
  match messages !! i with
  | Some msg => bool_decide (msg_sender msg = Some role)
  | None => false
  end.

Section WithEnvironment.

Variable iso_to_millis : string -> option Z.
Variable wall_clock : nat -> Z.

Context {DB : Type}.

Abbreviation parse_timestamp :=
  (parse_timestamp (DB := DB) iso_to_millis wall_clock).

(** The body of the [while] loop of [pair_messages] at cursor [i]: the
    exchange it appends and the cursor before the closing [i += 1]. *)
Definition exchange_step (messages : list message) (i : nat)
  : M DB (exchange * nat) :=
  match messages !! i with
  | None => raise IndexError
  | Some msg =>
      let sender := default "" (msg_sender msg) in
      text <- lift (message_text msg) ;;
      if String.eqb sender "human" then
        let human_text := text in
        human_time <- parse_timestamp (default "" (msg_created_at msg)) ;;
        let '(i, assistant_text) :=
          if (i + 1 <? length messages) && sender_at messages (i + 1) "assistant"
          then (i + 1, assistant_text (default (Message None None None None)
                                               (messages !! (i + 1))))
          else (i, "*No response*") in
        ret (Exchange (create_exchange_title human_text)
                      ("Human: " +:+ human_text +:+ nl +:+ nl
                       +:+ "Assistant: " +:+ assistant_text)
                      human_time, i)
      else
        let title := create_exchange_title
                       (if truthy text then slice_to 100 text else "Response") in
        let content := "Assistant: " +:+ text in
        stamp <- parse_timestamp (default "" (msg_created_at msg)) ;;
        ret (Exchange title content stamp, i)
  end.

(** The [while i < len(messages)] loop; every round moves the cursor
    forward, so [length messages - i] rounds always reach its exit. *)
Fixpoint pair_loop (fuel : nat) (messages : list message) (i : nat)
  (exchanges : list exchange) : M DB (list exchange) :=
  match fuel with
  | O => ret exchanges
  | S fuel' =>
      if i <? length messages then
        step <- exchange_step messages i ;;
        pair_loop fuel' messages (S (snd step)) (exchanges ++ [fst step])
      else ret exchanges
  end.

(** [pair_messages] *)
Definition pair_messages (messages : list message) : M DB (list exchange) :=
  pair_loop (length messages) messages 0 [].

(** The exchange [ex] is one the loop body builds with its cursor on
    [messages[i]]: from that message and, at most, the one after it. *)
Definition derived_at (messages : list message) (i : nat) (ex : exchange)
  : Prop :=
  exists (w w' : world DB) (i' : nat),
    exchange_step messages i w = (Ok (ex, i'), w').

End WithEnvironment.

(** The text [create_exchange_title] is called on for the message [msg]
    of text [text]: the text itself for a human message, and for another
    one [text[:100] if text else 'Response']. *)
Definition title_source (msg : message) (text : string) : string :=
  if String.eqb (default "" (msg_sender msg)) "human" then text
  else if truthy text then slice_to 100 text else "Response".

(** The message [{'sender': sender, 'text': text}] with an optional
    ['created_at'] and no ['content'] list. *)
Definition flat_message (sender text : string) (created : option string)
  : message :=
  Message (Some sender) (Some text) None created.


(** The number of messages whose sender is ['human']. *)
Definition count_human (messages : list message) : nat :=
  length (filter (fun msg => msg_sender msg = Some "human") messages).

(** The first line of a text as the specification words it: what comes
    before the first newline of the text itself. *)
Fixpoint spec_first_line (s : string) : string :=
  match s with
  | EmptyString => EmptyString
  | String c s' =>
      if Ascii.eqb c newline then EmptyString
      else String c (spec_first_line s')
  end.

(** The title rule as the specification words it, on the text as given. *)
Definition spec_title (text : string) : string :=
  let line := spec_first_line text in
  if 60 <? String.length line then slice_to 60 line +:+ "..." else line.

(** A row of the [nodes] table without its primary key [id]; the fields
    are the other columns the [INSERT] statements of [main] name. *)
Record node : Set := Node {
  node_type : string;
  node_title : string;
  node_url : option string;
  node_content : option string;
  node_position : point;
  node_created_at : Z;
  node_updated_at : Z;
  node_cluster_id : option Z;
  node_cluster_label : option string;
  node_ai_title : option string;
  node_summary : option string;
  node_tags : option string;
  node_emoji : option string;
  node_is_processed : Z;
  node_depth : Z;
  node_is_item : Z;
  node_is_universe : Z;
  node_parent_id : option string;
  node_child_count : Z;
  node_conversation_id : option string;
  node_sequence_index : option Z;
  node_is_pinned : Z;
  node_last_accessed_at : option Z
}.

(** The [nodes] table: its rows under their primary key. *)
Abbreviation database := (gmap string node).

(** [SELECT COUNT( * ) FROM nodes WHERE conversation_id IS NOT NULL] *)
Definition count_linked (db : database) : nat :=
  size (filter (fun row => is_Some (node_conversation_id row.2)) db).

(** [SELECT 1 FROM nodes WHERE id = ?] followed by [fetchone()] *)
Definition node_exists (id : string) (db : database) : bool :=
  bool_decide (is_Some (db !! id)).

(** Modelled from the spec: the schema of the application's [nodes] table,
    which this script does not declare; its column [id] is the primary
    key (section 6, and [init_db] of the other script), so that
    [INSERT INTO nodes (...) VALUES (...)] refuses a second row under a
    key already in the table. *)
Definition insert_node (id : string) (row : node) : M database unit :=
  fun w =>
    match conn w !! id with
    | Some _ => (Raise IntegrityError, w)
    | None => executed (SqlInsert "nodes" id) (<[id := row]> (conn w)) w
    end.

(** A container row: not an item, and without conversation linkage. *)
Definition container_row (row : node) : Prop :=
  node_is_item row = 0%Z /\ node_conversation_id row = None.

(** An item row under the key [id] whose [conversation_id] is the key of
    a container row of [after] that [before] did not hold, [id] being
    that key followed by ["-ex-"] and the row's sequence index. *)
Definition exchange_row_of (before after : database) (id : string)
  (row : node) : Prop :=
  node_is_item row = 1%Z
  /\ exists parent parent_row idx,
      node_conversation_id row = Some parent
      /\ before !! parent = None
      /\ after !! parent = Some parent_row
      /\ container_row parent_row
      /\ id = parent +:+ "-ex-" +:+ pretty idx
      /\ node_sequence_index row = Some (Z.of_nat idx).

(** [after] is [before] with rows added, each new row a container row or
    an exchange row of a new container. *)
Definition written (before after : database) : Prop :=
  (forall id row, before !! id = Some row -> after !! id = Some row)
  /\ (forall id row,
        before !! id = None -> after !! id = Some row ->
        container_row row \/ exchange_row_of before after id row).

(** Both the connection and the file hold [before] with such rows added. *)
Definition consistent (before : database) (w : world database) : Prop :=
  written before (conn w) /\ written before (disk w).

(** No row of the table has conversation linkage. *)
Definition unlinked (db : database) : Prop :=
  forall id row, db !! id = Some row -> node_conversation_id row = None.

(** A conversation whose list of messages is absent or empty. *)
Definition no_messages (c : conversation) : Prop :=
  default [] (conv_chat_messages c) = [].

Definition EXCLUDE_IDS : list string :=
  ["fb73ed99-5131-4c2c-bd81-4a156634d344"].

Definition MAX_EXCHANGES : option nat := None.

Definition FILTER_MYCELICA : bool := false.

(** [MAX_EXCHANGES and exchanges_imported >= MAX_EXCHANGES] *)
Definition limit_reached (exchanges_imported : nat) : bool :=
  match MAX_EXCHANGES with
  | Some limit => (0 <? limit) && (limit <=? exchanges_imported)
  | None => false
  end.

(** [c.lower()] on one code point below 256. *)
Definition lower_char (c : ascii) : ascii :=
  let n := nat_of_ascii c in
  if ((65 <=? n) && (n <=? 90))
     || ((192 <=? n) && (n <=? 222) && negb (n =? 215))
  then ascii_of_nat (n + 32) else c.

(** [s.lower()] *)
Fixpoint lower (s : string) : string :=
  match s with
  | EmptyString => EmptyString
  | String c s' => String (lower_char c) (lower s')
  end.

(** [pat in s] *)
Fixpoint contains (pat s : string) : bool :=
  String.prefix pat s
  || match s with
     | EmptyString => false
     | String _ s' => contains pat s'
     end.

(** [c.get('uuid') in EXCLUDE_IDS] *)
Definition excluded (c : conversation) : bool :=
  match conv_uuid c with
  | Some u => bool_decide (u ∈ EXCLUDE_IDS)
  | None => false
  end.

(** The three counters [main] reports at its end. *)
Record counters : Set := Counters {
  conversations_imported : nat;
  exchanges_imported : nat;
  skipped : nat
}.

(** The speech-balloon emoji stored in the [emoji] column. *)
Definition speech_balloon : string := utf8 [240; 159; 146; 172].

(** The check mark of the closing report. *)
Definition check_mark : string := utf8 [226; 156; 147].

Section Main.

Variable iso_to_millis : string -> option Z.
Variable wall_clock : nat -> Z.
Variable uuid4 : nat -> string.

(** The resolved [Path.home() / ".local/share/com.mycelica.app/mycelica.db"]. *)
Variable db_path : string.

(** [random.shuffle], as the order it leaves the list in. *)
Variable shuffle : list conversation -> list conversation.

Abbreviation parse_timestamp :=
  (parse_timestamp (DB := database) iso_to_millis wall_clock).

(** The inner [for idx, exchange in enumerate(exchanges)] loop, from
    index [idx] on. *)
Fixpoint insert_exchanges (conv_id : string) (at_ : point)
  (exchange_count idx : nat) (exchanges : list exchange) (c : counters)
  : M database counters :=
  match exchanges with
  | [] => ret c
  | exchange :: rest =>
      let exchange_id := conv_id +:+ "-ex-" +:+ pretty idx in
      let position := OnCircle at_ 80 idx (max exchange_count 1) in
      insert_node exchange_id
        (Node "thought" (title exchange) None
              (Some (content exchange)) position
              (created_at exchange) (created_at exchange) None None
              None None None (Some speech_balloon) 0
              0 1 0 None 0
              (Some conv_id) (Some (Z.of_nat idx)) 0 None) ;;
      let c := Counters (conversations_imported c)
                        (exchanges_imported c + 1) (skipped c) in
      if limit_reached (exchanges_imported c) then ret c
      else insert_exchanges conv_id at_ exchange_count (S idx) rest c
  end.

(** The [for i, conv in enumerate(conversations)] loop, from index [i] on. *)
Fixpoint import_loop (n_convos i : nat) (conversations : list conversation)
  (c : counters) : M database counters :=
  match conversations with
  | [] => ret c
  | conv :: rest =>
      fresh <- draw_uuid4 uuid4 ;;
      let conv_id := default fresh (conv_uuid conv) in
      found <- query (node_exists conv_id) ;;
      if found : bool then
        import_loop n_convos (S i) rest
          (Counters (conversations_imported c) (exchanges_imported c)
                    (skipped c + 1))
      else
        let position := OnCircle Origin 300 i (max n_convos 1) in
        created <- parse_timestamp (default "" (conv_created_at conv)) ;;
        updated <- (if truthy (default "" (conv_updated_at conv))
                    then parse_timestamp (default "" (conv_updated_at conv))
                    else ret created) ;;
        let messages := default [] (conv_chat_messages conv) in
        exchanges <- pair_messages iso_to_millis wall_clock messages ;;
        let exchange_count := length exchanges in
        insert_node conv_id
          (Node "context"
                (if truthy (default "" (conv_name conv))
                 then default "" (conv_name conv) else "Untitled")
                None
                (Some (pretty exchange_count +:+ " exchanges")) position
                created updated None None
                None (conv_summary conv) None (Some speech_balloon) 0
                0 0 0 None (Z.of_nat exchange_count)
                None None 0 None) ;;
        let c := Counters (conversations_imported c + 1)
                          (exchanges_imported c) (skipped c) in
        c <- insert_exchanges conv_id position exchange_count 0 exchanges c ;;
        (if (i + 1) mod 50 =? 0
         then print ("  Processed " +:+ pretty (i + 1) +:+ "/"
                     +:+ pretty n_convos +:+ " conversations...") ;;
              commit
         else ret tt) ;;
        if limit_reached (exchanges_imported c)
        then print ("  Reached "
                    +:+ from_option pretty "None" MAX_EXCHANGES
                    +:+ " exchange limit, stopping.") ;;
             ret c
        else import_loop n_convos (S i) rest c
  end.

(** [main], given the list [json.load] returns for the export file. *)
Definition main (conversations : list conversation) : M database unit :=
  print "Reading: data/conversations.json" ;;
  print ("Database: " +:+ db_path) ;;
  print ("Max exchanges: "
         +:+ match MAX_EXCHANGES with
             | Some (S limit) => pretty (S limit)
             | _ => "unlimited"
             end) ;;
  let conversations :=
    filter (fun c => excluded c = false) conversations in
  conversations <-
    (if FILTER_MYCELICA
     then let conversations :=
            filter (fun c => contains "mycelica"
                               (lower (default "" (conv_name c))) = true)
                   conversations in
          print ("Filtered to " +:+ pretty (length conversations)
                 +:+ " Mycelica conversations") ;;
          ret conversations
     else ret conversations) ;;
  let conversations := shuffle conversations in
  print ("Found " +:+ pretty (length conversations)
         +:+ " conversations (excluded " +:+ pretty (length EXCLUDE_IDS)
         +:+ ")") ;;
  connect ;;
  existing <- query count_linked ;;
  if 0 <? existing then
    print ("Warning: " +:+ pretty existing
           +:+ " conversation nodes already exist. Skipping import.") ;;
    print "To reimport, clear the database first."
  else
    let n_convos := length conversations in
    c <- import_loop n_convos 0 conversations (Counters 0 0 0) ;;
    commit ;;
    close ;;
    print (nl +:+ check_mark +:+ " Import complete!") ;;
    print ("  Conversations: " +:+ pretty (conversations_imported c)) ;;
    print ("  Exchanges: " +:+ pretty (exchanges_imported c)) ;;
    print ("  Skipped: " +:+ pretty (skipped c)).

End Main.

End Pairing.

(** ** The flat importer, [scripts/import_test_data.py] *)

Module Flat.

(** One element of [chat_messages]; each field is the key of that name. *)
Record message : Set := Message {
  msg_uuid : option string;
  msg_sender : option string;
  msg_text : option string;
  msg_created_at : option string;
  msg_updated_at : option string
}.

(** One element of the test-data file. *)
Record conversation : Set := Conversation {
  conv_uuid : option string;
  conv_name : option string;
  conv_summary : option string;
  conv_created_at : option string;
  conv_updated_at : option string;
  conv_chat_messages : option (list message)
}.

(** The dicts [conv_node] and [msg_node] appended to [nodes]. *)
Record node_dict : Set := NodeDict {
  nd_id : string;
  nd_type : string;
  nd_title : string;
  nd_url : option string;
  nd_content : option string;
  nd_position : point;
  nd_created_at : Z;
  nd_updated_at : Z;
  nd_level : Z;
  nd_parent_id : option string;
  nd_child_count : Z
}.

(** The dict [edge] appended to [edges]. *)
Record edge_dict : Set := EdgeDict {
  ed_id : string;
  ed_source_id : string;
  ed_target_id : string;
  ed_type : string;
  ed_label : option string;
  ed_created_at : Z
}.

(** A row of the [nodes] table of [init_db] without its primary key. *)
Record node : Set := Node {
  node_type : string;
  node_title : string;
  node_url : option string;
  node_content : option string;
  node_position : point;
  node_created_at : Z;
  node_updated_at : Z;
  node_cluster_id : option Z;
  node_cluster_label : option string;
  node_level : Z;
  node_parent_id : option string;
  node_child_count : Z;
  node_ai_title : option string;
  node_summary : option string;
  node_tags : option string;
  node_emoji : option string;
  node_is_processed : Z
}.

(** A row of the [edges] table of [init_db] without its primary key. *)
Record edge : Set := Edge {
  edge_source_id : string;
  edge_target_id : string;
  edge_type : string;
  edge_label : option string;
  edge_created_at : Z
}.

(** The two tables, each as its rows under their primary key. *)
Record database : Type := Database {
  nodes : gmap string node;
  edges : gmap string edge
}.

(** [DELETE FROM edges] *)
Definition delete_edges : M database unit :=
  fun w => executed (SqlDelete "edges") (Database (nodes (conn w)) ∅) w.

(** [DELETE FROM nodes]; foreign keys are not switched on for the
    connection, so the statement touches this table only. *)
Definition delete_nodes : M database unit :=
  fun w => executed (SqlDelete "nodes") (Database ∅ (edges (conn w))) w.

(** The row an [INSERT INTO nodes] of the first [executemany] stores for
    a dict; the columns the statement does not name take the defaults of
    [init_db]. *)
Definition node_row (d : node_dict) : node :=
  Node (nd_type d) (nd_title d) (nd_url d) (nd_content d) (nd_position d)
       (nd_created_at d) (nd_updated_at d) None None (nd_level d)
       (nd_parent_id d) (nd_child_count d) None None None None 0.

(** The row an [INSERT INTO edges] of the second [executemany] stores. *)
Definition edge_row (d : edge_dict) : edge :=
  Edge (ed_source_id d) (ed_target_id d) (ed_type d) (ed_label d)
       (ed_created_at d).

(** One [INSERT INTO nodes]: a second row under a primary key already in
    the table is refused. *)
Definition insert_node (d : node_dict) : M database unit :=
  fun w =>
    match nodes (conn w) !! nd_id d with
    | Some _ => (Raise IntegrityError, w)
    | None =>
        executed (SqlInsert "nodes" (nd_id d))
          (Database (<[nd_id d := node_row d]> (nodes (conn w)))
                    (edges (conn w))) w
    end.

(** One [INSERT INTO edges], with the same rule for its primary key. *)
Definition insert_edge (d : edge_dict) : M database unit :=
  fun w =>
    match edges (conn w) !! ed_id d with
    | Some _ => (Raise IntegrityError, w)
    | None =>
        executed (SqlInsert "edges" (ed_id d))
          (Database (nodes (conn w))
                    (<[ed_id d := edge_row d]> (edges (conn w)))) w
    end.

(** [conn.executemany(statement, rows)]: the rows one after the other,
    up to the first that is refused. *)
Fixpoint executemany {A} (statement : A -> M database unit) (rows : list A)
  : M database unit :=
  match rows with
  | [] => ret tt
  | row :: rest => statement row ;; executemany statement rest
  end.

(** [msg.get('sender') == 'human'] *)
Definition is_human (msg : message) : bool :=
  bool_decide (msg_sender msg = Some "human").

(** [sum(1 for msg in messages if msg.get('sender') == 'human')] *)
Definition count_human (messages : list message) : nat :=
  length (filter (fun msg => is_human msg = true) messages).

Section WithEnvironment.

Variable iso_to_millis : string -> option Z.
Variable wall_clock : nat -> Z.
Variable uuid4 : nat -> string.

Abbreviation parse_timestamp :=
  (parse_timestamp (DB := database) iso_to_millis wall_clock).

(** The inner [for j, msg in enumerate(messages)] loop, from index [j]
    on; [nodes] and [edges] are the two lists it appends to. *)
Fixpoint message_loop (conv_id : string) (at_ : point) (n_messages j : nat)
  (messages : list message) (nodes : list node_dict) (edges : list edge_dict)
  : M database (list node_dict * list edge_dict) :=
  match messages with
  | [] => ret (nodes, edges)
  | msg :: rest =>
      if negb (is_human msg) then
        message_loop conv_id at_ n_messages (S j) rest nodes edges
      else
        match msg_uuid msg with
        | None => raise KeyError
        | Some msg_id =>
            let position := OnCircle at_ 80 j (max n_messages 1) in
            let text := slice_to 100 (default "" (msg_text msg)) in
            let text :=
              if 100 <? String.length (default "" (msg_text msg))
              then text +:+ "..." else text in
            created <- parse_timestamp (default "" (msg_created_at msg)) ;;
            updated <- parse_timestamp (default "" (msg_updated_at msg)) ;;
            let msg_node :=
              NodeDict msg_id "thought"
                       (if truthy text then text else "Message")
                       None (msg_text msg) position created updated
                       4 (Some conv_id) 0 in
            fresh <- draw_uuid4 uuid4 ;;
            stamp <- parse_timestamp (default "" (msg_created_at msg)) ;;
            let edge := EdgeDict fresh conv_id msg_id "contains" None stamp in
            message_loop conv_id at_ n_messages (S j) rest
                         (nodes ++ [msg_node]) (edges ++ [edge])
        end
  end.

(** The outer [for i, conv in enumerate(conversations)] loop, from index
    [i] on. *)
Fixpoint conversation_loop (n_convos i : nat)
  (conversations : list conversation)
  (nodes : list node_dict) (edges : list edge_dict)
  : M database (list node_dict * list edge_dict) :=
  match conversations with
  | [] => ret (nodes, edges)
  | conv :: rest =>
      match conv_uuid conv with
      | None => raise KeyError
      | Some conv_id =>
          let position := OnCircle Origin 300 i n_convos in
          let messages := default [] (conv_chat_messages conv) in
          let child_count := count_human messages in
          created <- parse_timestamp (default "" (conv_created_at conv)) ;;
          updated <- parse_timestamp (default "" (conv_updated_at conv)) ;;
          let conv_node :=
            NodeDict conv_id "context"
                     (if truthy (default "" (conv_name conv))
                      then default "" (conv_name conv) else "Untitled")
                     None (conv_summary conv) position created updated
                     3 None (Z.of_nat child_count) in
          built <- message_loop conv_id position (length messages) 0 messages
                                (nodes ++ [conv_node]) edges ;;
          conversation_loop n_convos (S i) rest (fst built) (snd built)
      end
  end.

(** [import_conversations(conn, conversations)] *)
Definition import_conversations (conversations : list conversation)
  : M database (nat * nat) :=
  delete_edges ;;
  delete_nodes ;;
  let n_convos := length conversations in
  built <- conversation_loop n_convos 0 conversations [] [] ;;
  let nodes := fst built in
  let edges := snd built in
  executemany insert_node nodes ;;
  executemany insert_edge edges ;;
  commit ;;
  ret (length nodes, length edges).

End WithEnvironment.

(** The human messages of a conversation, in their order. *)
Definition human_messages (conv : conversation) : list message :=
  filter (fun msg => is_human msg = true) (default [] (conv_chat_messages conv)).

(** [d] is the dict of a message node: the node of the human message
    [msg] under the conversation [conv_id]. *)
Definition message_dict (conv_id : string) (msg : message) (d : node_dict)
  : Prop :=
  msg_uuid msg = Some (nd_id d)
  /\ nd_type d = "thought"
  /\ nd_level d = 4%Z
  /\ nd_parent_id d = Some conv_id
  /\ nd_child_count d = 0%Z
  /\ nd_content d = msg_text msg.

(** [d] is the dict of the edge from the conversation [conv_id] to the
    node of the human message [msg]. *)
Definition message_edge (conv_id : string) (msg : message) (d : edge_dict)
  : Prop :=
  msg_uuid msg = Some (ed_target_id d)
  /\ ed_source_id d = conv_id
  /\ ed_type d = "contains"
  /\ ed_label d = None.

(** What one round of the outer loop appends for [conv]: the dict of its
    conversation node, then one message dict and one edge dict per human
    message. *)
Record group : Set := Group {
  conv_dict : node_dict;
  message_dicts : list node_dict;
  edge_dicts : list edge_dict
}.

Definition group_of (conv : conversation) (g : group) : Prop :=
  conv_uuid conv = Some (nd_id (conv_dict g))
  /\ nd_type (conv_dict g) = "context"
  /\ nd_level (conv_dict g) = 3%Z
  /\ nd_parent_id (conv_dict g) = None
  /\ nd_child_count (conv_dict g)
     = Z.of_nat (count_human (default [] (conv_chat_messages conv)))
  /\ Forall2 (message_dict (nd_id (conv_dict g)))
             (human_messages conv) (message_dicts g)
  /\ Forall2 (message_edge (nd_id (conv_dict g)))
             (human_messages conv) (edge_dicts g).

Definition group_nodes (g : group) : list node_dict :=
  conv_dict g :: message_dicts g.

(** The primary keys the node dicts of a run will carry, when every
    conversation and every human message has its ['uuid']. *)
Fixpoint message_keys (messages : list message) : option (list string) :=
  match messages with
  | [] => Some []
  | msg :: rest =>
      if is_human msg then
        match msg_uuid msg, message_keys rest with
        | Some k, Some ks => Some (k :: ks)
        | _, _ => None
        end
      else message_keys rest
  end.

Fixpoint planned_keys (conversations : list conversation)
  : option (list string) :=
  match conversations with
  | [] => Some []
  | conv :: rest =>
      match conv_uuid conv,
            message_keys (default [] (conv_chat_messages conv)),
            planned_keys rest with
      | Some k, Some ks, Some more => Some (k :: ks ++ more)
      | _, _, _ => None
      end
  end.

(** The primary keys of a list of dicts with the rows stored under them. *)
Definition node_entries (ds : list node_dict) : list (string * node) :=
  (fun d => (nd_id d, node_row d)) <$> ds.

Definition edge_entries (ds : list edge_dict) : list (string * edge) :=
  (fun d => (ed_id d, edge_row d)) <$> ds.

(** The numbers of rows of the two tables. *)
Definition row_counts (db : database) : nat * nat :=
  (size (nodes db), size (edges db)).

End Flat.

(** ** The flat importer's [init_db] and [main] *)

Module FlatMain.

(** [init_db]: its [CREATE TABLE IF NOT EXISTS] and [CREATE INDEX IF NOT
    EXISTS] statements change no row, and both tables are there in every
    state of this model; what is left of it is its [conn.commit()]. *)
Definition init_db : M Flat.database unit := commit.

(** [level_names.get(level)] *)
Definition level_names (level : Z) : option string :=
  match level with
  | 0%Z => Some "Universe"
  | 1%Z => Some "Galaxy"
  | 2%Z => Some "World"
  | 3%Z => Some "Tree"
  | 4%Z => Some "Leaf"
  | _ => None
  end.

(** The rows of [SELECT type, COUNT( * ) FROM nodes GROUP BY type]: one
    per type that occurs in the table, with the number of its rows; the
    statement does not say in which order they come. *)
Definition nodes_by_type (table : gmap string Flat.node)
  : list (string * nat) :=
  (fun ty =>
     (ty, size (filter (fun kv : string * Flat.node =>
                          Flat.node_type kv.2 = ty) table)))
  <$> remove_dups (Flat.node_type <$> (map_to_list table).*2).

(** The rows of
    [SELECT level, COUNT( * ) FROM nodes GROUP BY level ORDER BY level]. *)
Definition nodes_by_level (table : gmap string Flat.node)
  : list (Z * nat) :=
  (fun level =>
     (level, size (filter (fun kv : string * Flat.node =>
                             Flat.node_level kv.2 = level) table)))
  <$> merge_sort Z.le
        (remove_dups (Flat.node_level <$> (map_to_list table).*2)).

(** [for row in cursor: print(line(row))] *)
Fixpoint print_rows {A} (line : A -> string) (rows : list A)
  : M Flat.database unit :=
  match rows with
  | [] => ret tt
  | row :: rest => print (line row) ;; print_rows line rest
  end.

(** [f"  {row[0]}: {row[1]}"] *)
Definition type_line (row : string * nat) : string :=
  "  " +:+ row.1 +:+ ": " +:+ pretty row.2.

(** [f"  L{level} {name}: {count}"] *)
Definition level_line (row : Z * nat) : string :=
  let level := row.1 in
  let count := row.2 in
  let name := default ("Unknown-L" +:+ pretty level) (level_names level) in
  "  L" +:+ pretty level +:+ " " +:+ name +:+ ": " +:+ pretty count.

Section Main.

Variable iso_to_millis : string -> option Z.
Variable wall_clock : nat -> Z.
Variable uuid4 : nat -> string.

(** The paths [TEST_DATA] and [DB_PATH] as [print] shows them. *)
Variable TEST_DATA : string.
Variable DB_PATH : string.

(** The order in which SQLite hands out the groups of the query that has
    no [ORDER BY]. *)
Variable group_order : list (string * nat) -> list (string * nat).

(** [main], given the list [json.load] returns for the test data; the
    directory [DATA_DIR.mkdir(exist_ok=True)] makes is no part of the
    state. *)
Definition main (conversations : list Flat.conversation)
  : M Flat.database unit :=
  print ("Loading test data from " +:+ TEST_DATA) ;;
  print ("Found " +:+ pretty (length conversations) +:+ " conversations") ;;
  print ("Creating database at " +:+ DB_PATH) ;;
  connect ;;
  init_db ;;
  counts <- Flat.import_conversations iso_to_millis wall_clock uuid4
                                      conversations ;;
  let n_nodes := counts.1 in
  let n_edges := counts.2 in
  print ("Imported " +:+ pretty n_nodes +:+ " nodes and "
         +:+ pretty n_edges +:+ " edges") ;;
  cursor <- query (fun db => group_order (nodes_by_type (Flat.nodes db))) ;;
  print (nl +:+ "Nodes by type:") ;;
  print_rows type_line cursor ;;
  cursor <- query (fun db => nodes_by_level (Flat.nodes db)) ;;
  print (nl +:+ "Nodes by hierarchy level:") ;;
  print_rows level_line cursor ;;
  close ;;
  print (nl +:+ "Done!").

End Main.

End FlatMain.

(** ** Notions the further properties are stated with *)

(** [msg.get('sender') == role] *)
Definition has_role (role : string) (msg : Pairing.message) : bool :=
  bool_decide (Pairing.msg_sender msg = Some role).

(** The number of human messages directly followed by an assistant
    message: the messages line 43 moves the cursor onto. *)
Fixpoint answered (messages : list Pairing.message) : nat :=
  match messages with
  | [] => 0
  | msg :: rest =>
      (if has_role "human" msg
          && from_option (has_role "assistant") false (head rest)
       then 1 else 0)
      + answered rest
  end.

(** A message line 35 fails on: its text is absent or empty and its
    ['content'] list is there and empty. *)
Definition unreadable (msg : Pairing.message) : Prop :=
  truthy (default "" (Pairing.msg_text msg)) = false
  /\ Pairing.msg_content msg = Some [].

(** The exchange lines 61 to 65 build for a message that is not a human
    one. *)
Definition orphan_exchange (msg : Pairing.message) (ex : Pairing.exchange)
  : Prop :=
  exists text,
    Pairing.message_text msg = Ok text
    /\ Pairing.content ex = "Assistant: " +:+ text
    /\ Pairing.title ex
       = Pairing.create_exchange_title
           (if truthy text then slice_to 100 text else "Response").

(** The character [c] occurs in [s]. *)
Definition occurs (c : ascii) (s : string) : Prop :=
  In c (list_ascii_of_string s).

(** The message's ['created_at'] is a timestamp the parser accepts. *)
Definition dated (iso_to_millis : string -> option Z) (msg : Pairing.message)
  : Prop :=
  is_Some (iso_to_millis
             (replace_char "Z"%char "+00:00"
                           (default "" (Pairing.msg_created_at msg)))).

Section Stored.

Variable iso_to_millis : string -> option Z.
Variable wall_clock : nat -> Z.

(** The container row [row] under [conv_id] stands for a conversation of
    [conversations] that [db] holds in full: its [child_count] is the
    number of exchanges [pair_messages] makes of the conversation's
    messages, and each of these exchanges has its row in [db], under
    [conv_id] followed by ["-ex-"] and its index, with its title, its
    content and its timestamp. *)
Definition holds_conversation (conversations : list Pairing.conversation)
  (db : gmap string Pairing.node) (conv_id : string) (row : Pairing.node)
  : Prop :=
  exists conv exchanges (w1 w2 : world (gmap string Pairing.node)),
    conv ∈ conversations
    /\ default conv_id (Pairing.conv_uuid conv) = conv_id
    /\ Pairing.pair_messages iso_to_millis wall_clock
         (default [] (Pairing.conv_chat_messages conv)) w1
       = (Ok exchanges, w2)
    /\ Pairing.node_child_count row = Z.of_nat (length exchanges)
    /\ forall idx ex,
        exchanges !! idx = Some ex ->
        exists ex_row,
          db !! (conv_id +:+ "-ex-" +:+ pretty idx) = Some ex_row
          /\ Pairing.node_conversation_id ex_row = Some conv_id
          /\ Pairing.node_sequence_index ex_row = Some (Z.of_nat idx)
          /\ Pairing.node_title ex_row = Pairing.title ex
          /\ Pairing.node_content ex_row = Some (Pairing.content ex)
          /\ Pairing.node_created_at ex_row = Pairing.created_at ex.

(** Every container row [after] holds and [before] did not stands for a
    conversation held in full. *)
Definition complete (conversations : list Pairing.conversation)
  (before after : gmap string Pairing.node) : Prop :=
  forall conv_id row,
    before !! conv_id = None -> after !! conv_id = Some row ->
    Pairing.container_row row ->
    holds_conversation conversations after conv_id row.

End Stored.

(** The conversations of a file that [main] does not exclude. *)
Definition kept (conversations : list Pairing.conversation)
  : list Pairing.conversation :=
  filter (fun c => Pairing.excluded c = false) conversations.

(** The conversation's ['uuid'] is the key of a row of [db]. *)
Definition present (db : gmap string Pairing.node) (conv : Pairing.conversation)
  : Prop :=
  exists u, Pairing.conv_uuid conv = Some u /\ is_Some (db !! u).


(** A title the [nodes] table accepts and a message row can carry: it is
    not empty, and on level 4 it has at most 103 characters. *)
Definition title_fits (level : Z) (title : string) : Prop :=
  title <> "" /\ (level = 4%Z -> String.length title <= 103).

(** What [main] of the flat importer prints for the rows of a file with
    [n] conversations and [h] human messages: the lines of the listing by
    type, in one of their orders, and the lines of the listing by level. *)
Definition type_report (n h : nat) : list string :=
  (if 0 <? n then ["  context: " +:+ pretty n] else [])
  ++ (if 0 <? h then ["  thought: " +:+ pretty h] else []).

Definition level_report (n h : nat) : list string :=
  (if 0 <? n then ["  L3 Tree: " +:+ pretty n] else [])
  ++ (if 0 <? h then ["  L4 Leaf: " +:+ pretty h] else []).

(** ** Sample inputs

    An environment in which no timestamp parses, the clock reads
    [0, 1, 2, ...] and the [k]-th uuid is the decimal numeral of [k], and
    small export files for the two scripts. *)

Definition sample_parse (s : string) : option Z := None.

Definition sample_clock (k : nat) : Z := Z.of_nat k.

Definition sample_uuid4 (k : nat) : string := pretty k.

Definition sample_messages : list Pairing.message :=
  [Pairing.flat_message "assistant" "Welcome" None;
   Pairing.flat_message "human" "Q" None;
   Pairing.flat_message "assistant" "A" None].

Definition sample_linked_node : Pairing.node :=
  Pairing.Node "thought" "Q" None (Some "Human: Q") Origin 0 0 None None
               None None None None 0 0 1 0 None 0
               (Some "c0") (Some 0%Z) 0 None.

Definition sample_imported_world : world (gmap string Pairing.node) :=
  World 0 0 [] [] ∅ {["c0-ex-0" := sample_linked_node]}.

Definition sample_empty_world : world (gmap string Pairing.node) :=
  World 0 0 [] [] ∅ ∅.

Definition sample_empty_conversation : Pairing.conversation :=
  Pairing.Conversation (Some "c1") (Some "Empty") None None None (Some []).

Definition sample_flat_conversation : Flat.conversation :=
  Flat.Conversation (Some "c1") (Some "First") None None None
    (Some [Flat.Message (Some "m1") (Some "human") (Some "Q") None None;
           Flat.Message (Some "m2") (Some "assistant") (Some "A") None None;
           Flat.Message (Some "m3") (Some "human") (Some "B") None None]).

Definition sample_flat_world : world Flat.database :=
  World 0 0 [] []
        (Flat.Database ∅ ∅)
        (Flat.Database
           {["old" := Flat.node_row
                        (Flat.NodeDict "old" "context" "Old" None None Origin
                                       0 0 3 None 0)]}
           ∅).


Definition sample_orphans : list Pairing.message :=
  [Pairing.flat_message "assistant" "Welcome" None;
   Pairing.flat_message "system" "" None].

Definition sample_excluded_conversation : Pairing.conversation :=
  Pairing.Conversation (Some "fb73ed99-5131-4c2c-bd81-4a156634d344")
                       (Some "Personal") None None None
                       (Some [Pairing.flat_message "human" "Q" None]).

Definition sample_conversation : Pairing.conversation :=
  Pairing.Conversation (Some "c2") (Some "Chat") None None None
                       (Some sample_messages).


Definition sample_container_node : Pairing.node :=
  Pairing.Node "context" "Empty" None (Some "0 exchanges") Origin 0 0
               None None None None None None 0 0 0 0 None 0 None None 0 None.

Definition sample_unlinked_world : world (gmap string Pairing.node) :=
  World 0 0 [] [] ∅ {["c1" := sample_container_node]}.


(** An environment in which every timestamp parses. *)
Definition sample_parse_all (s : string) : option Z :=
  Some (Z.of_nat (String.length s)).

(** * Properties *)

(** ** Computations *)

Lemma bind_ok {DB A B} (m : M DB A) (k : A -> M DB B) w a w1 :
  m w = (Ok a, w1) -> bind m k w = k a w1.
Proof. intros H. unfold bind. now rewrite H. Qed.

Lemma bind_raise {DB A B} (m : M DB A) (k : A -> M DB B) w e w1 :
  m w = (Raise e, w1) -> bind m k w = (Raise e, w1).
Proof. intros H. unfold bind. now rewrite H. Qed.

Lemma bind_inv {DB A B} (m : M DB A) (k : A -> M DB B) w r w' :
  bind m k w = (r, w') ->
  (exists a w1, m w = (Ok a, w1) /\ k a w1 = (r, w'))
  \/ (exists e, m w = (Raise e, w') /\ r = Raise e).
Proof.
  unfold bind. destruct (m w) as [[a|e] w1]; intros H.
  - left. now exists a, w1.
  - right. exists e. now inversion H.
Qed.

Lemma bind_inv_ok {DB A B} (m : M DB A) (k : A -> M DB B) w b w' :
  bind m k w = (Ok b, w') ->
  exists a w1, m w = (Ok a, w1) /\ k a w1 = (Ok b, w').
Proof.
  intros H. destruct (bind_inv _ _ _ _ _ H) as [H1 | [e [_ H1]]];
    [exact H1 | discriminate].
Qed.

Ltac bind_cases H a w1 Hm :=
  apply bind_inv in H as [(a & w1 & Hm & H) | (? & Hm & ->)].

(** ** Strings *)

Lemma string_app_cons (c : ascii) (s t : string) :
  String c s +:+ t = String c (s +:+ t).
Proof. reflexivity. Qed.

Lemma string_app_nil (t : string) : EmptyString +:+ t = t.
Proof. reflexivity. Qed.

Lemma length_app_string (s t : string) :
  String.length (s +:+ t) = String.length s + String.length t.
Proof. induction s as [|c s IH]; simpl; [reflexivity | now rewrite IH]. Qed.

Lemma length_slice_to (n : nat) (s : string) :
  n <= String.length s -> String.length (slice_to n s) = n.
Proof.
  revert s. induction n as [|n IH]; intros [|c s] H; simpl in *;
    try reflexivity; try lia.
  rewrite IH; [reflexivity | lia].
Qed.

Lemma slice_to_all (n : nat) (s : string) :
  String.length s <= n -> slice_to n s = s.
Proof.
  revert s. induction n as [|n IH]; intros [|c s] H; simpl in *;
    try reflexivity; try lia.
  rewrite IH; [reflexivity | lia].
Qed.

Lemma split_on_nonempty (sep : ascii) (s : string) : split_on sep s <> [].
Proof.
  destruct s as [|c s]; simpl; [discriminate |].
  destruct (Ascii.eqb c sep); [discriminate |].
  destruct (split_on sep s); discriminate.
Qed.

(** The piece [s.split('\n')[0]] is what precedes the first newline. *)
Lemma split_on_first_line (s : string) :
  default EmptyString (split_on newline s !! 0) = Pairing.spec_first_line s.
Proof.
  induction s as [|c s IH]; simpl; [reflexivity |].
  destruct (Ascii.eqb c newline); [reflexivity |].
  destruct (split_on newline s) as [|piece pieces]; simpl in *;
    now rewrite <- IH.
Qed.

(** The first line is a prefix of the text that holds no newline and is
    followed by a newline or by the end of the text. *)
Lemma spec_first_line_prefix (s : string) :
  exists rest,
    s = Pairing.spec_first_line s +:+ rest
    /\ (rest = EmptyString \/ exists rest', rest = String newline rest').
Proof.
  induction s as [|c s [rest [IH1 IH2]]]; simpl.
  - exists EmptyString. split; [reflexivity | now left].
  - destruct (Ascii.eqb c newline) eqn:E.
    + apply Ascii.eqb_eq in E. subst c.
      exists (String newline s). split; [reflexivity | right; now exists s].
    + exists rest. split; [rewrite string_app_cons; now f_equal | exact IH2].
Qed.

Lemma lstrip_no_leading_space (s : string) c r :
  lstrip s = String c r -> is_space c = false.
Proof.
  induction s as [|d s IH]; simpl; [discriminate |].
  destruct (is_space d) eqn:E; [exact IH |].
  intros H. inversion H. now subst.
Qed.

(** [lstrip] removes a run of whitespace from the front and nothing else. *)
Lemma lstrip_suffix (s : string) :
  exists pre,
    s = pre +:+ lstrip s
    /\ Forall (fun c => is_space c = true) (list_ascii_of_string pre).
Proof.
  induction s as [|c s [pre [IH1 IH2]]]; simpl.
  - exists EmptyString. split; [reflexivity | constructor].
  - destruct (is_space c) eqn:E.
    + exists (String c pre). split; [rewrite string_app_cons; now f_equal |].
      simpl. now constructor.
    + exists EmptyString. split; [reflexivity | constructor].
Qed.

(** [rstrip] removes a run of whitespace from the back and nothing else. *)
Lemma rstrip_prefix (s : string) :
  exists post,
    s = rstrip s +:+ post
    /\ Forall (fun c => is_space c = true) (list_ascii_of_string post).
Proof.
  induction s as [|c s [post [IH1 IH2]]]; simpl.
  - exists EmptyString. split; [reflexivity | constructor].
  - destruct (rstrip s) as [|d r] eqn:E.
    + rewrite string_app_nil in IH1. subst post. destruct (is_space c) eqn:Ec.
      * exists (String c s). split; [reflexivity |].
        simpl. now constructor.
      * exists s. split; [reflexivity | exact IH2].
    + exists post. split; [rewrite string_app_cons; now f_equal | exact IH2].
Qed.

Lemma rstrip_no_trailing_space (s : string) :
  forall r c, rstrip s = r +:+ String c EmptyString -> is_space c = false.
Proof.
  induction s as [|d s IH]; intros r c H; simpl in H.
  - destruct r; discriminate.
  - destruct (rstrip s) as [|e t] eqn:E.
    + destruct (is_space d) eqn:Ed; [destruct r; discriminate |].
      destruct r as [|x [|y r]]; try discriminate.
      inversion H. now subst.
    + destruct r as [|x r].
      * inversion H.
      * rewrite string_app_cons in H. inversion H; subst.
        now apply (IH r c).
Qed.

(** [strip] removes a run of whitespace at each end of the text and
    nothing else. *)
Lemma strip_between (s : string) :
  exists pre post,
    s = pre +:+ strip s +:+ post
    /\ Forall (fun c => is_space c = true) (list_ascii_of_string pre)
    /\ Forall (fun c => is_space c = true) (list_ascii_of_string post).
Proof.
  destruct (lstrip_suffix s) as (pre & Hpre & Hspaces).
  destruct (rstrip_prefix (lstrip s)) as (post & Hpost & Hspaces').
  exists pre, post. unfold strip.
  split; [now rewrite <- Hpost | split; assumption].
Qed.

(** ** Title synthesis *)

Lemma create_exchange_title_unfold (text : string) :
  Pairing.create_exchange_title text = Pairing.spec_title (strip text).
Proof.
  unfold Pairing.create_exchange_title, Pairing.spec_title.
  now rewrite split_on_first_line.
Qed.

(** The title is the first line of the text once its leading and
    trailing whitespace is stripped; a line of at most 60 characters is
    the title itself, a longer one gives its first 60 characters followed
    by the three characters ["..."]. *)
Lemma create_exchange_title_stripped (text : string) :
  let line := Pairing.spec_first_line (strip text) in
  (String.length line <= 60 -> Pairing.create_exchange_title text = line)
  /\ (60 < String.length line ->
      Pairing.create_exchange_title text = slice_to 60 line +:+ "..."
      /\ String.length (Pairing.create_exchange_title text) = 63)
  /\ (String.length line = 75 ->
      String.length (Pairing.create_exchange_title text) = 63).
Proof.
  intros line. rewrite create_exchange_title_unfold.
  unfold Pairing.spec_title. fold line.
  assert (Hlong : 60 < String.length line ->
                  (if 60 <? String.length line
                   then slice_to 60 line +:+ "..." else line)
                  = slice_to 60 line +:+ "..."
                  /\ String.length
                       (if 60 <? String.length line
                        then slice_to 60 line +:+ "..." else line) = 63).
  { intros H. apply Nat.ltb_lt in H as Hb. rewrite Hb. split; [reflexivity |].
    rewrite length_app_string, length_slice_to by lia. reflexivity. }
  repeat split.
  - intros H. apply Nat.ltb_ge in H. now rewrite H.
  - now apply Hlong.
  - now apply Hlong.
  - intros H. apply Hlong. lia.
Qed.

(** C3, as stated, fails on the text itself: a text that opens with a
    newline has an empty first line and a title that is not empty, and a
    one-line text of 58 letters and 17 spaces has a first line of 75
    characters and a title of 58. *)
Lemma title_is_not_first_line_of_raw_text :
  (Pairing.spec_first_line (nl +:+ "hello") = ""
   /\ Pairing.create_exchange_title (nl +:+ "hello") = "hello"
   /\ Pairing.create_exchange_title (nl +:+ "hello")
      <> Pairing.spec_title (nl +:+ "hello"))
  /\ (let text :=
        string_of_list_ascii (repeat "a"%char 58 ++ repeat " "%char 17) in
      String.length (Pairing.spec_first_line text) = 75
      /\ String.length (Pairing.create_exchange_title text) = 58
      /\ Pairing.create_exchange_title text <> Pairing.spec_title text).
Proof.
  vm_compute. repeat split; discriminate.
Qed.

(** ** Timestamps *)

Section TimestampFacts.

Context (iso_to_millis : string -> option Z) (wall_clock : nat -> Z).
Context {DB : Type}.

Lemma tick_0 (w : world DB) : tick 0 w = w.
Proof. now destruct w. Qed.

Lemma tick_tick (j k : nat) (w : world DB) : tick j (tick k w) = tick (j + k) w.
Proof. unfold tick. simpl. f_equal. lia. Qed.

(** [parse_timestamp] never raises; it reads the clock at most once and
    touches nothing else. *)
Lemma parse_timestamp_total (ts : string) (w : world DB) :
  exists millis k,
    parse_timestamp iso_to_millis wall_clock ts w = (Ok millis, tick k w).
Proof.
  unfold parse_timestamp.
  destruct (iso_to_millis _) as [millis|].
  - exists millis, 0. now rewrite tick_0.
  - exists (wall_clock (clock_reads w)), 1. reflexivity.
Qed.

Lemma parse_timestamp_inv ts (w w' : world DB) r :
  parse_timestamp iso_to_millis wall_clock ts w = (r, w') ->
  exists millis k, r = Ok millis /\ w' = tick k w.
Proof.
  destruct (parse_timestamp_total ts w) as (millis & k & Hk).
  rewrite Hk. intros H. inversion H. now exists millis, k.
Qed.

End TimestampFacts.

(** ** Message pairing *)

Section PairingFacts.

Context (iso_to_millis : string -> option Z) (wall_clock : nat -> Z).
Context {DB : Type}.

Abbreviation exchange_step :=
  (Pairing.exchange_step (DB := DB) iso_to_millis wall_clock).
Abbreviation pair_loop :=
  (Pairing.pair_loop (DB := DB) iso_to_millis wall_clock).
Abbreviation pair_messages :=
  (Pairing.pair_messages (DB := DB) iso_to_millis wall_clock).

Lemma message_text_flat (sender text : string) (created : option string) :
  Pairing.message_text (Pairing.flat_message sender text created) = Ok text.
Proof. now destruct text. Qed.

Lemma assistant_text_flat (sender text : string) (created : option string) :
  Pairing.assistant_text (Pairing.flat_message sender text created) = text.
Proof. now destruct text. Qed.

(** What one round of the loop does: it reads the message under the
    cursor, leaves the cursor in place or moves it onto an assistant
    message, and touches the clock only. *)
Lemma exchange_step_inv (messages : list Pairing.message) (i : nat)
  (w w' : world DB) ex i' :
  exchange_step messages i w = (Ok (ex, i'), w') ->
  exists msg k,
    messages !! i = Some msg
    /\ w' = tick k w
    /\ (i' = i
        \/ (i' = i + 1
            /\ Pairing.sender_at messages (i + 1) "assistant" = true)).
Proof.
  unfold Pairing.exchange_step.
  destruct (messages !! i) as [msg|] eqn:Hmsg; [| discriminate].
  intros H. exists msg.
  apply bind_inv_ok in H as (text & w1 & Htext & H).
  unfold lift in Htext. inversion Htext; subst w1; clear Htext.
  destruct (String.eqb _ "human").
  - apply bind_inv_ok in H as (millis & w1 & Hts & H).
    destruct (parse_timestamp_total iso_to_millis wall_clock
                (default "" (Pairing.msg_created_at msg)) w) as (m & k & Hk).
    rewrite Hk in Hts. inversion Hts; subst; clear Hts.
    exists k. split; [reflexivity |].
    destruct ((i + 1 <? length messages)
              && Pairing.sender_at messages (i + 1) "assistant") eqn:E;
      inversion H; subst; split; auto.
    right. split; [reflexivity |]. now apply andb_true_iff in E.
  - apply bind_inv_ok in H as (millis & w1 & Hts & H).
    destruct (parse_timestamp_total iso_to_millis wall_clock
                (default "" (Pairing.msg_created_at msg)) w) as (m & k & Hk).
    rewrite Hk in Hts. inversion Hts; subst; clear Hts.
    exists k. inversion H; subst. auto.
Qed.

(** A round that fails leaves the state as it found it. *)
Lemma exchange_step_raise (messages : list Pairing.message) (i : nat)
  (w w' : world DB) e :
  exchange_step messages i w = (Raise e, w') -> w' = w.
Proof.
  unfold Pairing.exchange_step.
  destruct (messages !! i) as [msg|]; [| intros H; now inversion H].
  intros H. apply bind_inv in H as [(text & w1 & Htext & H) | (e' & H & _)].
  - unfold lift in Htext. inversion Htext; subst w1; clear Htext.
    destruct (String.eqb _ "human").
    + apply bind_inv in H as [(millis & w1 & Hts & H) | (e' & H & _)].
      * destruct ((i + 1 <? length messages) && _); discriminate.
      * destruct (parse_timestamp_total iso_to_millis wall_clock
                    (default "" (Pairing.msg_created_at msg)) w)
          as (m & k & Hk).
        rewrite Hk in H. discriminate.
    + apply bind_inv in H as [(millis & w1 & Hts & H) | (e' & H & _)].
      * discriminate.
      * destruct (parse_timestamp_total iso_to_millis wall_clock
                    (default "" (Pairing.msg_created_at msg)) w)
          as (m & k & Hk).
        rewrite Hk in H. discriminate.
  - unfold lift in H. now inversion H.
Qed.

(** The loop never runs out of rounds: from [length messages - i] rounds
    on, more rounds change nothing. *)
Lemma pair_loop_fuel (messages : list Pairing.message) :
  forall fuel1 fuel2 i exchanges (w : world DB),
    length messages - i <= fuel1 ->
    length messages - i <= fuel2 ->
    pair_loop fuel1 messages i exchanges w
    = pair_loop fuel2 messages i exchanges w.
Proof.
  induction fuel1 as [|fuel1 IH]; intros fuel2 i exchanges w H1 H2.
  - destruct fuel2 as [|fuel2]; simpl; [reflexivity |].
    assert (E : (i <? length messages) = false) by (apply Nat.ltb_ge; lia).
    now rewrite E.
  - destruct fuel2 as [|fuel2]; simpl.
    + assert (E : (i <? length messages) = false) by (apply Nat.ltb_ge; lia).
      now rewrite E.
    + destruct (i <? length messages) eqn:E; [| reflexivity].
      unfold bind.
      destruct (Pairing.exchange_step _ _ messages i w) as [[[ex i']|e] w1] eqn:Hs;
        [| reflexivity].
      apply exchange_step_inv in Hs as (msg & k & _ & _ & Hi).
      simpl. apply IH; destruct Hi as [-> | [-> _]]; lia.
Qed.

Lemma pair_loop_tick (messages : list Pairing.message) :
  forall fuel i acc (w w' : world DB) r,
    pair_loop fuel messages i acc w = (r, w') ->
    exists k, w' = tick k w.
Proof.
  induction fuel as [|fuel IH]; intros i acc w w' r H.
  - inversion H. exists 0. now rewrite tick_0.
  - simpl in H. destruct (i <? length messages).
    + apply bind_inv in H as [([ex i'] & w1 & Hs & H) | (e & Hs & _)].
      * apply exchange_step_inv in Hs as (msg & k & _ & -> & _).
        apply IH in H as (j & ->). exists (j + k). apply tick_tick.
      * apply exchange_step_raise in Hs as ->. exists 0. now rewrite tick_0.
    + inversion H. exists 0. now rewrite tick_0.
Qed.

Lemma pair_messages_tick (messages : list Pairing.message) (w w' : world DB) r :
  pair_messages messages w = (r, w') ->
  exists k, w' = tick k w.
Proof. apply pair_loop_tick. Qed.



(** The title of an exchange is [create_exchange_title] of the text of
    the message under the cursor, cut to 100 characters or replaced by
    ['Response'] when the message is not a human one. *)
Lemma exchange_step_title (messages : list Pairing.message) (i : nat)
  (w w' : world DB) ex i' :
  exchange_step messages i w = (Ok (ex, i'), w') ->
  exists msg text,
    messages !! i = Some msg
    /\ Pairing.message_text msg = Ok text
    /\ Pairing.title ex
       = Pairing.create_exchange_title (Pairing.title_source msg text).
Proof.
  unfold Pairing.exchange_step, Pairing.title_source.
  destruct (messages !! i) as [msg|] eqn:Hmsg; [| discriminate].
  intros H. exists msg.
  apply bind_inv_ok in H as (text & w1 & Htext & H).
  unfold lift in Htext. inversion Htext as [[Hr Hw]]; subst w1.
  exists text. split; [reflexivity |]. split; [exact Hr |].
  destruct (String.eqb _ "human").
  - apply bind_inv_ok in H as (millis & w1 & Hts & H).
    destruct ((i + 1 <? length messages) && _); now inversion H.
  - apply bind_inv_ok in H as (millis & w1 & Hts & H). now inversion H.
Qed.

(** C3, as amended: the title of an exchange is the first line of a text
    once its leading and trailing whitespace is stripped, that text being
    the text of a human message, and for an orphan message its first 100
    characters or ['Response'] when it is empty; a line of at most 60
    characters is the title itself, a longer one gives its first 60
    characters followed by the three characters ["..."], so that a
    stripped first line of 75 characters gives a title of 63. *)
Theorem exchange_title_of_stripped_text :
  (forall text,
      let line := Pairing.spec_first_line (strip text) in
      (String.length line <= 60 -> Pairing.create_exchange_title text = line)
      /\ (60 < String.length line ->
          Pairing.create_exchange_title text = slice_to 60 line +:+ "..."
          /\ String.length (Pairing.create_exchange_title text) = 63)
      /\ (String.length line = 75 ->
          String.length (Pairing.create_exchange_title text) = 63))
  /\ (forall messages i ex,
        Pairing.derived_at iso_to_millis wall_clock (DB := DB) messages i ex ->
        exists msg text,
          messages !! i = Some msg
          /\ Pairing.message_text msg = Ok text
          /\ Pairing.title ex
             = Pairing.create_exchange_title (Pairing.title_source msg text)).
Proof.
  split.
  - exact create_exchange_title_stripped.
  - intros messages i ex (w & w' & i' & H).
    eapply exchange_step_title, H.
Qed.

(** C1: a human message followed by an assistant message gives exactly
    one exchange, whose content is the two texts under their headers; a
    human message alone gives exactly one exchange, whose assistant side
    is the placeholder for a missing response. *)
Theorem pair_messages_question_and_answer
  (Q A : string) (tq ta : option string) (w : world DB) :
  (exists ex w',
      pair_messages [Pairing.flat_message "human" Q tq;
                     Pairing.flat_message "assistant" A ta] w = (Ok [ex], w')
      /\ Pairing.content ex
         = "Human: " +:+ Q +:+ nl +:+ nl +:+ "Assistant: " +:+ A)
  /\ (exists ex w',
      pair_messages [Pairing.flat_message "human" Q tq] w = (Ok [ex], w')
      /\ Pairing.content ex
         = "Human: " +:+ Q +:+ nl +:+ nl +:+ "Assistant: *No response*").
Proof.
  destruct (parse_timestamp_total iso_to_millis wall_clock (default "" tq) w)
    as (millis & k & Hk).
  split.
  - unfold Pairing.pair_messages. simpl.
    unfold Pairing.exchange_step. simpl.
    rewrite message_text_flat. unfold bind, lift. rewrite Hk. simpl.
    eexists _, _. split; [reflexivity |]. simpl.
    now rewrite assistant_text_flat.
  - unfold Pairing.pair_messages. simpl.
    unfold Pairing.exchange_step. simpl.
    rewrite message_text_flat. unfold bind, lift. rewrite Hk. simpl.
    eexists _, _. split; reflexivity.
Qed.

(** C4, where the code departs from it: a message under the cursor with
    no text (the key absent, or the empty string) and an empty ['content']
    list makes line 35 raise [IndexError], and with it [pair_messages];
    the same message in the place of the answer to a human message, which
    lines 45 to 50 read, gives the empty string. *)
Theorem pair_messages_empty_content_list
  (sender created : option string) (Q : string) (tq : option string)
  (w : world DB) :
  pair_messages [Pairing.Message sender None (Some []) created] w
  = (Raise IndexError, w)
  /\ pair_messages [Pairing.Message sender (Some "") (Some []) created] w
     = (Raise IndexError, w)
  /\ exists ex w',
      pair_messages
        [Pairing.flat_message "human" Q tq;
         Pairing.Message (Some "assistant") (Some "") (Some []) created] w
      = (Ok [ex], w')
      /\ Pairing.content ex = "Human: " +:+ Q +:+ nl +:+ nl +:+ "Assistant: ".
Proof.
  split; [reflexivity |]. split; [reflexivity |].
  destruct (parse_timestamp_total iso_to_millis wall_clock (default "" tq) w)
    as (millis & k & Hk).
  unfold Pairing.pair_messages. simpl.
  unfold Pairing.exchange_step. simpl.
  rewrite message_text_flat. unfold bind, lift. rewrite Hk. simpl.
  eexists _, _. split; reflexivity.
Qed.

Lemma count_human_cons (msg : Pairing.message) (l : list Pairing.message) :
  Pairing.count_human (msg :: l)
  = (if decide (Pairing.msg_sender msg = Some "human") then 1 else 0)
    + Pairing.count_human l.
Proof.
  unfold Pairing.count_human. rewrite filter_cons.
  now destruct (decide _).
Qed.

Lemma sender_at_true (messages : list Pairing.message) (i : nat) role :
  Pairing.sender_at messages i role = true ->
  exists msg, messages !! i = Some msg /\ Pairing.msg_sender msg = Some role.
Proof.
  unfold Pairing.sender_at. destruct (messages !! i) as [msg|]; [| discriminate].
  intros H. apply bool_decide_eq_true in H. now exists msg.
Qed.

(** The invariant of the loop: what it appends from cursor [i] on comes
    from cursors at or after [i], in increasing order, one exchange per
    human message at least and one per message at most. *)
Lemma pair_loop_inv (messages : list Pairing.message) :
  forall fuel i acc (w w' : world DB) exs,
    length messages - i <= fuel ->
    pair_loop fuel messages i acc w = (Ok exs, w') ->
    exists rest idxs,
      exs = acc ++ rest
      /\ Forall2 (Pairing.derived_at iso_to_millis wall_clock (DB := DB) messages)
                 idxs rest
      /\ StronglySorted lt idxs
      /\ Forall (fun j => i <= j) idxs
      /\ Pairing.count_human (drop i messages) <= length rest
      /\ length rest <= length messages - i.
Proof.
  induction fuel as [|fuel IH]; intros i acc w w' exs Hfuel H.
  - inversion H; subst. exists [], []. rewrite app_nil_r.
    rewrite drop_ge by lia.
    repeat split; try constructor; simpl; lia.
  - simpl in H. destruct (i <? length messages) eqn:E.
    + apply Nat.ltb_lt in E.
      apply bind_inv_ok in H as ([ex i'] & w1 & Hstep & H). simpl in H.
      pose proof Hstep as Hs.
      apply exchange_step_inv in Hs as (msg & k & Hmsg & _ & Hi).
      apply IH in H as (rest & idxs & -> & Hder & Hsort & Hge & Hlo & Hhi);
        [| destruct Hi as [-> | [-> _]]; lia].
      exists (ex :: rest), (i :: idxs).
      rewrite <- app_assoc. split; [reflexivity |].
      split; [constructor; [now exists w, w1, i' | exact Hder] |].
      split.
      { constructor; [exact Hsort |].
        eapply Forall_impl; [exact Hge |].
        intros j Hj. simpl in Hj. destruct Hi as [-> | [-> _]]; lia. }
      split.
      { constructor; [lia |]. eapply Forall_impl; [exact Hge |].
        intros j Hj. simpl in Hj. destruct Hi as [-> | [-> _]]; lia. }
      rewrite (drop_S _ _ _ Hmsg), count_human_cons. simpl.
      split.
      * destruct Hi as [-> | [-> Hnext]].
        -- destruct (decide _); lia.
        -- apply sender_at_true in Hnext as (a & Ha & Hrole).
           replace (i + 1) with (S i) in * by lia.
           rewrite (drop_S _ _ _ Ha), count_human_cons.
           destruct (decide (Pairing.msg_sender a = Some "human"));
             [congruence |].
           destruct (decide _); lia.
      * destruct Hi as [-> | [-> _]]; lia.
    + inversion H; subst. exists [], []. rewrite app_nil_r.
      apply Nat.ltb_ge in E. rewrite drop_ge by lia.
      repeat split; try constructor; simpl; lia.
Qed.

(** C2: when [pair_messages] returns, it returns at most one exchange per
    message and at least one per human message, and the exchanges are
    built from cursor positions that increase along the list. *)
Theorem pair_messages_count_and_order
  (messages : list Pairing.message) (w w' : world DB) exs :
  pair_messages messages w = (Ok exs, w') ->
  Pairing.count_human messages <= length exs <= length messages
  /\ exists idxs,
      Forall2 (Pairing.derived_at iso_to_millis wall_clock (DB := DB) messages)
              idxs exs
      /\ StronglySorted lt idxs.
Proof.
  intros H. unfold Pairing.pair_messages in H.
  apply pair_loop_inv in H as (rest & idxs & -> & Hder & Hsort & _ & Hlo & Hhi);
    [| lia].
  rewrite drop_0 in Hlo. rewrite Nat.sub_0_r in Hhi. simpl.
  split; [lia |]. now exists idxs.
Qed.

End PairingFacts.

Lemma exchange_title_of_stripped_text_witness :
  Pairing.create_exchange_title "Hello there" = "Hello there"
  /\ String.length
       (Pairing.create_exchange_title
          (string_of_list_ascii (repeat "a"%char 75) +:+ nl +:+ "rest")) = 63
  /\ exists msg text,
      sample_messages !! 0 = Some msg
      /\ Pairing.message_text msg = Ok text
      /\ "Welcome"
         = Pairing.create_exchange_title (Pairing.title_source msg text).
Proof.
  split; [| split].
  - apply (proj1 (exchange_title_of_stripped_text
                    sample_parse sample_clock (DB := unit)) "Hello there").
    vm_compute. lia.
  - apply (proj1 (exchange_title_of_stripped_text
                    sample_parse sample_clock (DB := unit))
                 (string_of_list_ascii (repeat "a"%char 75) +:+ nl +:+ "rest")).
    vm_compute. reflexivity.
  - apply (proj2 (exchange_title_of_stripped_text
                    sample_parse sample_clock (DB := unit))
                 sample_messages 0
                 (Pairing.Exchange "Welcome" "Assistant: Welcome" 0%Z)).
    exists (World 0 0 [] [] tt tt), (World 1 0 [] [] tt tt), 0.
    reflexivity.
Defined.

Lemma pair_messages_count_and_order_witness :
  exists exs,
    (Pairing.count_human sample_messages <= length exs
     <= length sample_messages)
    /\ exists idxs,
        Forall2 (Pairing.derived_at sample_parse sample_clock (DB := unit)
                                    sample_messages) idxs exs
        /\ StronglySorted lt idxs.
Proof.
  eexists.
  eapply (pair_messages_count_and_order sample_parse sample_clock
            sample_messages (World 0 0 [] [] tt tt)).
  reflexivity.
Defined.

(** ** The pairing importer's writes *)

Section PairingMainFacts.

Context (iso_to_millis : string -> option Z) (wall_clock : nat -> Z).
Context (uuid4 : nat -> string) (db_path : string).
Context (shuffle : list Pairing.conversation -> list Pairing.conversation).

Abbreviation database := (gmap string Pairing.node).
Abbreviation main :=
  (Pairing.main iso_to_millis wall_clock uuid4 db_path shuffle).
Abbreviation import_loop := (Pairing.import_loop iso_to_millis wall_clock uuid4).

Lemma written_refl (db : database) : Pairing.written db db.
Proof. split; [auto | intros id row H1 H2; congruence]. Qed.

Lemma written_insert_container (before after : database) id row :
  Pairing.written before after -> after !! id = None ->
  Pairing.container_row row ->
  Pairing.written before (<[id := row]> after).
Proof.
  intros [Hold Hnew] Hfree Hrow. split.
  - intros j r Hj. destruct (decide (id = j)) as [-> | Hne].
    + apply Hold in Hj. congruence.
    + rewrite lookup_insert_ne by exact Hne. now apply Hold.
  - intros j r Hj Hr. destruct (decide (id = j)) as [-> | Hne].
    + rewrite lookup_insert_eq in Hr. inversion Hr; subst. now left.
    + rewrite lookup_insert_ne in Hr by exact Hne.
      destruct (Hnew _ _ Hj Hr)
        as [Hc | (Hitem & p & prow & idx & Hp1 & Hp2 & Hp3 & Hp4)];
        [now left | right].
      split; [exact Hitem |]. exists p, prow, idx.
      split; [exact Hp1 |]. split; [exact Hp2 |]. split; [| exact Hp4].
      rewrite lookup_insert_ne; [exact Hp3 | congruence].
Qed.

Lemma written_insert_exchange (before after : database) row parent prow idx :
  Pairing.written before after ->
  after !! (parent +:+ "-ex-" +:+ pretty idx) = None ->
  before !! parent = None -> after !! parent = Some prow ->
  Pairing.container_row prow ->
  Pairing.node_is_item row = 1%Z ->
  Pairing.node_conversation_id row = Some parent ->
  Pairing.node_sequence_index row = Some (Z.of_nat idx) ->
  Pairing.written before (<[parent +:+ "-ex-" +:+ pretty idx := row]> after).
Proof.
  intros [Hold Hnew] Hfree Hb Ha Hc Hitem Hlink Hseq.
  remember (parent +:+ "-ex-" +:+ pretty idx) as id eqn:Hid. split.
  - intros j r Hj. destruct (decide (id = j)) as [Heq | Hne].
    + subst j. apply Hold in Hj. congruence.
    + rewrite lookup_insert_ne by exact Hne. now apply Hold.
  - intros j r Hj Hr. destruct (decide (id = j)) as [Heq | Hne].
    + subst j. rewrite lookup_insert_eq in Hr. inversion Hr; subst r. right.
      split; [exact Hitem |]. exists parent, prow, idx.
      split; [exact Hlink |]. split; [exact Hb |].
      split; [| split; [exact Hc | split; [exact Hid | exact Hseq]]].
      rewrite lookup_insert_ne; [exact Ha | congruence].
    + rewrite lookup_insert_ne in Hr by exact Hne.
      destruct (Hnew _ _ Hj Hr)
        as [Hc' | (Hitem' & p & prow' & idx' & Hp1 & Hp2 & Hp3 & Hp4)];
        [now left | right].
      split; [exact Hitem' |]. exists p, prow', idx'.
      split; [exact Hp1 |]. split; [exact Hp2 |]. split; [| exact Hp4].
      rewrite lookup_insert_ne; [exact Hp3 | congruence].
Qed.

Lemma insert_node_inv id row (w w' : world database) r :
  Pairing.insert_node id row w = (r, w') ->
  (r = Raise IntegrityError /\ w' = w /\ is_Some (conn w !! id))
  \/ (r = Ok tt /\ conn w !! id = None
      /\ conn w' = <[id := row]> (conn w) /\ disk w' = disk w
      /\ stdout w' = stdout w).
Proof.
  unfold Pairing.insert_node. destruct (conn w !! id) eqn:E; intros H.
  - left. inversion H. eauto.
  - right. inversion H. simpl. auto.
Qed.

Lemma insert_exchanges_written before conv_id at_ n :
  forall exchanges idx c (w w' : world database) r,
    Pairing.insert_exchanges conv_id at_ n idx exchanges c w = (r, w') ->
    Pairing.consistent before w -> before !! conv_id = None ->
    (exists prow, conn w !! conv_id = Some prow /\ Pairing.container_row prow) ->
    Pairing.consistent before w'.
Proof.
  induction exchanges as [|ex rest IH]; intros idx c w w' r H Hgood Hb Hp.
  - inversion H; now subst.
  - simpl in H.
    apply bind_inv in H as [(u & w1 & Hins & H) | (e & Hins & _)].
    + apply insert_node_inv in Hins as [(? & _) | (_ & Hfree & Hconn & Hdisk & _)];
        [discriminate |].
      unfold Pairing.limit_reached, Pairing.MAX_EXCHANGES in H.
      destruct Hp as (prow & Hprow & Hc). destruct Hgood as [Hg1 Hg2].
      eapply IH; [exact H | | exact Hb |].
      * split; [| now rewrite Hdisk]. rewrite Hconn.
        eapply written_insert_exchange; eauto.
      * exists prow. split; [| exact Hc]. rewrite Hconn.
        rewrite lookup_insert_ne; [exact Hprow | congruence].
    + apply insert_node_inv in Hins as [(_ & -> & _) | (? & _)];
        [exact Hgood | discriminate].
Qed.

(** The loop of [main] only adds container rows and exchange rows. *)
Lemma import_loop_written before n :
  forall conversations i c (w w' : world database) r,
    import_loop n i conversations c w = (r, w') ->
    Pairing.consistent before w -> Pairing.consistent before w'.
Proof.
  induction conversations as [|conv rest IH]; intros i c w w' r H Hgood.
  - inversion H; now subst.
  - cbn [Pairing.import_loop] in H.
    bind_cases H drawn w1 Hdraw; [| discriminate].
    inversion Hdraw; subst drawn w1; clear Hdraw.
    set (conv_id := default (uuid4 (uuid_draws w)) (Pairing.conv_uuid conv)) in *.
    bind_cases H found w1 Hq; [| discriminate].
    inversion Hq; subst found w1; clear Hq. cbn [conn] in H.
    destruct (Pairing.node_exists conv_id (conn w)) eqn:Hexists.
    { eapply IH; [exact H | exact Hgood]. }
    assert (Hfree : conn w !! conv_id = None).
    { unfold Pairing.node_exists in Hexists.
      apply bool_decide_eq_false in Hexists.
      destruct (conn w !! conv_id); [exfalso; eauto | reflexivity]. }
    bind_cases H created w1 Hts;
      apply parse_timestamp_inv in Hts as (m & k & Hr & ->);
      [| discriminate].
    bind_cases H updated w2 Hts.
    2:{ destruct (truthy _); [| discriminate].
        apply parse_timestamp_inv in Hts as (? & ? & ? & _). discriminate. }
    assert (Hw2 : Pairing.consistent before w2).
    { destruct (truthy _).
      - apply parse_timestamp_inv in Hts as (? & ? & _ & ->). exact Hgood.
      - inversion Hts. exact Hgood. }
    assert (Hfree2 : conn w2 !! conv_id = None).
    { destruct (truthy _).
      - apply parse_timestamp_inv in Hts as (? & ? & _ & ->). exact Hfree.
      - inversion Hts. exact Hfree. }
    clear Hts Hgood Hfree Hexists.
    bind_cases H exchanges w3 Hpair;
      apply pair_messages_tick in Hpair as (k2 & ->); [| exact Hw2].
    bind_cases H u w4 Hins.
    2:{ apply insert_node_inv in Hins as [(_ & -> & _) | (? & _)];
          [exact Hw2 | discriminate]. }
    apply insert_node_inv in Hins as [(? & _) | (_ & _ & Hconn & Hdisk & _)];
      [discriminate |].
    cbn [conn disk tick] in Hconn, Hdisk.
    assert (Hb : before !! conv_id = None).
    { destruct (before !! conv_id) eqn:E; [| reflexivity].
      destruct Hw2 as [[Hold _] _]. apply Hold in E. congruence. }
    assert (Hw4 : Pairing.consistent before w4).
    { destruct Hw2 as [Hg1 Hg2]. split; [| now rewrite Hdisk].
      rewrite Hconn. apply written_insert_container; try assumption.
      now split. }
    assert (Hparent : exists prow, conn w4 !! conv_id = Some prow
                                   /\ Pairing.container_row prow).
    { eexists. rewrite Hconn, lookup_insert_eq.
      split; [reflexivity | now split]. }
    bind_cases H c1 w5 Hex;
      [| eapply insert_exchanges_written; eassumption].
    assert (Hw5 : Pairing.consistent before w5)
      by (eapply insert_exchanges_written; eassumption).
    bind_cases H u' w6 Hcommit.
    2:{ destruct ((i + 1) mod 50 =? 0); discriminate. }
    assert (Hw6 : Pairing.consistent before w6).
    { destruct ((i + 1) mod 50 =? 0).
      - inversion Hcommit. split; apply Hw5.
      - inversion Hcommit; now subst. }
    unfold Pairing.limit_reached, Pairing.MAX_EXCHANGES in H.
    eapply IH; [exact H | exact Hw6].
Qed.

Lemma main_written (conversations : list Pairing.conversation)
  (w w' : world database) r :
  main conversations w = (r, w') -> Pairing.consistent (disk w) w'.
Proof.
  unfold Pairing.main, Pairing.FILTER_MYCELICA, Pairing.MAX_EXCHANGES.
  intros H.
  repeat (bind_cases H u w1 Hp; [inversion Hp; subst u w1; clear Hp | discriminate]).
  cbn [conn disk] in H.
  destruct (0 <? Pairing.count_linked (disk w)).
  - bind_cases H u w1 Hp; [| discriminate]. inversion Hp; subst.
    inversion H; subst. split; apply written_refl.
  - bind_cases H c w1 Hloop.
    + apply import_loop_written with (before := disk w) in Hloop;
        [| split; apply written_refl].
      repeat (bind_cases H u w2 Hp; [inversion Hp; subst u w2; clear Hp | discriminate]).
      inversion H; subst. split; apply Hloop.
    + apply import_loop_written with (before := disk w) in Hloop;
        [exact Hloop | split; apply written_refl].
Qed.

Lemma count_linked_0 (db : database) :
  Pairing.count_linked db = 0 <-> Pairing.unlinked db.
Proof.
  unfold Pairing.count_linked, Pairing.unlinked.
  rewrite map_size_empty_iff, map_empty_filter. unfold map_Forall.
  split; intros H id row Hrow.
  - specialize (H id row Hrow). simpl in H.
    destruct (Pairing.node_conversation_id row); [exfalso; eauto | reflexivity].
  - simpl. rewrite (H id row Hrow). now intros [x Hx].
Qed.

Lemma unlinked_insert (db : database) id row :
  Pairing.unlinked db -> Pairing.node_conversation_id row = None ->
  Pairing.unlinked (<[id := row]> db).
Proof.
  intros H Hrow j r Hj. destruct (decide (id = j)) as [-> | Hne].
  - rewrite lookup_insert_eq in Hj. now inversion Hj; subst.
  - rewrite lookup_insert_ne in Hj by exact Hne. eapply H, Hj.
Qed.

(** Over conversations without messages the loop of [main] returns and
    links no node. *)
Lemma import_loop_no_messages n :
  forall conversations i c (w w' : world database) r,
    import_loop n i conversations c w = (r, w') ->
    Forall Pairing.no_messages conversations ->
    Pairing.unlinked (conn w) -> Pairing.unlinked (disk w) ->
    (exists c', r = Ok c')
    /\ Pairing.unlinked (conn w') /\ Pairing.unlinked (disk w')
    /\ exists lines, stdout w' = stdout w ++ lines.
Proof.
  induction conversations as [|conv rest IH];
    intros i c w w' r H Hno Hconn Hdisk.
  - inversion H; subst. repeat split; eauto.
    exists []. now rewrite app_nil_r.
  - inversion Hno as [|? ? Hconv Hrest]; subst.
    cbn [Pairing.import_loop] in H. rewrite Hconv in H.
    bind_cases H drawn w1 Hdraw; [| discriminate].
    inversion Hdraw; subst drawn w1; clear Hdraw.
    set (conv_id := default (uuid4 (uuid_draws w)) (Pairing.conv_uuid conv)) in *.
    bind_cases H found w1 Hq; [| discriminate].
    inversion Hq; subst found w1; clear Hq. cbn [conn] in H.
    destruct (Pairing.node_exists conv_id (conn w)) eqn:Hexists.
    { eapply IH in H; eauto. }
    bind_cases H created w1 Hts;
      apply parse_timestamp_inv in Hts as (m & k & Hr & ->);
      [| discriminate].
    bind_cases H updated w2 Hts.
    2:{ destruct (truthy _); [| discriminate].
        apply parse_timestamp_inv in Hts as (? & ? & ? & _). discriminate. }
    assert (Hw2 : exists k2, w2 = tick k2
                    (World (clock_reads w) (S (uuid_draws w)) (stdout w)
                           (sql_log w) (conn w) (disk w))).
    { destruct (truthy _).
      - apply parse_timestamp_inv in Hts as (? & k' & _ & ->).
        exists (k' + k). apply tick_tick.
      - inversion Hts. now exists k. }
    destruct Hw2 as (k2 & ->). clear Hts.
    bind_cases H exchanges w3 Hpair; [| discriminate].
    inversion Hpair; subst exchanges w3; clear Hpair.
    bind_cases H u w4 Hins.
    2:{ apply insert_node_inv in Hins as [(_ & _ & Hsome) | (? & _)];
          [| discriminate].
        unfold Pairing.node_exists in Hexists.
        apply bool_decide_eq_false in Hexists. now destruct Hexists. }
    apply insert_node_inv in Hins
      as [(? & _) | (_ & _ & Hc4 & Hd4 & Hs4)]; [discriminate |].
    cbn [conn disk stdout tick] in Hc4, Hd4, Hs4.
    bind_cases H c1 w5 Hex; [| discriminate].
    inversion Hex; subst c1 w5; clear Hex.
    bind_cases H u' w6 Hcommit.
    2:{ destruct ((i + 1) mod 50 =? 0); discriminate. }
    assert (Hw6 : Pairing.unlinked (conn w6) /\ Pairing.unlinked (disk w6)
                  /\ exists lines, stdout w6 = stdout w ++ lines).
    { assert (Hu4 : Pairing.unlinked (conn w4))
        by (rewrite Hc4; now apply unlinked_insert).
      destruct ((i + 1) mod 50 =? 0).
      - inversion Hcommit. cbn [conn disk stdout].
        repeat split; try assumption. rewrite Hs4. eauto.
      - inversion Hcommit; subst. rewrite Hd4, Hs4.
        repeat split; try assumption. exists []. now rewrite app_nil_r. }
    destruct Hw6 as (Hc6 & Hd6 & lines6 & Hs6).
    unfold Pairing.limit_reached, Pairing.MAX_EXCHANGES in H.
    eapply IH in H as (Hok & Hc' & Hd' & lines & Hs); eauto.
    repeat split; try assumption.
    exists (lines6 ++ lines). now rewrite Hs, Hs6, app_assoc.
Qed.

Lemma filter_all {A} (P : A -> Prop) `{forall x, Decision (P x)}
  (Q : A -> Prop) (l : list A) :
  Forall Q l -> Forall Q (filter P l).
Proof.
  induction 1 as [|x l Hx Hl IH]; [constructor |].
  rewrite filter_cons. destruct (decide (P x)); [now constructor | exact IH].
Qed.

Hypothesis shuffle_permutes : forall l, Permutation l (shuffle l).

Lemma main_no_messages (conversations : list Pairing.conversation)
  (w : world database) :
  Forall Pairing.no_messages conversations ->
  Pairing.count_linked (disk w) = 0 ->
  exists w' lines c,
    main conversations w = (Ok tt, w')
    /\ Pairing.count_linked (disk w') = 0
    /\ stdout w'
       = stdout w ++ lines
         ++ [nl +:+ Pairing.check_mark +:+ " Import complete!";
             "  Conversations: " +:+ pretty (Pairing.conversations_imported c);
             "  Exchanges: " +:+ pretty (Pairing.exchanges_imported c);
             "  Skipped: " +:+ pretty (Pairing.skipped c)].
Proof.
  intros Hno Hzero.
  destruct (main conversations w) as [r w'] eqn:H.
  unfold Pairing.main, Pairing.FILTER_MYCELICA, Pairing.MAX_EXCHANGES in H.
  do 7 (bind_cases H u w1 Hp;
        [inversion Hp; subst u w1; clear Hp | discriminate]).
  cbn [conn disk stdout] in H. rewrite Hzero in H.
  change (0 <? 0) with false in H. cbv iota in H.
  apply count_linked_0 in Hzero.
  assert (Hconvs : Forall Pairing.no_messages
                     (shuffle (filter (fun c0 => Pairing.excluded c0 = false)
                                      conversations))).
  { eapply Permutation_Forall; [apply shuffle_permutes |].
    apply filter_all, Hno. }
  bind_cases H c w1 Hloop;
    apply import_loop_no_messages in Hloop
      as ((c' & Hc') & Hc1 & Hd1 & lines & Hs1);
    try assumption; try discriminate.
  cbn [conn disk stdout] in Hs1.
  do 5 (bind_cases H u w2 Hp;
        [inversion Hp; subst u w2; clear Hp | discriminate]).
  inversion H; subst r w'; clear H.
  eexists _, ([_; _; _; _] ++ lines), c. split; [reflexivity |].
  cbn [conn disk stdout].
  split; [now apply count_linked_0 |].
  rewrite Hs1. repeat rewrite <- app_assoc. reflexivity.
Qed.
Lemma count_linked_pos (db : database) id row :
  db !! id = Some row -> is_Some (Pairing.node_conversation_id row) ->
  0 < Pairing.count_linked db.
Proof.
  intros Hrow Hlinked. unfold Pairing.count_linked.
  assert (H : filter (fun r : string * Pairing.node =>
                        is_Some (Pairing.node_conversation_id r.2)) db <> ∅).
  { intros E.
    assert (H1 : filter (fun r : string * Pairing.node =>
                           is_Some (Pairing.node_conversation_id r.2)) db
                 !! id = Some row).
    { apply map_lookup_filter_Some. split; assumption. }
    rewrite E in H1. rewrite lookup_empty in H1. discriminate. }
  apply map_size_non_empty_iff in H. lia.
Qed.

(** C5: when the database file holds a node with a conversation linkage,
    [main] returns before its loop: no statement changes the database, the
    file and the connection hold what the file held, and what the run
    prints ends with the two lines of the warning, none of its lines
    being a report of imported conversations. *)
Theorem main_skips_import_over_linked_nodes
  (conversations : list Pairing.conversation) (w : world database) id row :
  disk w !! id = Some row ->
  is_Some (Pairing.node_conversation_id row) ->
  exists w' header,
    main conversations w = (Ok tt, w')
    /\ disk w' = disk w
    /\ conn w' = disk w
    /\ sql_log w' = sql_log w
    /\ stdout w'
       = stdout w ++ header
         ++ ["Warning: " +:+ pretty (Pairing.count_linked (disk w))
               +:+ " conversation nodes already exist. Skipping import.";
             "To reimport, clear the database first."]
    /\ Forall (fun line => String.prefix "  Conversations: " line = false)
              (header
               ++ ["Warning: " +:+ pretty (Pairing.count_linked (disk w))
                     +:+ " conversation nodes already exist. Skipping import.";
                   "To reimport, clear the database first."]).
Proof.
  intros Hrow Hlinked.
  pose proof (count_linked_pos _ _ _ Hrow Hlinked) as Hpos.
  apply Nat.ltb_lt in Hpos.
  unfold Pairing.main, Pairing.FILTER_MYCELICA, Pairing.MAX_EXCHANGES.
  unfold bind, print, connect, query, ret. simpl.
  rewrite Hpos. simpl.
  eexists _, [_; _; _; _]. split; [reflexivity |]. simpl.
  repeat split; try reflexivity.
  - repeat rewrite <- app_assoc. reflexivity.
  - repeat constructor.
Qed.

(** C10: whatever a run of [main] adds to the database is a container row
    without conversation linkage or an item row linked to a container row
    added by the same run, and it changes no row that was there; so a run
    over conversations without messages, started on a database without
    linked nodes, ends with none, and a further run is not stopped by the
    guard: it goes through to its closing report. *)
Theorem main_links_exchanges_only :
  (forall conversations (w w' : world database) r,
      main conversations w = (r, w') ->
      Pairing.written (disk w) (conn w')
      /\ Pairing.written (disk w) (disk w'))
  /\ (forall conversations (w : world database),
        Forall Pairing.no_messages conversations ->
        Pairing.count_linked (disk w) = 0 ->
        exists w',
          main conversations w = (Ok tt, w')
          /\ Pairing.count_linked (disk w') = 0
          /\ forall conversations',
              Forall Pairing.no_messages conversations' ->
              exists w'' lines c,
                main conversations' w' = (Ok tt, w'')
                /\ stdout w''
                   = stdout w' ++ lines
                     ++ [nl +:+ Pairing.check_mark +:+ " Import complete!";
                         "  Conversations: "
                           +:+ pretty (Pairing.conversations_imported c);
                         "  Exchanges: "
                           +:+ pretty (Pairing.exchanges_imported c);
                         "  Skipped: " +:+ pretty (Pairing.skipped c)]).
Proof.
  split.
  - intros conversations w w' r H. now apply main_written in H.
  - intros conversations w Hno Hzero.
    destruct (main_no_messages conversations w Hno Hzero)
      as (w' & lines & c & Hrun & Hzero' & _).
    exists w'. split; [exact Hrun |]. split; [exact Hzero' |].
    intros conversations' Hno'.
    destruct (main_no_messages conversations' w' Hno' Hzero')
      as (w'' & lines' & c' & Hrun' & _ & Hout).
    now exists w'', lines', c'.
Qed.

End PairingMainFacts.

Lemma main_skips_import_over_linked_nodes_witness :
  exists w' header,
    Pairing.main sample_parse sample_clock sample_uuid4 "mycelica.db"
                 (fun l => l) [sample_empty_conversation]
                 sample_imported_world
    = (Ok tt, w')
    /\ disk w' = disk sample_imported_world
    /\ conn w' = disk sample_imported_world
    /\ sql_log w' = sql_log sample_imported_world
    /\ stdout w'
       = stdout sample_imported_world ++ header
         ++ ["Warning: "
               +:+ pretty (Pairing.count_linked (disk sample_imported_world))
               +:+ " conversation nodes already exist. Skipping import.";
             "To reimport, clear the database first."]
    /\ Forall (fun line => String.prefix "  Conversations: " line = false)
              (header
               ++ ["Warning: "
                     +:+ pretty
                           (Pairing.count_linked (disk sample_imported_world))
                     +:+ " conversation nodes already exist. Skipping import.";
                   "To reimport, clear the database first."]).
Proof.
  apply (main_skips_import_over_linked_nodes
           sample_parse sample_clock sample_uuid4 "mycelica.db" (fun l => l)
           [sample_empty_conversation] sample_imported_world
           "c0-ex-0" sample_linked_node).
  - reflexivity.
  - exists "c0". reflexivity.
Defined.

Lemma main_links_exchanges_only_witness :
  exists w',
    Pairing.main sample_parse sample_clock sample_uuid4 "mycelica.db"
                 (fun l => l) [sample_empty_conversation] sample_empty_world
    = (Ok tt, w')
    /\ Pairing.count_linked (disk w') = 0
    /\ forall conversations',
        Forall Pairing.no_messages conversations' ->
        exists w'' lines c,
          Pairing.main sample_parse sample_clock sample_uuid4 "mycelica.db"
                       (fun l => l) conversations' w'
          = (Ok tt, w'')
          /\ stdout w''
             = stdout w' ++ lines
               ++ [nl +:+ Pairing.check_mark +:+ " Import complete!";
                   "  Conversations: "
                     +:+ pretty (Pairing.conversations_imported c);
                   "  Exchanges: " +:+ pretty (Pairing.exchanges_imported c);
                   "  Skipped: " +:+ pretty (Pairing.skipped c)].
Proof.
  apply (main_links_exchanges_only
           sample_parse sample_clock sample_uuid4 "mycelica.db" (fun l => l)).
  - intros l. reflexivity.
  - repeat constructor.
  - reflexivity.
Defined.

(** ** The flat importer *)

Section FlatFacts.

Context (iso_to_millis : string -> option Z) (wall_clock : nat -> Z).
Context (uuid4 : nat -> string).

Abbreviation message_loop :=
  (Flat.message_loop iso_to_millis wall_clock uuid4).
Abbreviation conversation_loop :=
  (Flat.conversation_loop iso_to_millis wall_clock uuid4).
Abbreviation import_conversations :=
  (Flat.import_conversations iso_to_millis wall_clock uuid4).

Lemma frame_refl {DB} (w : world DB) : frame 0 w w.
Proof. unfold frame. repeat split; lia. Qed.

Lemma frame_trans {DB} d1 d2 (w1 w2 w3 : world DB) :
  frame d1 w1 w2 -> frame d2 w2 w3 -> frame (d1 + d2) w1 w3.
Proof.
  unfold frame. intros (A1 & A2 & A3 & A4 & A5) (B1 & B2 & B3 & B4 & B5).
  repeat split; try congruence. lia.
Qed.

Lemma frame_tick {DB} k (w : world DB) : frame 0 w (tick k w).
Proof. unfold frame. simpl. repeat split; lia. Qed.

(** The inner loop appends one node dict and one edge dict per human
    message, or stops on the first human message without ['uuid']. *)
Lemma message_loop_inv conv_id at_ n :
  forall messages j nodes edges (w w' : world Flat.database) r,
    message_loop conv_id at_ n j messages nodes edges w = (r, w') ->
    match r with
    | Ok (nodes', edges') =>
        exists ns es,
          nodes' = nodes ++ ns /\ edges' = edges ++ es
          /\ Forall2 (Flat.message_dict conv_id)
                     (filter (fun msg => Flat.is_human msg = true) messages) ns
          /\ Forall2 (Flat.message_edge conv_id)
                     (filter (fun msg => Flat.is_human msg = true) messages) es
          /\ Flat.ed_id <$> es = uuid4 <$> seq (uuid_draws w) (length es)
          /\ Flat.message_keys messages = Some (Flat.nd_id <$> ns)
          /\ frame (length es) w w'
    | Raise e =>
        e = KeyError /\ Flat.message_keys messages = None
        /\ exists d, frame d w w'
    end.
Proof.
  induction messages as [|msg rest IH]; intros j nodes edges w w' r H.
  - inversion H; subst. exists [], []. rewrite !app_nil_r.
    repeat split; try constructor; try reflexivity; simpl; lia.
  - cbn [Flat.message_loop Flat.message_keys] in H |- *.
    rewrite filter_cons.
    destruct (Flat.is_human msg) eqn:Hhuman; cbn [negb] in H.
    2:{ destruct (decide (false = true)); [discriminate |].
        apply IH in H. exact H. }
    destruct (decide (true = true)); [| congruence].
    destruct (Flat.msg_uuid msg) as [msg_id|] eqn:Hid.
    2:{ inversion H; subst. repeat split. exists 0. apply frame_refl. }
    bind_cases H created w1 Hts;
      apply parse_timestamp_inv in Hts as (m1 & k1 & Hr & ->);
      [| discriminate].
    bind_cases H updated w2 Hts;
      apply parse_timestamp_inv in Hts as (m2 & k2 & Hr2 & ->);
      [| discriminate].
    bind_cases H drawn w3 Hdraw; [| discriminate].
    inversion Hdraw; subst drawn w3; clear Hdraw.
    bind_cases H stamp w4 Hts;
      apply parse_timestamp_inv in Hts as (m3 & k3 & Hr3 & ->);
      [| discriminate].
    apply IH in H. cbn [uuid_draws tick] in H.
    destruct r as [[nodes' edges']|err].
    + destruct H as (ns & es & -> & -> & Hns & Hes & Hids & Hkeys & Hframe).
      eexists (_ :: ns), (_ :: es). rewrite <- !app_assoc.
      split; [reflexivity |]. split; [reflexivity |].
      split; [constructor; [| exact Hns] |].
      { repeat split; assumption. }
      split; [constructor; [| exact Hes] |].
      { repeat split; assumption. }
      split; [rewrite fmap_cons; cbn [length seq];
              rewrite fmap_cons, Hids; reflexivity |].
      split; [rewrite Hkeys; reflexivity |].
      destruct Hframe as (A1 & A2 & A3 & A4 & A5). simpl in *.
      unfold frame. repeat split; try assumption. lia.
    + destruct H as (-> & Hkeys & d & Hframe).
      rewrite Hkeys. repeat split. exists (1 + d).
      destruct Hframe as (A1 & A2 & A3 & A4 & A5). simpl in *.
      unfold frame. repeat split; try assumption. lia.
Qed.

(** The outer loop appends one group of dicts per conversation, or stops
    on the first missing ['uuid']. *)
Lemma conversation_loop_inv n :
  forall conversations i nodes edges (w w' : world Flat.database) r,
    conversation_loop n i conversations nodes edges w = (r, w') ->
    match r with
    | Ok (nodes', edges') =>
        exists groups,
          Forall2 Flat.group_of conversations groups
          /\ nodes' = nodes ++ flat_map Flat.group_nodes groups
          /\ edges' = edges ++ flat_map Flat.edge_dicts groups
          /\ Flat.ed_id <$> flat_map Flat.edge_dicts groups
             = uuid4 <$> seq (uuid_draws w)
                             (length (flat_map Flat.edge_dicts groups))
          /\ Flat.planned_keys conversations
             = Some (Flat.nd_id <$> flat_map Flat.group_nodes groups)
          /\ frame (length (flat_map Flat.edge_dicts groups)) w w'
    | Raise e =>
        e = KeyError /\ Flat.planned_keys conversations = None
        /\ exists d, frame d w w'
    end.
Proof.
  induction conversations as [|conv rest IH]; intros i nodes edges w w' r H.
  - inversion H; subst. exists []. rewrite !app_nil_r.
    repeat split; try constructor; try reflexivity; simpl; lia.
  - cbn [Flat.conversation_loop Flat.planned_keys] in H |- *.
    destruct (Flat.conv_uuid conv) as [conv_id|] eqn:Hid.
    2:{ inversion H; subst. repeat split. exists 0. apply frame_refl. }
    bind_cases H created w1 Hts;
      apply parse_timestamp_inv in Hts as (m1 & k1 & Hr & ->);
      [| discriminate].
    bind_cases H updated w2 Hts;
      apply parse_timestamp_inv in Hts as (m2 & k2 & Hr2 & ->);
      [| discriminate].
    bind_cases H built w3 Hmsgs; apply message_loop_inv in Hmsgs.
    2:{ destruct Hmsgs as (-> & Hkeys & d & Hframe). rewrite Hkeys.
        repeat split. exists d.
        destruct Hframe as (A1 & A2 & A3 & A4 & A5). simpl in *.
        unfold frame. repeat split; assumption. }
    destruct built as [nodes1 edges1].
    destruct Hmsgs as (ns & es & -> & -> & Hns & Hes & Hids & Hkeys & Hframe).
    rewrite Hkeys. cbn [fst snd] in H.
    apply IH in H.
    destruct Hframe as (A1 & A2 & A3 & A4 & A5).
    cbn [uuid_draws conn disk sql_log stdout tick] in *.
    destruct r as [[nodes' edges']|err].
    + destruct H as (groups & Hgroups & -> & -> & Hids' & Hkeys' & Hframe').
      rewrite Hkeys'.
      eexists (Flat.Group
                 (Flat.NodeDict conv_id "context" _ None _ _ _ _ 3 None
                    (Z.of_nat (Flat.count_human
                                 (default [] (Flat.conv_chat_messages conv)))))
                 ns es :: groups).
      cbn [flat_map Flat.group_nodes Flat.conv_dict Flat.message_dicts
           Flat.edge_dicts].
      split; [constructor; [| exact Hgroups] |].
      { unfold Flat.group_of, Flat.human_messages. simpl.
        repeat split; assumption. }
      rewrite <- !app_assoc. split; [reflexivity |]. split; [reflexivity |].
      split.
      { rewrite length_app, fmap_app, seq_app, fmap_app, Hids.
        f_equal. rewrite Hids', A5. reflexivity. }
      split.
      { unfold Flat.group_nodes.
        cbn [Flat.conv_dict Flat.message_dicts app].
        now rewrite fmap_cons, fmap_app. }
      destruct Hframe' as (B1 & B2 & B3 & B4 & B5).
      unfold frame. rewrite length_app.
      repeat split; try congruence. lia.
    + destruct H as (-> & Hkeys' & d & Hframe'). rewrite Hkeys'.
      repeat split. exists (length es + d).
      destruct Hframe' as (B1 & B2 & B3 & B4 & B5).
      unfold frame. repeat split; try congruence. lia.
Qed.

(** The first [executemany] succeeds exactly on fresh and pairwise
    distinct keys, and then adds the rows of all the dicts. *)
Lemma executemany_insert_node :
  forall ds (w w' : world Flat.database) r,
    Flat.executemany Flat.insert_node ds w = (r, w') ->
    disk w' = disk w /\ Flat.edges (conn w') = Flat.edges (conn w)
    /\ exists inserted,
        sql_log w' = sql_log w
                     ++ ((fun d => SqlInsert "nodes" (Flat.nd_id d)) <$> inserted)
        /\ match r with
           | Ok _ =>
               inserted = ds
               /\ NoDup (Flat.nd_id <$> ds)
               /\ Forall (fun d => Flat.nodes (conn w) !! Flat.nd_id d = None) ds
               /\ Flat.nodes (conn w')
                  = list_to_map (Flat.node_entries ds) ∪ Flat.nodes (conn w)
           | Raise e =>
               ~ (NoDup (Flat.nd_id <$> ds)
                  /\ Forall (fun d => Flat.nodes (conn w) !! Flat.nd_id d = None)
                            ds)
           end.
Proof.
  induction ds as [|d ds IH]; intros w w' r H.
  - inversion H; subst. repeat split. exists []. rewrite app_nil_r.
    repeat split; try constructor.
    simpl. now rewrite (left_id_L ∅ (∪)).
  - cbn [Flat.executemany] in H.
    bind_cases H u w1 Hins.
    + unfold Flat.insert_node in Hins.
      destruct (Flat.nodes (conn w) !! Flat.nd_id d) eqn:Hfree;
        [discriminate |].
      inversion Hins; subst u w1; clear Hins.
      apply IH in H as (Hdisk & Hedges & inserted & Hlog & Hr).
      cbn [conn disk sql_log Flat.nodes Flat.edges] in *.
      split; [exact Hdisk |]. split; [exact Hedges |].
      exists (d :: inserted).
      split; [rewrite Hlog, <- app_assoc; reflexivity |].
      destruct r as [[]|err].
      * destruct Hr as (-> & Hnodup & Hfresh & Hnodes).
        assert (Hnotin : Flat.nd_id d ∉ Flat.nd_id <$> ds).
        { intros Hin. apply list_elem_of_fmap in Hin as (d' & Heq & Hin).
          rewrite Forall_forall in Hfresh.
          apply Hfresh in Hin.
          rewrite <- Heq, lookup_insert_eq in Hin. discriminate. }
        split; [reflexivity |].
        split; [constructor; [exact Hnotin | exact Hnodup] |].
        split.
        { constructor; [exact Hfree |].
          eapply Forall_impl; [exact Hfresh |]. intros d' Hd'. simpl in Hd'.
          apply lookup_insert_None in Hd'. apply Hd'. }
        rewrite Hnodes. simpl.
        rewrite <- insert_union_l. rewrite <- insert_union_r; [reflexivity |].
        apply not_elem_of_list_to_map_1.
        unfold Flat.node_entries. rewrite <- list_fmap_compose. exact Hnotin.
      * intros [Hnodup Hfresh]. apply Hr.
        inversion Hnodup as [|? ? Hnotin Hnodup']; subst.
        inversion Hfresh as [|? ? _ Hfresh']; subst.
        split; [exact Hnodup' |].
        rewrite Forall_forall in Hfresh'. apply Forall_forall.
        intros d' Hd'. rewrite lookup_insert_ne; [now apply Hfresh' |].
        intros Heq. apply Hnotin. rewrite Heq.
        apply list_elem_of_fmap. now exists d'.
    + unfold Flat.insert_node in Hins.
      destruct (Flat.nodes (conn w) !! Flat.nd_id d) eqn:Hfree;
        [| discriminate].
      inversion Hins; subst. repeat split. exists []. rewrite app_nil_r.
      split; [reflexivity |]. intros [_ Hfresh].
      inversion Hfresh; subst. congruence.
Qed.
(** The same for the second [executemany]. *)
Lemma executemany_insert_edge :
  forall ds (w w' : world Flat.database) r,
    Flat.executemany Flat.insert_edge ds w = (r, w') ->
    disk w' = disk w /\ Flat.nodes (conn w') = Flat.nodes (conn w)
    /\ exists inserted,
        sql_log w' = sql_log w
                     ++ ((fun d => SqlInsert "edges" (Flat.ed_id d)) <$> inserted)
        /\ match r with
           | Ok _ =>
               inserted = ds
               /\ NoDup (Flat.ed_id <$> ds)
               /\ Forall (fun d => Flat.edges (conn w) !! Flat.ed_id d = None) ds
               /\ Flat.edges (conn w')
                  = list_to_map (Flat.edge_entries ds) ∪ Flat.edges (conn w)
           | Raise e =>
               ~ (NoDup (Flat.ed_id <$> ds)
                  /\ Forall (fun d => Flat.edges (conn w) !! Flat.ed_id d = None)
                            ds)
           end.
Proof.
  induction ds as [|d ds IH]; intros w w' r H.
  - inversion H; subst. repeat split. exists []. rewrite app_nil_r.
    repeat split; try constructor.
    simpl. now rewrite (left_id_L ∅ (∪)).
  - cbn [Flat.executemany] in H.
    bind_cases H u w1 Hins.
    + unfold Flat.insert_edge in Hins.
      destruct (Flat.edges (conn w) !! Flat.ed_id d) eqn:Hfree;
        [discriminate |].
      inversion Hins; subst u w1; clear Hins.
      apply IH in H as (Hdisk & Hedges & inserted & Hlog & Hr).
      cbn [conn disk sql_log Flat.edges Flat.nodes] in *.
      split; [exact Hdisk |]. split; [exact Hedges |].
      exists (d :: inserted).
      split; [rewrite Hlog, <- app_assoc; reflexivity |].
      destruct r as [[]|err].
      * destruct Hr as (-> & Hnodup & Hfresh & Hnodes).
        assert (Hnotin : Flat.ed_id d ∉ Flat.ed_id <$> ds).
        { intros Hin. apply list_elem_of_fmap in Hin as (d' & Heq & Hin).
          rewrite Forall_forall in Hfresh.
          apply Hfresh in Hin.
          rewrite <- Heq, lookup_insert_eq in Hin. discriminate. }
        split; [reflexivity |].
        split; [constructor; [exact Hnotin | exact Hnodup] |].
        split.
        { constructor; [exact Hfree |].
          eapply Forall_impl; [exact Hfresh |]. intros d' Hd'. simpl in Hd'.
          apply lookup_insert_None in Hd'. apply Hd'. }
        rewrite Hnodes. simpl.
        rewrite <- insert_union_l. rewrite <- insert_union_r; [reflexivity |].
        apply not_elem_of_list_to_map_1.
        unfold Flat.edge_entries. rewrite <- list_fmap_compose. exact Hnotin.
      * intros [Hnodup Hfresh]. apply Hr.
        inversion Hnodup as [|? ? Hnotin Hnodup']; subst.
        inversion Hfresh as [|? ? _ Hfresh']; subst.
        split; [exact Hnodup' |].
        rewrite Forall_forall in Hfresh'. apply Forall_forall.
        intros d' Hd'. rewrite lookup_insert_ne; [now apply Hfresh' |].
        intros Heq. apply Hnotin. rewrite Heq.
        apply list_elem_of_fmap. now exists d'.
    + unfold Flat.insert_edge in Hins.
      destruct (Flat.edges (conn w) !! Flat.ed_id d) eqn:Hfree;
        [| discriminate].
      inversion Hins; subst. repeat split. exists []. rewrite app_nil_r.
      split; [reflexivity |]. intros [_ Hfresh].
      inversion Hfresh; subst. congruence.
Qed.

(** What an import does, as a whole: its log, and either the two tables
    rebuilt from the dicts of the input or the reason of its failure. *)
Lemma import_conversations_inv conversations (w w' : world Flat.database) r :
  import_conversations conversations w = (r, w') ->
  exists ks es tail,
    sql_log w'
    = sql_log w ++ [SqlDelete "edges"; SqlDelete "nodes"]
      ++ (SqlInsert "nodes" <$> ks) ++ (SqlInsert "edges" <$> es) ++ tail
    /\ match r with
       | Ok (n, e) =>
           exists groups,
             Forall2 Flat.group_of conversations groups
             /\ n = length (flat_map Flat.group_nodes groups)
             /\ e = length (flat_map Flat.edge_dicts groups)
             /\ NoDup (Flat.nd_id <$> flat_map Flat.group_nodes groups)
             /\ NoDup (Flat.ed_id <$> flat_map Flat.edge_dicts groups)
             /\ Flat.nodes (conn w')
                = list_to_map (Flat.node_entries (flat_map Flat.group_nodes groups))
             /\ Flat.edges (conn w')
                = list_to_map (Flat.edge_entries (flat_map Flat.edge_dicts groups))
             /\ disk w' = conn w'
             /\ ks = Flat.nd_id <$> flat_map Flat.group_nodes groups
             /\ es = Flat.ed_id <$> flat_map Flat.edge_dicts groups
             /\ tail = [SqlCommit]
             /\ Flat.planned_keys conversations
                = Some (Flat.nd_id <$> flat_map Flat.group_nodes groups)
       | Raise e =>
           disk w' = disk w /\ tail = []
           /\ (Flat.planned_keys conversations = None
               \/ (exists keys, Flat.planned_keys conversations = Some keys
                                /\ ~ NoDup keys)
               \/ (exists m, ~ NoDup (uuid4 <$> seq (uuid_draws w) m)))
       end.
Proof.
  unfold Flat.import_conversations. intros H.
  bind_cases H u w1 Hdel; [| discriminate].
  inversion Hdel; subst u w1; clear Hdel.
  bind_cases H u w1 Hdel; [| discriminate].
  inversion Hdel; subst u w1; clear Hdel.
  cbn [conn disk sql_log Flat.nodes Flat.edges] in H.
  bind_cases H built w1 Hbuild; apply conversation_loop_inv in Hbuild.
  2:{ destruct Hbuild as (-> & Hkeys & d & A1 & A2 & A3 & A4 & A5).
      cbn [conn disk sql_log] in *.
      exists [], [], []. split.
      - rewrite A3, <- app_assoc, !fmap_nil, !app_nil_r. reflexivity.
      - repeat split; [exact A2 | now left]. }
  destruct built as [nds eds].
  destruct Hbuild as (groups & Hgroups & Hnds & Heds & Hids & Hkeys & Hframe).
  rewrite app_nil_l in Hnds, Heds. subst nds eds.
  destruct Hframe as (A1 & A2 & A3 & A4 & A5).
  cbn [conn disk sql_log uuid_draws fst snd] in *.
  bind_cases H u w2 Hnodes; apply executemany_insert_node in Hnodes
    as (B1 & B2 & inserted & B3 & Hnodes).
  2:{ exists (Flat.nd_id <$> inserted), [], []. split.
      - rewrite B3, A3, <- !app_assoc, <- list_fmap_compose.
        rewrite fmap_nil, !app_nil_r. reflexivity.
      - split; [congruence |]. split; [reflexivity |]. right. left.
        eexists. split; [exact Hkeys |]. intros Hnodup. apply Hnodes.
        split; [exact Hnodup |]. apply Forall_forall. intros d _.
        rewrite A1. apply lookup_empty. }
  destruct Hnodes as (-> & Hnodup & _ & Htable).
  rewrite A1 in Htable, B2. cbn [Flat.nodes Flat.edges] in Htable, B2.
  rewrite (right_id_L ∅ (∪)) in Htable.
  bind_cases H u' w3 Hedges; apply executemany_insert_edge in Hedges
    as (C1 & C2 & inserted & C3 & Hedges).
  2:{ exists (Flat.nd_id <$> flat_map Flat.group_nodes groups),
             (Flat.ed_id <$> inserted), []. split.
      - rewrite C3, B3, A3, <- !app_assoc, <- !list_fmap_compose, app_nil_r.
        reflexivity.
      - split; [congruence |]. split; [reflexivity |]. right. right.
        eexists. intros Hnd. apply Hedges. rewrite Hids.
        split; [exact Hnd |]. apply Forall_forall. intros d _.
        rewrite B2. apply lookup_empty. }
  destruct Hedges as (-> & Hnodup' & _ & Htable').
  rewrite B2 in Htable'. rewrite (right_id_L ∅ (∪)) in Htable'.
  bind_cases H u'' w4 Hcommit; [| discriminate].
  inversion Hcommit; subst u'' w4; clear Hcommit.
  inversion H; subst r w'; clear H. cbn [conn disk sql_log].
  exists (Flat.nd_id <$> flat_map Flat.group_nodes groups),
         (Flat.ed_id <$> flat_map Flat.edge_dicts groups), [SqlCommit].
  split.
  - rewrite C3, B3, A3, <- !app_assoc, <- !list_fmap_compose. reflexivity.
  - exists groups. rewrite C2. repeat split; assumption.
Qed.

Lemma node_entries_keys (ds : list Flat.node_dict) :
  (Flat.node_entries ds).*1 = Flat.nd_id <$> ds.
Proof. unfold Flat.node_entries. now rewrite <- list_fmap_compose. Qed.

Lemma edge_entries_keys (ds : list Flat.edge_dict) :
  (Flat.edge_entries ds).*1 = Flat.ed_id <$> ds.
Proof. unfold Flat.edge_entries. now rewrite <- list_fmap_compose. Qed.

Lemma lookup_node_entries (ds : list Flat.node_dict) d :
  NoDup (Flat.nd_id <$> ds) -> d ∈ ds ->
  (list_to_map (Flat.node_entries ds) : gmap string Flat.node) !! Flat.nd_id d
  = Some (Flat.node_row d).
Proof.
  intros Hnodup Hd. apply elem_of_list_to_map.
  - now rewrite node_entries_keys.
  - unfold Flat.node_entries. apply list_elem_of_fmap. now exists d.
Qed.

Lemma lookup_edge_entries_inv (ds : list Flat.edge_dict) k row :
  NoDup (Flat.ed_id <$> ds) ->
  (list_to_map (Flat.edge_entries ds) : gmap string Flat.edge) !! k = Some row ->
  exists d, d ∈ ds /\ k = Flat.ed_id d /\ row = Flat.edge_row d.
Proof.
  intros Hnodup H. apply elem_of_list_to_map in H;
    [| now rewrite edge_entries_keys].
  unfold Flat.edge_entries in H. apply list_elem_of_fmap in H as (d & Heq & Hd).
  inversion Heq; subst. now exists d.
Qed.

Lemma elem_of_flat_map {A B} (f : A -> list B) (l : list A) (y : B) :
  y ∈ flat_map f l <-> exists x, x ∈ l /\ y ∈ f x.
Proof.
  rewrite list_elem_of_In, in_flat_map. split; intros (x & H1 & H2); exists x.
  - now rewrite !list_elem_of_In.
  - now rewrite <- !list_elem_of_In.
Qed.

Lemma group_of_member conversations groups g :
  Forall2 Flat.group_of conversations groups -> g ∈ groups ->
  exists conv, conv ∈ conversations /\ Flat.group_of conv g.
Proof.
  intros HF Hg. apply list_elem_of_lookup in Hg as (i & Hi).
  destruct (Forall2_lookup_r _ _ _ _ _ HF Hi) as (conv & Hconv & Hgroup).
  exists conv. split; [| exact Hgroup].
  apply list_elem_of_lookup. now exists i.
Qed.

(** C8: after an import that returns, every row of the [edges] table has
    the type ['contains'], its source is the key of a conversation row and
    its target the key of a message row of that conversation, both in the
    [nodes] table; the statements of the run are the two deletions, then
    the inserts of every node of the table, then the inserts of every
    edge, then the commit. *)
Theorem import_edges_join_inserted_nodes
  conversations (w w' : world Flat.database) n e :
  import_conversations conversations w = (Ok (n, e), w') ->
  (forall id row,
      Flat.edges (conn w') !! id = Some row ->
      Flat.edge_type row = "contains"
      /\ exists crow mrow,
          Flat.nodes (conn w') !! Flat.edge_source_id row = Some crow
          /\ Flat.node_type crow = "context"
          /\ Flat.node_level crow = 3%Z
          /\ Flat.nodes (conn w') !! Flat.edge_target_id row = Some mrow
          /\ Flat.node_type mrow = "thought"
          /\ Flat.node_level mrow = 4%Z
          /\ Flat.node_parent_id mrow = Some (Flat.edge_source_id row))
  /\ exists ks es,
      sql_log w'
      = sql_log w ++ [SqlDelete "edges"; SqlDelete "nodes"]
        ++ (SqlInsert "nodes" <$> ks) ++ (SqlInsert "edges" <$> es)
        ++ [SqlCommit]
      /\ (forall k, is_Some (Flat.nodes (conn w') !! k) -> k ∈ ks)
      /\ (forall k, is_Some (Flat.edges (conn w') !! k) -> k ∈ es).
Proof.
  intros H. apply import_conversations_inv in H
    as (ks & es & tail & Hlog & groups & Hgroups & _ & _ & Hnd & Hed
        & Hnodes & Hedges & _ & -> & -> & -> & _).
  split.
  - intros id row Hrow. rewrite Hedges in Hrow.
    apply lookup_edge_entries_inv in Hrow as (d & Hd & -> & ->);
      [| exact Hed].
    apply elem_of_flat_map in Hd as (g & Hg & Hd).
    destruct (group_of_member _ _ _ Hgroups Hg)
      as (conv & _ & Hid & Htype & Hlevel & Hparent & _ & Hmsgs & Hes).
    apply list_elem_of_lookup in Hd as (j & Hj).
    destruct (Forall2_lookup_r _ _ _ _ _ Hes Hj)
      as (msg & Hmsg & Htarget & Hsource & Hcontains & _).
    destruct (Forall2_lookup_l _ _ _ _ _ Hmsgs Hmsg)
      as (md & Hmd & Hmid & Hmtype & Hmlevel & Hmparent & _).
    cbn [Flat.edge_row Flat.edge_type Flat.edge_source_id Flat.edge_target_id].
    split; [exact Hcontains |].
    exists (Flat.node_row (Flat.conv_dict g)), (Flat.node_row md).
    rewrite Hnodes, Hsource.
    assert (Hcn : Flat.conv_dict g ∈ flat_map Flat.group_nodes groups).
    { apply elem_of_flat_map. exists g. split; [exact Hg |].
      unfold Flat.group_nodes. apply list_elem_of_here. }
    assert (Hmn : md ∈ flat_map Flat.group_nodes groups).
    { apply elem_of_flat_map. exists g. split; [exact Hg |].
      unfold Flat.group_nodes. apply list_elem_of_further.
      apply list_elem_of_lookup. now exists j. }
    assert (Heq : Flat.ed_target_id d = Flat.nd_id md) by congruence.
    rewrite Heq, !lookup_node_entries by assumption.
    cbn [Flat.node_row Flat.node_type Flat.node_level Flat.node_parent_id].
    repeat split; assumption.
  - eexists _, _. split; [exact Hlog |]. split.
    + intros k [row Hrow]. rewrite Hnodes in Hrow.
      apply elem_of_list_to_map_2 in Hrow.
      rewrite <- node_entries_keys. apply list_elem_of_fmap.
      now exists (k, row).
    + intros k [row Hrow]. rewrite Hedges in Hrow.
      apply elem_of_list_to_map_2 in Hrow.
      rewrite <- edge_entries_keys. apply list_elem_of_fmap.
      now exists (k, row).
Qed.

Lemma size_filter_list_to_map {A} (P : string * A -> Prop)
  `{!forall x, Decision (P x)} (l : list (string * A)) :
  NoDup l.*1 ->
  size (filter P (list_to_map l : gmap string A)) = length (filter P l).
Proof.
  intros Hnodup. rewrite map_filter_alt, map_size_list_to_map.
  - apply Permutation_length. now rewrite map_to_list_to_map.
  - eapply sublist_NoDup;
      [| apply fmap_sublist, sublist_filter]. apply NoDup_fst_map_to_list.
Qed.

Lemma filter_node_entries u (ds : list Flat.node_dict) :
  length (filter (fun kv : string * Flat.node =>
                    Flat.node_parent_id kv.2 = Some u) (Flat.node_entries ds))
  = length (filter (fun d => Flat.nd_parent_id d = Some u) ds).
Proof.
  induction ds as [|d ds IH]; [reflexivity |].
  unfold Flat.node_entries in *. rewrite fmap_cons, !filter_cons. simpl.
  destruct (decide (Flat.nd_parent_id d = Some u)); simpl; now rewrite IH.
Qed.

Lemma filter_message_dicts u msgs ns :
  Forall2 (Flat.message_dict u) msgs ns ->
  filter (fun d => Flat.nd_parent_id d = Some u) ns = ns.
Proof.
  induction 1 as [|msg d msgs ns Hd _ IH]; [reflexivity |].
  rewrite filter_cons, IH.
  destruct Hd as (_ & _ & _ & Hparent & _).
  now destruct (decide _).
Qed.

Lemma filter_other_message_dicts u v msgs ns :
  Forall2 (Flat.message_dict v) msgs ns -> u <> v ->
  filter (fun d => Flat.nd_parent_id d = Some u) ns = [].
Proof.
  intros HF Hne. induction HF as [|msg d msgs ns Hd _ IH]; [reflexivity |].
  rewrite filter_cons, IH.
  destruct Hd as (_ & _ & _ & Hparent & _).
  destruct (decide _) as [Heq|]; [| reflexivity].
  rewrite Hparent in Heq. congruence.
Qed.

Lemma filter_other_groups u conversations groups :
  Forall2 Flat.group_of conversations groups ->
  u ∉ Flat.nd_id <$> flat_map Flat.group_nodes groups ->
  filter (fun d => Flat.nd_parent_id d = Some u)
         (flat_map Flat.group_nodes groups) = [].
Proof.
  induction 1 as [|conv g convs gs Hg _ IH]; intros Hnotin; [reflexivity |].
  cbn [flat_map] in *.
  change (Flat.group_nodes g)
    with (Flat.conv_dict g :: Flat.message_dicts g) in *.
  rewrite <- app_comm_cons, fmap_cons in Hnotin.
  apply not_elem_of_cons in Hnotin as [Hne Hnotin].
  rewrite fmap_app in Hnotin. apply not_elem_of_app in Hnotin as [_ Hnotin].
  rewrite <- app_comm_cons, filter_cons, filter_app, IH by exact Hnotin.
  destruct Hg as (_ & _ & _ & Hparent & _ & Hmsgs & _).
  rewrite (filter_other_message_dicts _ _ _ _ Hmsgs Hne), Hparent.
  now destruct (decide _).
Qed.

(** C7: after an import that returns, the row of every conversation of
    the input carries as [child_count] the number of its messages whose
    sender is ['human'], and that is the number of rows of the [nodes]
    table whose [parent_id] is the conversation. *)
Theorem import_child_count_is_human_count
  conversations (w w' : world Flat.database) n e conv :
  import_conversations conversations w = (Ok (n, e), w') ->
  conv ∈ conversations ->
  exists u crow,
    Flat.conv_uuid conv = Some u
    /\ Flat.nodes (conn w') !! u = Some crow
    /\ Flat.node_child_count crow
       = Z.of_nat (Flat.count_human
                     (default [] (Flat.conv_chat_messages conv)))
    /\ size (filter (fun kv : string * Flat.node =>
                       Flat.node_parent_id kv.2 = Some u)
                    (Flat.nodes (conn w')))
       = Flat.count_human (default [] (Flat.conv_chat_messages conv)).
Proof.
  intros H Hconv. apply import_conversations_inv in H
    as (ks & es & tail & _ & groups & Hgroups & _ & _ & Hnd & _
        & Hnodes & _).
  apply list_elem_of_split in Hconv as (l1 & l2 & ->).
  apply Forall2_app_inv_l in Hgroups as (g1 & gs & Hg1 & Hgs & ->).
  apply Forall2_cons_inv_l in Hgs as (g & g2 & Hg & Hg2 & ->).
  pose proof Hg as (Hid & _ & _ & Hparent & Hcount & Hmsgs & _).
  exists (Flat.nd_id (Flat.conv_dict g)), (Flat.node_row (Flat.conv_dict g)).
  split; [exact Hid |].
  rewrite Hnodes. split.
  { apply lookup_node_entries; [exact Hnd |].
    rewrite flat_map_app. apply elem_of_app. right.
    cbn [flat_map].
    change (Flat.group_nodes g)
      with (Flat.conv_dict g :: Flat.message_dicts g).
    apply list_elem_of_here. }
  split; [exact Hcount |].
  rewrite size_filter_list_to_map by (now rewrite node_entries_keys).
  rewrite filter_node_entries.
  rewrite flat_map_app in Hnd |- *. cbn [flat_map] in Hnd |- *.
  change (Flat.group_nodes g)
    with (Flat.conv_dict g :: Flat.message_dicts g) in *.
  rewrite fmap_app, <- !app_comm_cons, fmap_cons, fmap_app in Hnd.
  apply NoDup_app in Hnd as (_ & Hleft & Hnd).
  apply NoDup_cons in Hnd as (Hhere & Hnd).
  apply not_elem_of_app in Hhere as [_ Hright].
  rewrite filter_app, <- !app_comm_cons, filter_cons, filter_app.
  rewrite (filter_other_groups _ _ _ Hg1), (filter_other_groups _ _ _ Hg2 Hright).
  2:{ intros Hin. eapply Hleft; [exact Hin |]. apply list_elem_of_here. }
  rewrite Hparent, (filter_message_dicts _ _ _ Hmsgs).
  destruct (decide _); [discriminate |].
  rewrite app_nil_r. simpl.
  apply Forall2_length in Hmsgs. rewrite <- Hmsgs. reflexivity.
Qed.

Lemma group_edge_count conversations groups :
  Forall2 Flat.group_of conversations groups ->
  length (flat_map Flat.edge_dicts groups)
  = length (flat_map Flat.human_messages conversations).
Proof.
  induction 1 as [|conv g convs gs Hg _ IH]; [reflexivity |].
  cbn [flat_map]. rewrite !length_app, IH. f_equal.
  destruct Hg as (_ & _ & _ & _ & _ & _ & Hes).
  symmetry. exact (Forall2_length _ _ _ Hes).
Qed.

Hypothesis uuid4_inj : Inj eq eq uuid4.

(** Two imports of the same input in a row: both return the same counts
    and leave as many rows, or both fail and leave the file as it was. *)
Lemma import_conversations_twice conversations
  (w w1 w2 : world Flat.database) r1 r2 :
  import_conversations conversations w = (r1, w1) ->
  import_conversations conversations w1 = (r2, w2) ->
  match r1 with
  | Ok (n, e) =>
      r2 = Ok (n, e)
      /\ Flat.row_counts (conn w1) = (n, e)
      /\ Flat.row_counts (disk w1) = (n, e)
      /\ Flat.row_counts (conn w2) = (n, e)
      /\ Flat.row_counts (disk w2) = (n, e)
  | Raise _ => disk w1 = disk w /\ disk w2 = disk w
  end.
Proof.
  intros H1 H2.
  apply import_conversations_inv in H1 as (ks1 & es1 & tail1 & _ & H1).
  apply import_conversations_inv in H2 as (ks2 & es2 & tail2 & _ & H2).
  assert (Hseq : forall u m, NoDup (uuid4 <$> seq u m)).
  { intros u m. apply NoDup_fmap_2; [exact uuid4_inj | apply NoDup_seq]. }
  assert (Hcounts : forall (w' : world Flat.database) groups,
             NoDup (Flat.nd_id <$> flat_map Flat.group_nodes groups) ->
             NoDup (Flat.ed_id <$> flat_map Flat.edge_dicts groups) ->
             Flat.nodes (conn w')
             = list_to_map (Flat.node_entries (flat_map Flat.group_nodes groups)) ->
             Flat.edges (conn w')
             = list_to_map (Flat.edge_entries (flat_map Flat.edge_dicts groups)) ->
             Flat.row_counts (conn w')
             = (length (flat_map Flat.group_nodes groups),
                length (flat_map Flat.edge_dicts groups))).
  { intros w' groups Hnd Hed Hn He. unfold Flat.row_counts.
    rewrite Hn, He, !map_size_list_to_map
      by (now rewrite ?node_entries_keys, ?edge_entries_keys).
    unfold Flat.node_entries, Flat.edge_entries. now rewrite !length_fmap. }
  destruct r1 as [[n1 e1]|err1].
  - destruct H1 as (groups1 & Hg1 & -> & -> & Hnd1 & Hed1 & Hn1 & He1
                    & Hdisk1 & _ & _ & _ & Hkeys1).
    destruct r2 as [[n2 e2]|err2].
    + destruct H2 as (groups2 & Hg2 & -> & -> & Hnd2 & Hed2 & Hn2 & He2
                      & Hdisk2 & _ & _ & _ & Hkeys2).
      assert (Hlen : length (flat_map Flat.group_nodes groups2)
                     = length (flat_map Flat.group_nodes groups1)).
      { rewrite Hkeys1 in Hkeys2. inversion Hkeys2 as [Heq].
        apply (f_equal length) in Heq. now rewrite !length_fmap in Heq. }
      rewrite Hlen, (group_edge_count _ _ Hg2), <- (group_edge_count _ _ Hg1).
      split; [reflexivity |].
      rewrite Hdisk1, Hdisk2.
      rewrite (Hcounts w1 groups1), (Hcounts w2 groups2) by assumption.
      rewrite Hlen, (group_edge_count _ _ Hg2), <- (group_edge_count _ _ Hg1).
      repeat split.
    + exfalso. destruct H2 as (_ & _ & [Hnone | [(keys & Hk & Hdup) | (m & Hdup)]]).
      * congruence.
      * rewrite Hkeys1 in Hk. inversion Hk; subst. now apply Hdup.
      * now apply Hdup.
  - destruct H1 as (Hdisk1 & _ & Hwhy1).
    destruct r2 as [[n2 e2]|err2].
    + exfalso.
      destruct H2 as (groups2 & Hg2 & _ & _ & Hnd2 & _ & _ & _ & _ & _ & _
                      & _ & Hkeys2).
      destruct Hwhy1 as [Hnone | [(keys & Hk & Hdup) | (m & Hdup)]].
      * congruence.
      * rewrite Hkeys2 in Hk. inversion Hk; subst. now apply Hdup.
      * now apply Hdup.
    + destruct H2 as (Hdisk2 & _). split; congruence.
Qed.

(** C6: [import_conversations] runs its two deletions before any insert,
    so that after an import that returns the tables hold rows of that
    import only; and, uuids being pairwise distinct, a second import of
    the same input leaves the database file with the row counts the first
    one left: when the first import returns [(n, e)], so does the second,
    and both leave [n] rows in [nodes] and [e] rows in [edges]. *)
Theorem import_twice_same_row_counts conversations (w : world Flat.database) :
  let run1 := import_conversations conversations w in
  let run2 := import_conversations conversations run1.2 in
  (exists ks es tail,
      sql_log run1.2
      = sql_log w ++ [SqlDelete "edges"; SqlDelete "nodes"]
        ++ (SqlInsert "nodes" <$> ks) ++ (SqlInsert "edges" <$> es) ++ tail
      /\ (tail = [] \/ tail = [SqlCommit])
      /\ (forall n e,
            run1.1 = Ok (n, e) ->
            (forall k, is_Some (Flat.nodes (conn run1.2) !! k) -> k ∈ ks)
            /\ (forall k, is_Some (Flat.edges (conn run1.2) !! k) -> k ∈ es)))
  /\ Flat.row_counts (disk run2.2) = Flat.row_counts (disk run1.2)
  /\ (forall n e,
        run1.1 = Ok (n, e) ->
        run2.1 = Ok (n, e)
        /\ Flat.row_counts (conn run1.2) = (n, e)
        /\ Flat.row_counts (disk run1.2) = (n, e)
        /\ Flat.row_counts (conn run2.2) = (n, e)).
Proof.
  intros run1 run2. subst run1 run2.
  destruct (import_conversations conversations w) as [r1 w1] eqn:H1.
  cbn [fst snd].
  destruct (import_conversations conversations w1) as [r2 w2] eqn:H2.
  cbn [fst snd].
  pose proof (import_conversations_twice _ _ _ _ _ _ H1 H2) as H.
  split; [| split].
  - apply import_conversations_inv in H1 as (ks & es & tail & Hlog & Hr).
    exists ks, es, tail. split; [exact Hlog |].
    destruct r1 as [[n e]|err].
    + destruct Hr as (groups & _ & _ & _ & _ & _ & Hnodes & Hedges & _
                      & -> & -> & -> & _).
      split; [now right |]. intros _ _ _. split.
      * intros k [row Hrow]. rewrite Hnodes in Hrow.
        apply elem_of_list_to_map_2 in Hrow.
        rewrite <- node_entries_keys. apply list_elem_of_fmap.
        now exists (k, row).
      * intros k [row Hrow]. rewrite Hedges in Hrow.
        apply elem_of_list_to_map_2 in Hrow.
        rewrite <- edge_entries_keys. apply list_elem_of_fmap.
        now exists (k, row).
    + split; [left; apply Hr | discriminate].
  - destruct r1 as [[n e]|err].
    + destruct H as (_ & _ & Hd1 & _ & Hd2). congruence.
    + destruct H as [Hd1 Hd2]. congruence.
  - intros n e ->. destruct H as (Hr2 & Hc1 & Hd1 & Hc2 & _). auto.
Qed.

End FlatFacts.

Lemma import_twice_same_row_counts_witness :
  let run1 :=
    Flat.import_conversations sample_parse sample_clock sample_uuid4
                              [sample_flat_conversation] sample_flat_world in
  let run2 :=
    Flat.import_conversations sample_parse sample_clock sample_uuid4
                              [sample_flat_conversation] run1.2 in
  Flat.row_counts (disk run2.2) = Flat.row_counts (disk run1.2)
  /\ Flat.row_counts (disk run1.2) = (3, 2).
Proof.
  intros run1 run2. split.
  - exact (proj1 (proj2 (import_twice_same_row_counts
                           sample_parse sample_clock sample_uuid4
                           pretty_nat_inj
                           [sample_flat_conversation] sample_flat_world))).
  - vm_compute. reflexivity.
Defined.

Lemma import_child_count_is_human_count_witness :
  let w' :=
    (Flat.import_conversations sample_parse sample_clock sample_uuid4
                               [sample_flat_conversation]
                               sample_flat_world).2 in
  exists u crow,
    Flat.conv_uuid sample_flat_conversation = Some u
    /\ Flat.nodes (conn w') !! u = Some crow
    /\ Flat.node_child_count crow
       = Z.of_nat (Flat.count_human
                     (default [] (Flat.conv_chat_messages
                                    sample_flat_conversation)))
    /\ size (filter (fun kv : string * Flat.node =>
                       Flat.node_parent_id kv.2 = Some u)
                    (Flat.nodes (conn w')))
       = Flat.count_human
           (default [] (Flat.conv_chat_messages sample_flat_conversation)).
Proof.
  apply (import_child_count_is_human_count
           sample_parse sample_clock sample_uuid4
           [sample_flat_conversation] sample_flat_world _ 3 2).
  - vm_compute. reflexivity.
  - apply list_elem_of_here.
Defined.

Lemma import_edges_join_inserted_nodes_witness :
  let w' :=
    (Flat.import_conversations sample_parse sample_clock sample_uuid4
                               [sample_flat_conversation]
                               sample_flat_world).2 in
  exists row,
    Flat.edges (conn w') !! "0" = Some row
    /\ Flat.edge_type row = "contains"
    /\ exists crow mrow,
        Flat.nodes (conn w') !! Flat.edge_source_id row = Some crow
        /\ Flat.node_type crow = "context"
        /\ Flat.node_level crow = 3%Z
        /\ Flat.nodes (conn w') !! Flat.edge_target_id row = Some mrow
        /\ Flat.node_type mrow = "thought"
        /\ Flat.node_level mrow = 4%Z
        /\ Flat.node_parent_id mrow = Some (Flat.edge_source_id row).
Proof.
  intros w'. eexists. split; [vm_compute; reflexivity |].
  apply (proj1 (import_edges_join_inserted_nodes
                  sample_parse sample_clock sample_uuid4
                  [sample_flat_conversation] sample_flat_world w' 3 2
                  ltac:(vm_compute; reflexivity)) "0").
  vm_compute. reflexivity.
Defined.

(** * Further properties *)

(** ** Further properties of [pair_messages] and [create_exchange_title] *)

Section PairingMore.

Context (iso_to_millis : string -> option Z) (wall_clock : nat -> Z).
Context {DB : Type}.

Abbreviation exchange_step :=
  (Pairing.exchange_step (DB := DB) iso_to_millis wall_clock).
Abbreviation pair_loop :=
  (Pairing.pair_loop (DB := DB) iso_to_millis wall_clock).
Abbreviation pair_messages :=
  (Pairing.pair_messages (DB := DB) iso_to_millis wall_clock).

Lemma human_eqb (msg : Pairing.message) :
  String.eqb (default "" (Pairing.msg_sender msg)) "human"
  = has_role "human" msg.
Proof.
  unfold has_role. destruct (Pairing.msg_sender msg) as [s|]; simpl.
  - destruct (String.eqb s "human") eqn:E.
    + apply String.eqb_eq in E. subst. symmetry. now apply bool_decide_eq_true_2.
    + symmetry. apply bool_decide_eq_false_2. intros [= ->].
      now rewrite String.eqb_refl in E.
  - reflexivity.
Qed.

Lemma sender_at_head (messages : list Pairing.message) (i : nat) role :
  Pairing.sender_at messages i role
  = from_option (has_role role) false (head (drop i messages)).
Proof.
  unfold Pairing.sender_at.
  rewrite head_lookup, lookup_drop, Nat.add_0_r.
  now destruct (messages !! i).
Qed.

(** Where a round of the loop leaves the cursor: on the next message when
    the message under it is a human one and the next an assistant one,
    and in place otherwise. *)
Lemma exchange_step_cursor (messages : list Pairing.message) (i : nat)
  (w w' : world DB) ex i' :
  exchange_step messages i w = (Ok (ex, i'), w') ->
  exists msg,
    messages !! i = Some msg
    /\ i' = if has_role "human" msg
               && Pairing.sender_at messages (i + 1) "assistant"
            then i + 1 else i.
Proof.
  unfold Pairing.exchange_step.
  destruct (messages !! i) as [msg|] eqn:Hmsg; [| discriminate].
  intros H. exists msg. split; [reflexivity |].
  apply bind_inv_ok in H as (text & w1 & _ & H).
  rewrite human_eqb in H. destruct (has_role "human" msg); simpl.
  - apply bind_inv_ok in H as (millis & w2 & _ & H).
    destruct (i + 1 <? length messages) eqn:E; simpl in H.
    + destruct (Pairing.sender_at messages (i + 1) "assistant");
        now inversion H.
    + inversion H; subst.
      unfold Pairing.sender_at. apply Nat.ltb_ge in E.
      now rewrite lookup_ge_None_2 by lia.
  - apply bind_inv_ok in H as (millis & w2 & _ & H). now inversion H.
Qed.

Lemma pair_loop_exact (messages : list Pairing.message) :
  forall fuel i acc (w w' : world DB) exs,
    length messages - i <= fuel ->
    pair_loop fuel messages i acc w = (Ok exs, w') ->
    length exs + answered (drop i messages)
    = length acc + (length messages - i).
Proof.
  induction fuel as [|fuel IH]; intros i acc w w' exs Hfuel H.
  - inversion H; subst. rewrite drop_ge by lia. simpl. lia.
  - simpl in H. destruct (i <? length messages) eqn:E.
    + apply Nat.ltb_lt in E.
      apply bind_inv_ok in H as ([ex i'] & w1 & Hstep & H). simpl in H.
      apply exchange_step_cursor in Hstep as (msg & Hmsg & Hi').
      rewrite (drop_S _ _ _ Hmsg). cbn [answered].
      rewrite <- sender_at_head.
      replace (i + 1) with (S i) in Hi' by lia.
      destruct (has_role "human" msg
                && Pairing.sender_at messages (S i) "assistant")
        eqn:Hpair; subst i'.
      * apply andb_true_iff in Hpair as [_ Hnext].
        apply IH in H; [| lia]. rewrite length_app in H. simpl in H.
        unfold Pairing.sender_at in Hnext.
        destruct (messages !! S i) as [a|] eqn:Ha; [| discriminate].
        apply bool_decide_eq_true_1 in Hnext.
        rewrite (drop_S _ _ _ Ha). cbn [answered].
        assert (Hnot : has_role "human" a = false).
        { apply bool_decide_eq_false_2. rewrite Hnext. intros [=]. }
        rewrite Hnot. simpl.
        apply lookup_lt_Some in Ha. lia.
      * apply IH in H; [| lia]. rewrite length_app in H. simpl in H. lia.
    + inversion H; subst. apply Nat.ltb_ge in E.
      rewrite drop_ge by lia. simpl. lia.
Qed.

(** X1: [pair_messages] returns one exchange for every message except
    the assistant messages that directly follow a human message, which are
    folded into the exchange of that human message. *)
Theorem pair_messages_exact_count
  (messages : list Pairing.message) (w w' : world DB) exs :
  pair_messages messages w = (Ok exs, w') ->
  length exs + answered messages = length messages.
Proof.
  intros H. apply pair_loop_exact in H; [| lia].
  rewrite drop_0, Nat.sub_0_r in H. exact H.
Qed.

Lemma message_text_raise (msg : Pairing.message) e :
  Pairing.message_text msg = Raise e -> e = IndexError /\ unreadable msg.
Proof.
  unfold Pairing.message_text, unreadable.
  destruct (truthy (default "" (Pairing.msg_text msg))); [discriminate |].
  destruct (Pairing.msg_content msg) as [[|first rest]|]; simpl.
  - intros [= <-]. auto.
  - destruct (truthy _); discriminate.
  - discriminate.
Qed.


Lemma exchange_step_raise_kind (messages : list Pairing.message) (i : nat)
  (w w' : world DB) e :
  i < length messages ->
  exchange_step messages i w = (Raise e, w') ->
  e = IndexError /\ exists msg, messages !! i = Some msg /\ unreadable msg.
Proof.
  intros Hi. unfold Pairing.exchange_step.
  destruct (messages !! i) as [msg|] eqn:Hmsg.
  2:{ apply lookup_ge_None in Hmsg. lia. }
  intros H. apply bind_inv in H as [(text & w1 & Htext & H) | (e' & H & He)].
  - exfalso. unfold lift in Htext. inversion Htext; subst w1; clear Htext.
    destruct (String.eqb _ "human").
    + apply bind_inv in H as [(millis & w1 & Hts & H) | (e' & H & _)].
      * destruct ((i + 1 <? length messages) && _); discriminate.
      * apply parse_timestamp_inv in H as (? & ? & ? & _). discriminate.
    + apply bind_inv in H as [(millis & w1 & Hts & H) | (e' & H & _)].
      * discriminate.
      * apply parse_timestamp_inv in H as (? & ? & ? & _). discriminate.
  - unfold lift in H. inversion H as [[Htext Hw]]. inversion He; subst e'.
    apply message_text_raise in Htext as [-> Hbad]. eauto.
Qed.

Lemma pair_loop_raise (messages : list Pairing.message) :
  forall fuel i acc (w w' : world DB) e,
    pair_loop fuel messages i acc w = (Raise e, w') ->
    e = IndexError /\ exists msg, msg ∈ messages /\ unreadable msg.
Proof.
  induction fuel as [|fuel IH]; intros i acc w w' e H; [discriminate |].
  simpl in H. destruct (i <? length messages) eqn:E; [| discriminate].
  apply Nat.ltb_lt in E.
  apply bind_inv in H as [([ex i'] & w1 & Hs & H) | (e' & Hs & [= ->])].
  - eapply IH, H.
  - apply exchange_step_raise_kind in Hs as (-> & msg & Hmsg & Hbad);
      [| exact E].
    split; [reflexivity |]. exists msg. split; [| exact Hbad].
    apply list_elem_of_lookup. now exists i.
Qed.



Lemma exchange_step_orphan (messages : list Pairing.message) (i : nat)
  (w w' : world DB) ex i' msg :
  messages !! i = Some msg -> has_role "human" msg = false ->
  exchange_step messages i w = (Ok (ex, i'), w') ->
  i' = i /\ orphan_exchange msg ex.
Proof.
  intros Hmsg Hrole. unfold Pairing.exchange_step. rewrite Hmsg.
  intros H. apply bind_inv_ok in H as (text & w1 & Htext & H).
  unfold lift in Htext. inversion Htext as [[Hr Hw]]; subst w1.
  rewrite human_eqb, Hrole in H.
  apply bind_inv_ok in H as (millis & w1 & _ & H). inversion H; subst.
  split; [reflexivity |]. exists text. auto.
Qed.

Lemma pair_loop_orphans (messages : list Pairing.message) :
  Forall (fun msg => has_role "human" msg = false) messages ->
  forall fuel i acc (w w' : world DB) exs,
    length messages - i <= fuel ->
    pair_loop fuel messages i acc w = (Ok exs, w') ->
    exists rest,
      exs = acc ++ rest /\ Forall2 orphan_exchange (drop i messages) rest.
Proof.
  intros Hall. induction fuel as [|fuel IH]; intros i acc w w' exs Hfuel H.
  - inversion H; subst. exists []. rewrite app_nil_r, drop_ge by lia.
    split; [reflexivity | constructor].
  - simpl in H. destruct (i <? length messages) eqn:E.
    + apply Nat.ltb_lt, lookup_lt_is_Some in E as [msg Hmsg].
      apply bind_inv_ok in H as ([ex i'] & w1 & Hstep & H). simpl in H.
      assert (Hrole : has_role "human" msg = false).
      { rewrite Forall_forall in Hall. apply Hall.
        apply list_elem_of_lookup. now exists i. }
      destruct (exchange_step_orphan _ _ _ _ _ _ _ Hmsg Hrole Hstep)
        as [-> Hex].
      apply IH in H as (rest & -> & Hrest);
        [| apply lookup_lt_Some in Hmsg; lia].
      exists (ex :: rest). rewrite <- app_assoc. split; [reflexivity |].
      rewrite (drop_S _ _ _ Hmsg). now constructor.
    + inversion H; subst. apply Nat.ltb_ge in E.
      exists []. rewrite app_nil_r, drop_ge by lia.
      split; [reflexivity | constructor].
Qed.

(** X4: over a list without a human message [pair_messages] gives one
    exchange per message, in the order of the messages: its content is
    the text of the message after ["Assistant: "], and its title is made
    from the first 100 characters of the text, or from ['Response'] when
    the text is empty. *)
Theorem pair_messages_without_human
  (messages : list Pairing.message) (w w' : world DB) exs :
  Forall (fun msg => has_role "human" msg = false) messages ->
  pair_messages messages w = (Ok exs, w') ->
  Forall2 orphan_exchange messages exs.
Proof.
  intros Hall H.
  apply (pair_loop_orphans _ Hall) in H as (rest & -> & Hrest); [| lia].
  now rewrite drop_0 in Hrest.
Qed.

(** X5: when the texts are not in the ['text'] key but in the first
    block of the ['content'] list, a human message followed by an
    assistant message gives the same single exchange: lines 35 and 45 to
    50 fall back on that block, whatever blocks follow it. *)
Theorem pair_messages_reads_content_blocks
  (Q A : string) (more more' : list Pairing.block) (tq ta : option string)
  (w : world DB) :
  exists ex w',
    pair_messages
      [Pairing.Message (Some "human") None
                       (Some (Pairing.Block (Some Q) :: more)) tq;
       Pairing.Message (Some "assistant") None
                       (Some (Pairing.Block (Some A) :: more')) ta] w
    = (Ok [ex], w')
    /\ Pairing.content ex
       = "Human: " +:+ Q +:+ nl +:+ nl +:+ "Assistant: " +:+ A
    /\ Pairing.title ex = Pairing.create_exchange_title Q.
Proof.
  destruct (parse_timestamp_total iso_to_millis wall_clock (default "" tq) w)
    as (millis & k & Hk).
  unfold Pairing.pair_messages. simpl.
  unfold Pairing.exchange_step. simpl.
  assert (Htext : Pairing.message_text
                    (Pairing.Message (Some "human") None
                       (Some (Pairing.Block (Some Q) :: more)) tq) = Ok Q)
    by now destruct Q.
  rewrite Htext. unfold bind, lift. rewrite Hk. simpl.
  eexists _, _. split; [reflexivity |]. simpl. split; reflexivity.
Qed.

End PairingMore.

Lemma pair_messages_exact_count_witness :
  exists exs : list Pairing.exchange,
    length exs + answered sample_messages = length sample_messages.
Proof.
  eexists.
  eapply (pair_messages_exact_count sample_parse sample_clock
            sample_messages (World 0 0 [] [] tt tt)).
  reflexivity.
Defined.



Lemma pair_messages_without_human_witness :
  exists exs, Forall2 orphan_exchange sample_orphans exs.
Proof.
  eexists.
  eapply (pair_messages_without_human sample_parse sample_clock
            sample_orphans (World 0 0 [] [] tt tt)).
  - repeat constructor.
  - reflexivity.
Defined.

(** ** Titles *)

Lemma string_app_assoc (s t u : string) : (s +:+ t) +:+ u = s +:+ (t +:+ u).
Proof.
  induction s as [|c s IH]; [reflexivity |].
  now rewrite !string_app_cons, IH.
Qed.

Lemma occurs_app (c : ascii) (s t : string) :
  occurs c (s +:+ t) <-> occurs c s \/ occurs c t.
Proof.
  unfold occurs. induction s as [|d s IH]; simpl.
  - tauto.
  - rewrite IH. tauto.
Qed.

Lemma occurs_slice_to (c : ascii) (n : nat) (s : string) :
  occurs c (slice_to n s) -> occurs c s.
Proof.
  unfold occurs. revert s. induction n as [|n IH]; intros [|d s]; simpl;
    try tauto.
  intros [H | H]; [now left | right; now apply IH].
Qed.

Lemma spec_first_line_no_newline (s : string) :
  ~ occurs newline (Pairing.spec_first_line s).
Proof.
  unfold occurs. induction s as [|c s IH]; simpl; [tauto |].
  destruct (Ascii.eqb c newline) eqn:E; simpl; [tauto |].
  intros [H | H]; [| now apply IH].
  subst c. now rewrite Ascii.eqb_refl in E.
Qed.

Lemma strip_head (s : string) c r :
  strip s = String c r -> is_space c = false.
Proof.
  unfold strip. intros H.
  destruct (rstrip_prefix (lstrip s)) as (post & Hpost & _).
  rewrite H in Hpost. rewrite string_app_cons in Hpost.
  eapply lstrip_no_leading_space, Hpost.
Qed.

(** X6: a title is at most 63 characters long, holds no line break and
    does not start with white space, whatever text it is made from. *)
Theorem create_exchange_title_bounds (text : string) :
  String.length (Pairing.create_exchange_title text) <= 63
  /\ ~ occurs newline (Pairing.create_exchange_title text)
  /\ match Pairing.create_exchange_title text with
     | EmptyString => True
     | String c _ => is_space c = false
     end.
Proof.
  pose proof (create_exchange_title_stripped text) as (Hshort & Hlong & _).
  cbv zeta in Hshort, Hlong.
  pose proof (spec_first_line_no_newline (strip text)) as Hnl.
  assert (Hhead : match Pairing.spec_first_line (strip text) with
                  | EmptyString => True
                  | String c _ => is_space c = false
                  end).
  { destruct (strip text) as [|c r] eqn:E; simpl; [exact I |].
    apply strip_head in E.
    destruct (Ascii.eqb c newline) eqn:Ec; [exact I | exact E]. }
  destruct (le_lt_dec (String.length (Pairing.spec_first_line (strip text))) 60)
    as [Hle | Hgt].
  - rewrite (Hshort Hle). split; [lia |]. split; assumption.
  - destruct (Hlong Hgt) as [-> Hlen]. split; [lia |]. split.
    + rewrite occurs_app. intros [H | H].
      * apply occurs_slice_to in H. contradiction.
      * unfold occurs in H. simpl in H.
        destruct H as [H | [H | [H | []]]]; discriminate.
    + destruct (Pairing.spec_first_line (strip text)) as [|c r];
        [simpl in Hgt; lia | exact Hhead].
Qed.

(** X7: the title is empty exactly for a text that is empty once
    stripped, that is, for a text of white space only. *)
Theorem create_exchange_title_empty_iff_blank (text : string) :
  Pairing.create_exchange_title text = "" <-> strip text = "".
Proof.
  pose proof (create_exchange_title_stripped text) as (Hshort & Hlong & _).
  cbv zeta in Hshort, Hlong. split.
  - intros Hempty.
    destruct (le_lt_dec (String.length (Pairing.spec_first_line (strip text))) 60)
      as [Hle | Hgt].
    + rewrite (Hshort Hle) in Hempty.
      destruct (strip text) as [|c r] eqn:E; [reflexivity |].
      apply strip_head in E. simpl in Hempty.
      destruct (Ascii.eqb c newline) eqn:Ec; [| discriminate].
      apply Ascii.eqb_eq in Ec. subst c. discriminate.
    + destruct (Hlong Hgt) as [_ Hlen]. rewrite Hempty in Hlen. discriminate.
  - intros Hblank. rewrite Hshort; rewrite Hblank; simpl; [reflexivity | lia].
Qed.

Section PairingClock.

Context (iso_to_millis : string -> option Z) (wall_clock : nat -> Z).
Context {DB : Type}.

Lemma parse_timestamp_parsed (ts : string) (w w' : world DB) r :
  is_Some (iso_to_millis (replace_char "Z"%char "+00:00" ts)) ->
  parse_timestamp iso_to_millis wall_clock ts w = (r, w') -> w' = w.
Proof.
  unfold parse_timestamp. intros [millis ->] H. now inversion H.
Qed.

Lemma exchange_step_parsed (messages : list Pairing.message) (i : nat)
  (w w' : world DB) r :
  Forall (dated iso_to_millis) messages ->
  Pairing.exchange_step iso_to_millis wall_clock messages i w = (r, w') ->
  w' = w.
Proof.
  intros Hall. unfold Pairing.exchange_step.
  destruct (messages !! i) as [msg|] eqn:Hmsg; [| intros H; now inversion H].
  assert (Hdated : dated iso_to_millis msg).
  { rewrite Forall_forall in Hall. apply Hall.
    apply list_elem_of_lookup. now exists i. }
  intros H. bind_cases H text w1 Htext.
  2:{ unfold lift in Htext. now inversion Htext. }
  unfold lift in Htext. inversion Htext; subst w1; clear Htext.
  destruct (String.eqb _ "human").
  - bind_cases H millis w1 Hts;
      apply (parse_timestamp_parsed _ _ _ _ Hdated) in Hts as ->;
      [| reflexivity].
    destruct ((i + 1 <? length messages) && _); now inversion H.
  - bind_cases H millis w1 Hts;
      apply (parse_timestamp_parsed _ _ _ _ Hdated) in Hts as ->;
      [| reflexivity].
    now inversion H.
Qed.

Lemma pair_loop_parsed (messages : list Pairing.message) :
  Forall (dated iso_to_millis) messages ->
  forall fuel i acc (w w' : world DB) r,
    Pairing.pair_loop iso_to_millis wall_clock fuel messages i acc w = (r, w') ->
    w' = w.
Proof.
  intros Hall. induction fuel as [|fuel IH]; intros i acc w w' r H.
  - now inversion H.
  - simpl in H. destruct (i <? length messages); [| now inversion H].
    bind_cases H step w1 Hs;
      apply (exchange_step_parsed _ _ _ _ _ Hall) in Hs as ->;
      [| reflexivity].
    eapply IH, H.
Qed.

(** X8: [pair_messages] reads the clock for unparsable timestamps only:
    over messages whose ['created_at'] all parse it leaves the state as it
    found it, whether it returns or raises. *)
Theorem pair_messages_pure_on_parsed_timestamps
  (messages : list Pairing.message) (w w' : world DB) r :
  Forall (dated iso_to_millis) messages ->
  Pairing.pair_messages iso_to_millis wall_clock messages w = (r, w') ->
  w' = w.
Proof. intros Hall. apply pair_loop_parsed, Hall. Qed.

End PairingClock.

Lemma pair_messages_pure_on_parsed_timestamps_witness :
  (Pairing.pair_messages sample_parse_all sample_clock sample_messages
                         (World 0 0 [] [] tt tt)).2
  = World 0 0 [] [] tt tt.
Proof.
  eapply (pair_messages_pure_on_parsed_timestamps
            sample_parse_all sample_clock sample_messages
            (World 0 0 [] [] tt tt)).
  - repeat constructor; eexists; reflexivity.
  - apply surjective_pairing.
Defined.

Lemma replace_char_app (c : ascii) (by_ s t : string) :
  replace_char c by_ (s +:+ t)
  = replace_char c by_ s +:+ replace_char c by_ t.
Proof.
  induction s as [|d s IH]; [reflexivity |].
  rewrite string_app_cons. cbn [replace_char].
  destruct (Ascii.eqb d c).
  - now rewrite IH, string_app_assoc.
  - now rewrite IH, string_app_cons.
Qed.

(** X9: [parse_timestamp] treats a timestamp that ends in ['Z'] as the
    same timestamp ending in ['+00:00']: both give the same number of
    milliseconds, or both fall back on the clock. *)
Theorem parse_timestamp_utc_suffix
  (iso_to_millis : string -> option Z) (wall_clock : nat -> Z) {DB : Type}
  (ts : string) (w : world DB) :
  parse_timestamp iso_to_millis wall_clock (ts +:+ "Z") w
  = parse_timestamp iso_to_millis wall_clock (ts +:+ "+00:00") w.
Proof.
  unfold parse_timestamp. now rewrite !replace_char_app.
Qed.

(** ** Further properties of the pairing importer's [main] *)

Section PairingMainMore.

Context (iso_to_millis : string -> option Z) (wall_clock : nat -> Z).
Context (uuid4 : nat -> string) (db_path : string).
Context (shuffle : list Pairing.conversation -> list Pairing.conversation).

Abbreviation database := (gmap string Pairing.node).
Abbreviation main :=
  (Pairing.main iso_to_millis wall_clock uuid4 db_path shuffle).
Abbreviation import_loop := (Pairing.import_loop iso_to_millis wall_clock uuid4).

Lemma counters_eta (c : Pairing.counters) :
  Pairing.Counters (Pairing.conversations_imported c)
                   (Pairing.exchanges_imported c + 0) (Pairing.skipped c) = c.
Proof. destruct c. simpl. now rewrite Nat.add_0_r. Qed.

(** The inner loop of [main]: it writes to the connection only, keeps
    the rows it finds, adds rows linked to [conv_id], and when it
    returns it has stored every exchange under its key. *)
Lemma insert_exchanges_inv conv_id at_ n :
  forall exchanges idx c (w w' : world database) r,
    Pairing.insert_exchanges conv_id at_ n idx exchanges c w = (r, w') ->
    disk w' = disk w /\ stdout w' = stdout w
    /\ (forall k row, conn w !! k = Some row -> conn w' !! k = Some row)
    /\ (forall k row, conn w !! k = None -> conn w' !! k = Some row ->
          Pairing.node_conversation_id row = Some conv_id)
    /\ match r with
       | Ok c' =>
           c' = Pairing.Counters
                  (Pairing.conversations_imported c)
                  (Pairing.exchanges_imported c + length exchanges)
                  (Pairing.skipped c)
           /\ size (conn w') = size (conn w) + length exchanges
           /\ forall j ex,
               exchanges !! j = Some ex ->
               exists row,
                 conn w' !! (conv_id +:+ "-ex-" +:+ pretty (idx + j)) = Some row
                 /\ Pairing.node_conversation_id row = Some conv_id
                 /\ Pairing.node_sequence_index row = Some (Z.of_nat (idx + j))
                 /\ Pairing.node_title row = Pairing.title ex
                 /\ Pairing.node_content row = Some (Pairing.content ex)
                 /\ Pairing.node_created_at row = Pairing.created_at ex
       | Raise e => e = IntegrityError
       end.
Proof.
  induction exchanges as [|ex rest IH]; intros idx c w w' r H.
  - inversion H; subst. repeat split; try tauto.
    + intros k row Hnone Hsome. congruence.
    + simpl. now rewrite counters_eta.
    + simpl. lia.
    + intros j ex' Hj. now rewrite lookup_nil in Hj.
  - cbn [Pairing.insert_exchanges] in H.
    apply bind_inv in H as [(u & w1 & Hins & H) | (e & Hins & ->)].
    + apply insert_node_inv in Hins
        as [(? & _) | (_ & Hfree & Hconn & Hdisk & Hout)]; [discriminate |].
      unfold Pairing.limit_reached, Pairing.MAX_EXCHANGES in H.
      apply IH in H as (Hd & Hs & Hkeep & Hnew & Hr). clear IH.
      split; [congruence |]. split; [congruence |].
      assert (Hkeep' : forall k row,
                 conn w !! k = Some row -> conn w' !! k = Some row).
      { intros k row Hk. apply Hkeep. rewrite Hconn.
        rewrite lookup_insert_ne; [exact Hk | congruence]. }
      split; [exact Hkeep' |]. split.
      * intros k row Hnone Hsome.
        destruct (decide (k = conv_id +:+ "-ex-" +:+ pretty idx)) as [-> | Hne].
        -- assert (Hrow : conn w1 !! (conv_id +:+ "-ex-" +:+ pretty idx)
                          = Some row).
           { destruct (conn w1 !! (conv_id +:+ "-ex-" +:+ pretty idx))
               as [row'|] eqn:E.
             - apply Hkeep in E. congruence.
             - rewrite Hconn, lookup_insert_eq in E. discriminate. }
           rewrite Hconn, lookup_insert_eq in Hrow.
           now inversion Hrow.
        -- eapply Hnew; [| exact Hsome].
           rewrite Hconn, lookup_insert_ne; [exact Hnone | congruence].
      * destruct r as [c'|e]; [| exact Hr].
        destruct Hr as (-> & Hsize & Hrows). cbn [Pairing.conversations_imported
          Pairing.exchanges_imported Pairing.skipped length].
        split; [f_equal; lia |]. split.
        -- rewrite Hsize, Hconn, map_size_insert_None by exact Hfree. lia.
        -- intros [|j] ex' Hj.
           ++ inversion Hj; subst ex'. rewrite Nat.add_0_r.
              eexists. split.
              ** apply Hkeep. rewrite Hconn. apply lookup_insert_eq.
              ** repeat split; reflexivity.
           ++ replace (idx + S j) with (S idx + j) by lia.
              apply Hrows. exact Hj.
    + apply insert_node_inv in Hins as [([= ->] & -> & _) | (? & _)];
        [| discriminate].
      repeat split; try tauto. intros k row Hnone Hsome. congruence.
Qed.

Lemma frame_draw_tick k (w : world database) :
  frame 1 w (tick k (World (clock_reads w) (S (uuid_draws w)) (stdout w)
                           (sql_log w) (conn w) (disk w))).
Proof. repeat split; simpl; lia. Qed.

(** One round of the outer loop of [main]: the conversation is skipped,
    or [pair_messages] fails on it, or its container row is inserted and
    its exchanges after it, with a commit behind every 50th index. *)
Lemma import_loop_cons n i conv rest c (w w' : world database) r :
  import_loop n i (conv :: rest) c w = (r, w') ->
  let conv_id := default (uuid4 (uuid_draws w)) (Pairing.conv_uuid conv) in
  let messages := default [] (Pairing.conv_chat_messages conv) in
  (is_Some (conn w !! conv_id)
   /\ exists w1,
       frame 1 w w1
       /\ import_loop n (S i) rest
            (Pairing.Counters (Pairing.conversations_imported c)
                              (Pairing.exchanges_imported c)
                              (Pairing.skipped c + 1)) w1
          = (r, w'))
  \/ (conn w !! conv_id = None
      /\ ((r = Raise IndexError /\ frame 1 w w')
          \/ exists exchanges row (w2 w2' w3 w4 : world database) r1,
              Pairing.pair_messages iso_to_millis wall_clock messages w2
              = (Ok exchanges, w2')
              /\ Pairing.container_row row
              /\ Pairing.node_child_count row = Z.of_nat (length exchanges)
              /\ conn w3 = <[conv_id := row]> (conn w)
              /\ disk w3 = disk w /\ stdout w3 = stdout w
              /\ Pairing.insert_exchanges conv_id
                   (OnCircle Origin 300 i (max n 1)) (length exchanges) 0
                   exchanges
                   (Pairing.Counters (Pairing.conversations_imported c + 1)
                                     (Pairing.exchanges_imported c)
                                     (Pairing.skipped c)) w3
                 = (r1, w4)
              /\ match r1 with
                 | Raise e => r = Raise e /\ w' = w4
                 | Ok c1 =>
                     exists w5,
                       conn w5 = conn w4
                       /\ ((disk w5 = disk w4 /\ stdout w5 = stdout w4)
                           \/ ((i + 1) mod 50 = 0 /\ disk w5 = conn w4
                               /\ exists line, stdout w5 = stdout w4 ++ [line]))
                       /\ import_loop n (S i) rest c1 w5 = (r, w')
                 end)).
Proof.
  intros H conv_id messages.
  cbn [Pairing.import_loop] in H.
  bind_cases H drawn w1 Hdraw; [| discriminate].
  inversion Hdraw; subst drawn w1; clear Hdraw.
  fold conv_id in H.
  bind_cases H found w1 Hq; [| discriminate].
  inversion Hq; subst found w1; clear Hq. cbn [conn] in H.
  destruct (Pairing.node_exists conv_id (conn w)) eqn:Hexists.
  { left. split.
    - unfold Pairing.node_exists in Hexists.
      now apply bool_decide_eq_true_1 in Hexists.
    - eexists. split; [| exact H].
      pose proof (frame_draw_tick 0 w) as Hf. now rewrite tick_0 in Hf. }
  right.
  assert (Hfree : conn w !! conv_id = None).
  { unfold Pairing.node_exists in Hexists.
    apply bool_decide_eq_false_1 in Hexists.
    destruct (conn w !! conv_id); [exfalso; eauto | reflexivity]. }
  split; [exact Hfree |].
  bind_cases H created w1 Hts;
    apply parse_timestamp_inv in Hts as (m & k & Hr & ->);
    [| discriminate].
  bind_cases H updated w2 Hts.
  2:{ destruct (truthy _); [| discriminate].
      apply parse_timestamp_inv in Hts as (? & ? & ? & _). discriminate. }
  assert (Hw2 : exists k2, w2 = tick k2
                  (World (clock_reads w) (S (uuid_draws w)) (stdout w)
                         (sql_log w) (conn w) (disk w))).
  { destruct (truthy _).
    - apply parse_timestamp_inv in Hts as (? & k' & _ & ->).
      exists (k' + k). apply tick_tick.
    - inversion Hts. now exists k. }
  destruct Hw2 as (k2 & ->). clear Hts.
  fold messages in H.
  bind_cases H exchanges w3 Hpair.
  2:{ left. pose proof Hpair as Hkind.
      apply pair_loop_raise in Hkind as [-> _].
      apply pair_messages_tick in Hpair as (k3 & ->).
      split; [reflexivity |]. rewrite tick_tick. apply frame_draw_tick. }
  right. pose proof Hpair as Htick.
  apply pair_messages_tick in Htick as (k3 & ->). rewrite tick_tick in H.
  bind_cases H u w4 Hins.
  2:{ apply insert_node_inv in Hins as [(_ & _ & Hsome) | (? & _)];
        [| discriminate].
      cbn [conn tick] in Hsome. rewrite Hfree in Hsome. now destruct Hsome. }
  apply insert_node_inv in Hins
    as [(? & _) | (_ & _ & Hc4 & Hd4 & Hs4)]; [discriminate |].
  cbn [conn disk stdout tick] in Hc4, Hd4, Hs4.
  destruct (Pairing.insert_exchanges conv_id (OnCircle Origin 300 i (max n 1))
              (length exchanges) 0 exchanges
              (Pairing.Counters (Pairing.conversations_imported c + 1)
                                (Pairing.exchanges_imported c)
                                (Pairing.skipped c)) w4)
    as [r1 w5] eqn:Hex.
  eexists exchanges, _, _, _, w4, w5, r1.
  split; [exact Hpair |].
  split; [| split; [| split; [exact Hc4 | split; [exact Hd4 |
    split; [exact Hs4 | split; [exact Hex |]]]]]].
  { now split. }
  { reflexivity. }
  unfold bind at 1 in H. rewrite Hex in H.
  destruct r1 as [c1|e]; [| now inversion H].
  bind_cases H u' w6 Hcommit.
  2:{ destruct ((i + 1) mod 50 =? 0); discriminate. }
  unfold Pairing.limit_reached, Pairing.MAX_EXCHANGES in H.
  exists w6. split; [| split; [| exact H]].
  - destruct ((i + 1) mod 50 =? 0); inversion Hcommit; reflexivity.
  - destruct ((i + 1) mod 50 =? 0) eqn:E.
    + right. apply Nat.eqb_eq in E. split; [exact E |].
      inversion Hcommit. cbn [conn disk stdout]. eauto.
    + left. inversion Hcommit; subst. auto.
Qed.

(** What the outer loop reports and what it stores: every conversation
    is counted as imported or as skipped, and the table grows by one row
    per imported conversation and per imported exchange. *)
Lemma import_loop_counts n :
  forall conversations i c (w w' : world database) c',
    import_loop n i conversations c w = (Ok c', w') ->
    Pairing.conversations_imported c' + Pairing.skipped c'
    = Pairing.conversations_imported c + Pairing.skipped c
      + length conversations
    /\ size (conn w') + Pairing.conversations_imported c
       + Pairing.exchanges_imported c
       = size (conn w) + Pairing.conversations_imported c'
         + Pairing.exchanges_imported c'
    /\ exists lines, stdout w' = stdout w ++ lines.
Proof.
  induction conversations as [|conv rest IH]; intros i c w w' c' H.
  - inversion H; subst. cbn [length]. split; [lia |]. split; [lia |].
    exists []. now rewrite app_nil_r.
  - apply import_loop_cons in H
      as [(_ & w1 & Hf & H)
         | (Hfree & [(? & _)
                    | (exchanges & row & w2 & w2' & w3 & w4 & r1 & _ & _ & _
                       & Hc3 & _ & Hs3 & Hex & Hr1)])].
    + apply IH in H as (H1 & H2 & lines & H3).
      destruct Hf as (Hc & _ & _ & Hs & _).
      cbn [Pairing.conversations_imported Pairing.exchanges_imported
           Pairing.skipped length] in *.
      rewrite Hc in H2. rewrite Hs in H3.
      split; [lia |]. split; [lia |]. eauto.
    + discriminate.
    + apply insert_exchanges_inv in Hex as (_ & Hs4 & _ & _ & Hr).
      destruct r1 as [c1|e]; [| destruct Hr1; discriminate].
      destruct Hr as (-> & Hsize & _).
      destruct Hr1 as (w5 & Hc5 & Hcases & H).
      apply IH in H as (H1 & H2 & lines & H3).
      cbn [Pairing.conversations_imported Pairing.exchanges_imported
           Pairing.skipped length] in *.
      rewrite Hc5, Hsize, Hc3, map_size_insert_None in H2 by exact Hfree.
      split; [lia |]. split; [lia |].
      destruct Hcases as [(_ & Hs5) | (_ & _ & line & Hs5)];
        rewrite Hs5, Hs4, Hs3 in H3; [eauto |].
      exists ([line] ++ lines). now rewrite app_assoc.
Qed.


Lemma holds_conversation_mono all (db db' : database) conv_id row :
  (forall k r, db !! k = Some r -> db' !! k = Some r) ->
  holds_conversation iso_to_millis wall_clock all db conv_id row ->
  holds_conversation iso_to_millis wall_clock all db' conv_id row.
Proof.
  intros Hsub (conv & exchanges & w1 & w2 & Hin & Hid & Hpair & Hcount & Hrows).
  exists conv, exchanges, w1, w2. repeat (split; [assumption |]).
  intros idx ex Hex. destruct (Hrows idx ex Hex) as (ex_row & Hrow & Hrest).
  exists ex_row. split; [now apply Hsub | exact Hrest].
Qed.

(** The outer loop keeps the file complete: it commits only between two
    conversations, when every container row has its exchange rows. *)
Lemma import_loop_complete all before n :
  forall conversations i c (w w' : world database) r,
    import_loop n i conversations c w = (r, w') ->
    Forall (fun conv => conv ∈ all) conversations ->
    complete iso_to_millis wall_clock all before (conn w) ->
    complete iso_to_millis wall_clock all before (disk w) ->
    complete iso_to_millis wall_clock all before (disk w')
    /\ (forall c', r = Ok c' ->
        complete iso_to_millis wall_clock all before (conn w')).
Proof.
  induction conversations as [|conv rest IH];
    intros i c w w' r H Hall Hconn Hdisk.
  - inversion H; subst. auto.
  - inversion Hall as [|? ? Hin Hrest]; subst.
    apply import_loop_cons in H
      as [(_ & w1 & Hf & H)
         | (Hfree & [(-> & Hf)
                    | (exchanges & row & w2 & w2' & w3 & w4 & r1 & Hpair & Hrow
                       & Hcount & Hc3 & Hd3 & _ & Hex & Hr1)])].
    + destruct Hf as (Hc & Hd & _).
      eapply IH; [exact H | exact Hrest | now rewrite Hc | now rewrite Hd].
    + destruct Hf as (_ & Hd & _). rewrite Hd.
      split; [exact Hdisk | discriminate].
    + apply insert_exchanges_inv in Hex as (Hd4 & _ & Hkeep & Hnew & Hr).
      destruct r1 as [c1|e].
      2:{ destruct Hr1 as [-> ->]. rewrite Hd4, Hd3.
          split; [exact Hdisk | discriminate]. }
      destruct Hr as (_ & _ & Hrows).
      destruct Hr1 as (w5 & Hc5 & Hcases & H).
      set (conv_id := default (uuid4 (uuid_draws w)) (Pairing.conv_uuid conv))
        in *.
      assert (Hsub : forall k r0, conn w !! k = Some r0 -> conn w4 !! k = Some r0).
      { intros k r0 Hk. apply Hkeep. rewrite Hc3.
        rewrite lookup_insert_ne; [exact Hk | congruence]. }
      assert (Hw4 : complete iso_to_millis wall_clock all before (conn w4)).
      { intros k krow Hb Hk Hcont.
        destruct (decide (k = conv_id)) as [-> | Hne].
        - assert (Hsame : conn w4 !! conv_id = Some row).
          { apply Hkeep. rewrite Hc3. apply lookup_insert_eq. }
          rewrite Hsame in Hk. inversion Hk; subst krow.
          exists conv, exchanges, w2, w2'.
          split; [exact Hin |]. split.
          { subst conv_id. now destruct (Pairing.conv_uuid conv). }
          split; [exact Hpair |]. split; [exact Hcount |].
          intros idx ex Hidx. apply (Hrows idx ex Hidx).
        - destruct (conn w3 !! k) as [r0|] eqn:E.
          + pose proof (Hkeep _ _ E) as Hk'.
            rewrite Hk in Hk'. inversion Hk'; subst r0.
            rewrite Hc3, lookup_insert_ne in E by congruence.
            eapply holds_conversation_mono; [exact Hsub |].
            now apply Hconn.
          + apply (Hnew _ _ E) in Hk. destruct Hcont as [_ Hcont].
            congruence. }
      eapply IH; [exact H | exact Hrest | now rewrite Hc5 |].
      destruct Hcases as [(Hd5 & _) | (_ & Hd5 & _)]; rewrite Hd5.
      * now rewrite Hd4, Hd3.
      * exact Hw4.
Qed.

Lemma import_loop_all_present n (db : database) :
  forall conversations i c (w : world database),
    conn w = db ->
    Forall (present db) conversations ->
    exists w',
      import_loop n i conversations c w
      = (Ok (Pairing.Counters (Pairing.conversations_imported c)
                              (Pairing.exchanges_imported c)
                              (Pairing.skipped c + length conversations)), w')
      /\ frame (length conversations) w w'.
Proof.
  induction conversations as [|conv rest IH]; intros i c w Hdb Hall.
  - exists w. cbn [length Pairing.import_loop]. rewrite Nat.add_0_r.
    split; [now destruct c | apply frame_refl].
  - inversion Hall as [|? ? (u & Hu & Hrow) Hrest]; subst.
    cbn [Pairing.import_loop length]. unfold bind at 1. cbn [draw_uuid4].
    rewrite Hu. cbn [from_option id]. unfold bind at 1, query at 1.
    cbn [conn].
    assert (Hfound : Pairing.node_exists u (conn w) = true)
      by now apply bool_decide_eq_true_2.
    rewrite Hfound.
    edestruct (IH (S i)
                 (Pairing.Counters (Pairing.conversations_imported c)
                                   (Pairing.exchanges_imported c)
                                   (Pairing.skipped c + 1))
                 (World (clock_reads w) (S (uuid_draws w)) (stdout w)
                        (sql_log w) (conn w) (disk w)))
      as (w' & Hloop & Hf); [reflexivity | exact Hrest |].
    exists w'. rewrite Hloop.
    cbn [Pairing.conversations_imported Pairing.exchanges_imported
         Pairing.skipped].
    split; [do 3 f_equal; lia |].
    destruct Hf as (H1 & H2 & H3 & H4 & H5). cbn in H1, H2, H3, H4, H5.
    repeat split; try assumption. lia.
Qed.

(** X10: [main] sees the file only through the conversations it does not
    exclude: two files that agree on them give the same run. *)
Theorem main_ignores_excluded_conversations
  (conversations conversations' : list Pairing.conversation)
  (w : world database) :
  kept conversations = kept conversations' ->
  main conversations w = main conversations' w.
Proof.
  intros H. unfold Pairing.main.
  change (filter (fun c => Pairing.excluded c = false) conversations)
    with (kept conversations).
  change (filter (fun c => Pairing.excluded c = false) conversations')
    with (kept conversations').
  now rewrite H.
Qed.


Lemma kept_shuffled (P : Pairing.conversation -> Prop)
  (conversations : list Pairing.conversation) :
  (forall l, Permutation l (shuffle l)) ->
  Forall P conversations ->
  Forall P (shuffle (filter (fun c => Pairing.excluded c = false)
                            conversations)).
Proof.
  intros shuffle_permutes Hall.
  eapply Permutation_Forall; [apply shuffle_permutes |].
  apply filter_all, Hall.
Qed.

(** X12: over a database without linked nodes, a file whose conversations
    all have their ['uuid'] among the keys of the table is skipped as a
    whole: [main] returns, reports no import and as many skipped
    conversations as it did not exclude, and leaves the file as it was. *)
Theorem main_skips_present_conversations
  (conversations : list Pairing.conversation) (w : world database) :
  (forall l, Permutation l (shuffle l)) ->
  Pairing.count_linked (disk w) = 0 ->
  Forall (present (disk w)) conversations ->
  exists w' header,
    main conversations w = (Ok tt, w')
    /\ disk w' = disk w
    /\ conn w' = disk w
    /\ sql_log w' = sql_log w ++ [SqlCommit]
    /\ stdout w'
       = stdout w ++ header
         ++ [nl +:+ Pairing.check_mark +:+ " Import complete!";
             "  Conversations: " +:+ pretty 0;
             "  Exchanges: " +:+ pretty 0;
             "  Skipped: " +:+ pretty (length (kept conversations))].
Proof.
  intros shuffle_permutes Hzero Hall.
  destruct (main conversations w) as [r w'] eqn:H.
  unfold Pairing.main, Pairing.FILTER_MYCELICA, Pairing.MAX_EXCHANGES in H.
  do 7 (bind_cases H u w1 Hp;
        [inversion Hp; subst u w1; clear Hp | discriminate]).
  cbn [conn disk stdout] in H. rewrite Hzero in H.
  change (0 <? 0) with false in H. cbv iota in H.
  apply (kept_shuffled _ _ shuffle_permutes) in Hall.
  assert (Hlen : length (shuffle (filter (fun c => Pairing.excluded c = false)
                                         conversations))
                 = length (kept conversations))
    by (symmetry; apply Permutation_length, shuffle_permutes).
  bind_cases H c w1 Hloop;
    match type of Hloop with
    | _ ?wc = _ =>
        destruct (import_loop_all_present
                    (length (shuffle (filter (fun c => Pairing.excluded c = false)
                                             conversations)))
                    (disk w) _ 0 (Pairing.Counters 0 0 0) wc eq_refl Hall)
          as (w1' & Hloop' & Hf)
    end;
    rewrite Hloop' in Hloop; [| discriminate].
  inversion Hloop; subst c w1'; clear Hloop Hloop'.
  destruct Hf as (Hc & Hd & Hl & Hs & _). cbn [conn disk sql_log stdout] in *.
  do 5 (bind_cases H u w2 Hp;
        [inversion Hp; subst u w2; clear Hp | discriminate]).
  inversion H; subst r w'; clear H.
  eexists _, [_; _; _; _]. split; [reflexivity |].
  cbn [conn disk stdout sql_log Pairing.conversations_imported
       Pairing.exchanges_imported Pairing.skipped].
  rewrite Hc, Hl, Hs, Hlen. repeat split.
  repeat rewrite <- app_assoc. reflexivity.
Qed.

(** X13: over a database without linked nodes, the report of a run that
    returns accounts for the file and for the table: every conversation
    that is not excluded is counted as imported or as skipped, and the
    table has grown by one row per imported conversation and one per
    imported exchange. *)
Theorem main_report_counts
  (conversations : list Pairing.conversation) (w w' : world database) :
  (forall l, Permutation l (shuffle l)) ->
  Pairing.count_linked (disk w) = 0 ->
  main conversations w = (Ok tt, w') ->
  exists c lines,
    stdout w'
    = stdout w ++ lines
      ++ [nl +:+ Pairing.check_mark +:+ " Import complete!";
          "  Conversations: " +:+ pretty (Pairing.conversations_imported c);
          "  Exchanges: " +:+ pretty (Pairing.exchanges_imported c);
          "  Skipped: " +:+ pretty (Pairing.skipped c)]
    /\ Pairing.conversations_imported c + Pairing.skipped c
       = length (kept conversations)
    /\ size (disk w')
       = size (disk w) + Pairing.conversations_imported c
         + Pairing.exchanges_imported c.
Proof.
  intros shuffle_permutes Hzero.
  remember (Ok tt) as r eqn:Hr. intros H.
  unfold Pairing.main, Pairing.FILTER_MYCELICA, Pairing.MAX_EXCHANGES in H.
  do 7 (bind_cases H u w1 Hp;
        [inversion Hp; subst u w1; clear Hp | discriminate]).
  cbn [conn disk stdout] in H. rewrite Hzero in H.
  change (0 <? 0) with false in H. cbv iota in H.
  bind_cases H c w1 Hloop; [| discriminate].
  apply import_loop_counts in Hloop as (H1 & H2 & lines & H3).
  cbn [conn disk stdout length Pairing.conversations_imported
       Pairing.exchanges_imported Pairing.skipped] in H1, H2, H3.
  do 5 (bind_cases H u w2 Hp;
        [inversion Hp; subst u w2; clear Hp | discriminate]).
  inversion H; subst w'; clear H.
  eexists c, ([_; _; _; _] ++ lines). cbn [conn disk stdout]. split; [| split].
  - rewrite H3. repeat rewrite <- app_assoc. reflexivity.
  - rewrite H1, Nat.add_0_l. symmetry.
    apply Permutation_length, shuffle_permutes.
  - lia.
Qed.

Lemma complete_refl all (db : database) :
  complete iso_to_millis wall_clock all db db.
Proof. intros k row Hnone Hsome. congruence. Qed.

(** X14: whatever way a run of [main] ends, each conversation it has
    added to the file is there in full: the container row counts the
    exchanges [pair_messages] makes of the conversation, and every one of
    them has its row, under the container's key followed by ["-ex-"] and
    its index, with its title, content and timestamp. *)
Theorem main_stores_conversations_in_full
  (conversations : list Pairing.conversation) (w w' : world database) r :
  (forall l, Permutation l (shuffle l)) ->
  main conversations w = (r, w') ->
  complete iso_to_millis wall_clock conversations (disk w) (disk w').
Proof.
  intros shuffle_permutes H.
  unfold Pairing.main, Pairing.FILTER_MYCELICA, Pairing.MAX_EXCHANGES in H.
  do 7 (bind_cases H u w1 Hp;
        [inversion Hp; subst u w1; clear Hp | discriminate]).
  cbn [conn disk] in H.
  destruct (0 <? Pairing.count_linked (disk w)).
  - bind_cases H u w1 Hp; [| discriminate]. inversion Hp; subst.
    inversion H; subst. apply complete_refl.
  - assert (Hall : Forall (fun conv => conv ∈ conversations)
                     (shuffle (filter (fun c => Pairing.excluded c = false)
                                      conversations))).
    { apply kept_shuffled; [exact shuffle_permutes |].
      now apply Forall_forall. }
    bind_cases H c w1 Hloop.
    + apply import_loop_complete
        with (all := conversations) (before := disk w) in Hloop
        as [_ Hconn]; [| exact Hall | apply complete_refl..].
      do 5 (bind_cases H u w2 Hp;
            [inversion Hp; subst u w2; clear Hp | discriminate]).
      inversion H; subst. cbn [disk]. now eapply Hconn.
    + apply import_loop_complete
        with (all := conversations) (before := disk w) in Hloop
        as [Hdisk _]; [exact Hdisk | exact Hall | apply complete_refl..].
Qed.

End PairingMainMore.

Lemma main_ignores_excluded_conversations_witness :
  Pairing.main sample_parse sample_clock sample_uuid4 "mycelica.db"
               (fun l => l) [sample_excluded_conversation; sample_conversation]
               sample_empty_world
  = Pairing.main sample_parse sample_clock sample_uuid4 "mycelica.db"
                 (fun l => l) [sample_conversation] sample_empty_world.
Proof.
  apply (main_ignores_excluded_conversations
           sample_parse sample_clock sample_uuid4 "mycelica.db" (fun l => l)).
  vm_compute. reflexivity.
Defined.

Lemma main_skips_present_conversations_witness :
  exists w' header,
    Pairing.main sample_parse sample_clock sample_uuid4 "mycelica.db"
                 (fun l => l) [sample_empty_conversation] sample_unlinked_world
    = (Ok tt, w')
    /\ disk w' = disk sample_unlinked_world
    /\ conn w' = disk sample_unlinked_world
    /\ sql_log w' = sql_log sample_unlinked_world ++ [SqlCommit]
    /\ stdout w'
       = stdout sample_unlinked_world ++ header
         ++ [nl +:+ Pairing.check_mark +:+ " Import complete!";
             "  Conversations: " +:+ pretty 0;
             "  Exchanges: " +:+ pretty 0;
             "  Skipped: " +:+ pretty (length (kept [sample_empty_conversation]))].
Proof.
  apply (main_skips_present_conversations
           sample_parse sample_clock sample_uuid4 "mycelica.db" (fun l => l)).
  - intros l. reflexivity.
  - vm_compute. reflexivity.
  - repeat constructor. exists "c1". split; [reflexivity |].
    eexists. vm_compute. reflexivity.
Defined.

Lemma main_report_counts_witness :
  let w' :=
    (Pairing.main sample_parse sample_clock sample_uuid4 "mycelica.db"
                  (fun l => l) [sample_conversation; sample_empty_conversation]
                  sample_empty_world).2 in
  exists c lines,
    stdout w'
    = stdout sample_empty_world ++ lines
      ++ [nl +:+ Pairing.check_mark +:+ " Import complete!";
          "  Conversations: " +:+ pretty (Pairing.conversations_imported c);
          "  Exchanges: " +:+ pretty (Pairing.exchanges_imported c);
          "  Skipped: " +:+ pretty (Pairing.skipped c)]
    /\ Pairing.conversations_imported c + Pairing.skipped c
       = length (kept [sample_conversation; sample_empty_conversation])
    /\ size (disk w')
       = size (disk sample_empty_world) + Pairing.conversations_imported c
         + Pairing.exchanges_imported c.
Proof.
  intros w'.
  apply (main_report_counts
           sample_parse sample_clock sample_uuid4 "mycelica.db" (fun l => l)
           [sample_conversation; sample_empty_conversation]
           sample_empty_world w').
  - intros l. reflexivity.
  - vm_compute. reflexivity.
  - vm_compute. reflexivity.
Defined.


Lemma main_stores_conversations_in_full_witness :
  complete sample_parse sample_clock [sample_conversation]
    (disk sample_empty_world)
    (disk (Pairing.main sample_parse sample_clock sample_uuid4 "mycelica.db"
                        (fun l => l) [sample_conversation]
                        sample_empty_world).2).
Proof.
  eapply (main_stores_conversations_in_full
            sample_parse sample_clock sample_uuid4 "mycelica.db" (fun l => l)
            [sample_conversation] sample_empty_world).
  - intros l. reflexivity.
  - apply surjective_pairing.
Defined.

(** ** Further properties of the flat importer *)

Section FlatMore.

Context (iso_to_millis : string -> option Z) (wall_clock : nat -> Z).
Context (uuid4 : nat -> string).

Abbreviation message_loop :=
  (Flat.message_loop iso_to_millis wall_clock uuid4).
Abbreviation conversation_loop :=
  (Flat.conversation_loop iso_to_millis wall_clock uuid4).
Abbreviation import_conversations :=
  (Flat.import_conversations iso_to_millis wall_clock uuid4).




Lemma group_node_count conversations groups :
  Forall2 Flat.group_of conversations groups ->
  length (flat_map Flat.group_nodes groups)
  = length conversations
    + length (flat_map Flat.human_messages conversations).
Proof.
  induction 1 as [|conv g convs gs Hg _ IH]; [reflexivity |].
  cbn [flat_map length]. rewrite !length_app, IH.
  unfold Flat.group_nodes. cbn [length].
  destruct Hg as (_ & _ & _ & _ & _ & Hms & _).
  rewrite <- (Forall2_length _ _ _ Hms). lia.
Qed.



Lemma group_of_conversation conversations groups conv :
  Forall2 Flat.group_of conversations groups -> conv ∈ conversations ->
  exists g, g ∈ groups /\ Flat.group_of conv g.
Proof.
  intros HF Hc. apply list_elem_of_lookup in Hc as (i & Hi).
  destruct (Forall2_lookup_l _ _ _ _ _ HF Hi) as (g & Hg & Hgroup).
  exists g. split; [| exact Hgroup].
  apply list_elem_of_lookup. now exists i.
Qed.

(** X17: after an import that returns, every human message of the file
    has its row in the [nodes] table, under the message's ['uuid']: a
    ['thought'] of level 4 without children, whose parent is the
    conversation and whose content is the message's text. *)
Theorem import_stores_every_human_message
  conversations (w w' : world Flat.database) n e conv msg :
  import_conversations conversations w = (Ok (n, e), w') ->
  conv ∈ conversations -> msg ∈ Flat.human_messages conv ->
  exists u k row,
    Flat.conv_uuid conv = Some u
    /\ Flat.msg_uuid msg = Some k
    /\ Flat.nodes (conn w') !! k = Some row
    /\ Flat.node_type row = "thought"
    /\ Flat.node_level row = 4%Z
    /\ Flat.node_parent_id row = Some u
    /\ Flat.node_child_count row = 0%Z
    /\ Flat.node_content row = Flat.msg_text msg.
Proof.
  intros H Hconv Hmsg.
  apply import_conversations_inv in H as (ks & es & tail & _ & Hr).
  destruct Hr as (groups & Hgroups & _ & _ & Hnodup & _ & Hnodes & _).
  destruct (group_of_conversation _ _ _ Hgroups Hconv)
    as (g & Hg & Hid & _ & _ & _ & _ & Hmsgs & _).
  apply list_elem_of_lookup in Hmsg as (j & Hj).
  destruct (Forall2_lookup_l _ _ _ _ _ Hmsgs Hj)
    as (md & Hmd & Hmid & Hmtype & Hmlevel & Hmparent & Hmcount & Hmcontent).
  exists (Flat.nd_id (Flat.conv_dict g)), (Flat.nd_id md), (Flat.node_row md).
  split; [exact Hid |]. split; [exact Hmid |]. split.
  - rewrite Hnodes. apply lookup_node_entries; [exact Hnodup |].
    apply elem_of_flat_map. exists g. split; [exact Hg |].
    unfold Flat.group_nodes. apply list_elem_of_further.
    apply list_elem_of_lookup. now exists j.
  - cbn [Flat.node_row Flat.node_type Flat.node_level Flat.node_parent_id
         Flat.node_child_count Flat.node_content].
    repeat split; assumption.
Qed.

(** X18: after an import that returns, the keys of the [nodes] table are
    the uuids of the conversations and of their human messages, each met
    once in the file, and no other key: what the table held before is
    gone, and a message that is not a human one has no row. *)
Theorem import_node_keys
  conversations (w w' : world Flat.database) n e :
  import_conversations conversations w = (Ok (n, e), w') ->
  exists keys,
    Flat.planned_keys conversations = Some keys
    /\ NoDup keys
    /\ forall k, is_Some (Flat.nodes (conn w') !! k) <-> k ∈ keys.
Proof.
  intros H.
  apply import_conversations_inv in H as (ks & es & tail & _ & Hr).
  destruct Hr as (groups & _ & _ & _ & Hnodup & _ & Hnodes & _ & _ & _ & _ & _
                  & Hkeys).
  eexists. split; [exact Hkeys |]. split; [exact Hnodup |].
  intros k. rewrite Hnodes. split.
  - intros [row Hrow]. apply elem_of_list_to_map_2 in Hrow.
    rewrite <- node_entries_keys. apply list_elem_of_fmap.
    now exists (k, row).
  - intros Hk. apply list_elem_of_fmap in Hk as (d & -> & Hd).
    rewrite lookup_node_entries by assumption. eauto.
Qed.

Lemma truthy_nonempty (s : string) : truthy s = true -> s <> "".
Proof.
  unfold truthy. intros H ->. discriminate.
Qed.

Lemma message_title_fits (text : string) :
  let cut := slice_to 100 text in
  let cut := if 100 <? String.length text then cut +:+ "..." else cut in
  title_fits 4 (if truthy cut then cut else "Message").
Proof.
  cbv zeta. split.
  - destruct (truthy _) eqn:E; [now apply truthy_nonempty | discriminate].
  - intros _. destruct (truthy _); [| simpl; lia].
    destruct (100 <? String.length text) eqn:E.
    + apply Nat.ltb_lt in E.
      rewrite length_app_string, length_slice_to by lia. simpl. lia.
    + apply Nat.ltb_ge in E. rewrite slice_to_all by exact E. lia.
Qed.

Lemma message_loop_titles conv_id at_ n :
  forall messages j nodes edges (w w' : world Flat.database) nodes' edges',
    message_loop conv_id at_ n j messages nodes edges w
    = (Ok (nodes', edges'), w') ->
    Forall (fun d => title_fits (Flat.nd_level d) (Flat.nd_title d)) nodes ->
    Forall (fun d => title_fits (Flat.nd_level d) (Flat.nd_title d)) nodes'.
Proof.
  induction messages as [|msg rest IH];
    intros j nodes edges w w' nodes' edges' H Hall.
  - inversion H; now subst.
  - cbn [Flat.message_loop] in H.
    destruct (negb (Flat.is_human msg)); [eapply IH; eassumption |].
    destruct (Flat.msg_uuid msg) as [msg_id|]; [| discriminate].
    apply bind_inv_ok in H as (created & w1 & _ & H).
    apply bind_inv_ok in H as (updated & w2 & _ & H).
    apply bind_inv_ok in H as (drawn & w3 & _ & H).
    apply bind_inv_ok in H as (stamp & w4 & _ & H).
    eapply IH; [exact H |].
    apply Forall_app. split; [exact Hall |].
    constructor; [| constructor]. cbn [Flat.nd_level Flat.nd_title].
    apply message_title_fits.
Qed.

Lemma conversation_loop_titles n :
  forall conversations i nodes edges (w w' : world Flat.database)
         nodes' edges',
    conversation_loop n i conversations nodes edges w
    = (Ok (nodes', edges'), w') ->
    Forall (fun d => title_fits (Flat.nd_level d) (Flat.nd_title d)) nodes ->
    Forall (fun d => title_fits (Flat.nd_level d) (Flat.nd_title d)) nodes'.
Proof.
  induction conversations as [|conv rest IH];
    intros i nodes edges w w' nodes' edges' H Hall.
  - inversion H; now subst.
  - cbn [Flat.conversation_loop] in H.
    destruct (Flat.conv_uuid conv) as [conv_id|]; [| discriminate].
    apply bind_inv_ok in H as (created & w1 & _ & H).
    apply bind_inv_ok in H as (updated & w2 & _ & H).
    apply bind_inv_ok in H as ([nodes1 edges1] & w3 & Hmsgs & H).
    cbn [fst snd] in H. eapply IH; [exact H |].
    eapply message_loop_titles; [exact Hmsgs |].
    apply Forall_app. split; [exact Hall |].
    constructor; [| constructor]. cbn [Flat.nd_level Flat.nd_title].
    split; [| discriminate].
    destruct (truthy _) eqn:E; [now apply truthy_nonempty | discriminate].
Qed.

(** The tables of an import that returns, from the dicts its loop built. *)
Lemma import_conversations_built
  conversations (w w' : world Flat.database) n e :
  import_conversations conversations w = (Ok (n, e), w') ->
  exists nds eds (w0 w1 : world Flat.database),
    conversation_loop (length conversations) 0 conversations [] [] w0
    = (Ok (nds, eds), w1)
    /\ Flat.nodes (conn w') = list_to_map (Flat.node_entries nds)
    /\ Flat.edges (conn w') = list_to_map (Flat.edge_entries eds).
Proof.
  unfold Flat.import_conversations. intros H.
  apply bind_inv_ok in H as (u & w1 & Hdel & H).
  inversion Hdel; subst u w1; clear Hdel.
  apply bind_inv_ok in H as (u & w1 & Hdel & H).
  inversion Hdel; subst u w1; clear Hdel.
  cbn [conn disk sql_log Flat.nodes Flat.edges] in H.
  apply bind_inv_ok in H as ([nds eds] & w1 & Hbuild & H).
  cbn [fst snd] in H.
  pose proof Hbuild as Hframe.
  apply conversation_loop_inv in Hframe as (_ & _ & _ & _ & _ & _ & A1 & _).
  cbn [conn] in A1.
  apply bind_inv_ok in H as (u & w2 & Hnodes & H).
  apply executemany_insert_node in Hnodes as (_ & B2 & _ & _ & _ & _ & _ & Htable).
  rewrite A1 in Htable, B2. cbn [Flat.nodes Flat.edges] in Htable, B2.
  rewrite (right_id_L ∅ (∪)) in Htable.
  apply bind_inv_ok in H as (u' & w3 & Hedges & H).
  apply executemany_insert_edge in Hedges as (_ & C2 & _ & _ & _ & _ & _ & Htable').
  rewrite B2 in Htable'. rewrite (right_id_L ∅ (∪)) in Htable'.
  apply bind_inv_ok in H as (u'' & w4 & Hcommit & H).
  inversion Hcommit; subst u'' w4; clear Hcommit.
  inversion H; subst. cbn [conn].
  eexists nds, eds, _, _. split; [exact Hbuild |].
  split; [congruence | exact Htable'].
Qed.

Lemma lookup_node_entries_inv (ds : list Flat.node_dict) k row :
  (list_to_map (Flat.node_entries ds) : gmap string Flat.node) !! k = Some row ->
  exists d, d ∈ ds /\ k = Flat.nd_id d /\ row = Flat.node_row d.
Proof.
  intros H. apply elem_of_list_to_map_2 in H.
  unfold Flat.node_entries in H. apply list_elem_of_fmap in H as (d & Heq & Hd).
  inversion Heq; subst. now exists d.
Qed.

(** X19: after an import that returns, no row of the [nodes] table has
    an empty title, and the title of a message row has at most 103
    characters: the first 100 of the text and the three of ["..."]. *)
Theorem import_titles_fit
  conversations (w w' : world Flat.database) n e k row :
  import_conversations conversations w = (Ok (n, e), w') ->
  Flat.nodes (conn w') !! k = Some row ->
  title_fits (Flat.node_level row) (Flat.node_title row).
Proof.
  intros H Hrow.
  apply import_conversations_built in H
    as (nds & eds & w0 & w1 & Hbuild & Hnodes & _).
  apply conversation_loop_titles in Hbuild; [| constructor].
  rewrite Hnodes in Hrow.
  apply lookup_node_entries_inv in Hrow as (d & Hd & _ & ->).
  rewrite Forall_forall in Hbuild. exact (Hbuild d Hd).
Qed.

Lemma lookup_edge_entries (ds : list Flat.edge_dict) d :
  NoDup (Flat.ed_id <$> ds) -> d ∈ ds ->
  (list_to_map (Flat.edge_entries ds) : gmap string Flat.edge) !! Flat.ed_id d
  = Some (Flat.edge_row d).
Proof.
  intros Hnodup Hd. apply elem_of_list_to_map.
  - now rewrite edge_entries_keys.
  - unfold Flat.edge_entries. apply list_elem_of_fmap. now exists d.
Qed.

Lemma edge_targets u msgs ns es :
  Forall2 (Flat.message_dict u) msgs ns ->
  Forall2 (Flat.message_edge u) msgs es ->
  Flat.ed_target_id <$> es = Flat.nd_id <$> ns.
Proof.
  intros Hns. revert es.
  induction Hns as [|msg d msgs ns Hd _ IH]; intros es Hes.
  - now inversion Hes.
  - inversion Hes as [|? ed ? es' Hed Hes']; subst.
    rewrite !fmap_cons, (IH _ Hes'). f_equal.
    destruct Hd as (Hid & _). destruct Hed as (Htarget & _). congruence.
Qed.

Lemma group_edge_targets conversations groups :
  Forall2 Flat.group_of conversations groups ->
  Flat.ed_target_id <$> flat_map Flat.edge_dicts groups
  = Flat.nd_id <$> flat_map Flat.message_dicts groups.
Proof.
  induction 1 as [|conv g convs gs Hg _ IH]; [reflexivity |].
  cbn [flat_map]. rewrite !fmap_app, IH. f_equal.
  destruct Hg as (_ & _ & _ & _ & _ & Hns & Hes).
  eapply edge_targets; eassumption.
Qed.

Lemma message_ids_sublist (groups : list Flat.group) :
  (Flat.nd_id <$> flat_map Flat.message_dicts groups)
    `sublist_of` (Flat.nd_id <$> flat_map Flat.group_nodes groups).
Proof.
  induction groups as [|g gs IH]; [reflexivity |].
  cbn [flat_map]. rewrite !fmap_app. apply sublist_app; [| exact IH].
  unfold Flat.group_nodes. rewrite fmap_cons. now apply sublist_cons.
Qed.

Lemma NoDup_fmap_elem {A B} (f : A -> B) (l : list A) x y :
  NoDup (f <$> l) -> x ∈ l -> y ∈ l -> f x = f y -> x = y.
Proof.
  induction l as [|a l IH]; intros Hnodup Hx Hy Heq.
  - now apply elem_of_nil in Hx.
  - rewrite fmap_cons in Hnodup.
    apply NoDup_cons in Hnodup as [Hnotin Hnodup].
    apply elem_of_cons in Hx as [-> | Hx];
      apply elem_of_cons in Hy as [-> | Hy].
    + reflexivity.
    + exfalso. apply Hnotin. rewrite Heq.
      apply list_elem_of_fmap. now exists y.
    + exfalso. apply Hnotin. rewrite <- Heq.
      apply list_elem_of_fmap. now exists x.
    + now apply IH.
Qed.

(** X20: after an import that returns, every message row of the [nodes]
    table is the target of exactly one row of the [edges] table, and the
    source of that edge is the row's parent. *)
Theorem import_one_edge_per_message_row
  conversations (w w' : world Flat.database) n e k row :
  import_conversations conversations w = (Ok (n, e), w') ->
  Flat.nodes (conn w') !! k = Some row ->
  Flat.node_level row = 4%Z ->
  exists id erow,
    Flat.edges (conn w') !! id = Some erow
    /\ Flat.edge_target_id erow = k
    /\ Flat.node_parent_id row = Some (Flat.edge_source_id erow)
    /\ forall id' erow',
        Flat.edges (conn w') !! id' = Some erow' ->
        Flat.edge_target_id erow' = k -> id' = id.
Proof.
  intros H Hrow Hlevel.
  apply import_conversations_inv in H as (ks & es & tail & _ & Hr).
  destruct Hr as (groups & Hgroups & _ & _ & Hnodup & Hnodup' & Hnodes & Hedges
                  & _).
  rewrite Hnodes in Hrow.
  apply lookup_node_entries_inv in Hrow as (d & Hd & -> & ->).
  cbn [Flat.node_row Flat.node_level Flat.node_parent_id] in *.
  apply elem_of_flat_map in Hd as (g & Hg & Hd).
  destruct (group_of_member _ _ _ Hgroups Hg)
    as (conv & _ & _ & _ & Hclevel & _ & _ & Hmsgs & Hes).
  unfold Flat.group_nodes in Hd.
  apply elem_of_cons in Hd as [-> | Hd]; [congruence |].
  apply list_elem_of_lookup in Hd as (j & Hj).
  destruct (Forall2_lookup_r _ _ _ _ _ Hmsgs Hj)
    as (msg & Hmsg & Hmid & _ & _ & Hmparent & _).
  destruct (Forall2_lookup_l _ _ _ _ _ Hes Hmsg)
    as (ed & Hed & Htarget & Hsource & _).
  assert (Hin : ed ∈ flat_map Flat.edge_dicts groups).
  { apply elem_of_flat_map. exists g. split; [exact Hg |].
    apply list_elem_of_lookup. now exists j. }
  assert (Heq : Flat.ed_target_id ed = Flat.nd_id d) by congruence.
  exists (Flat.ed_id ed), (Flat.edge_row ed).
  rewrite Hedges. split; [now apply lookup_edge_entries |].
  cbn [Flat.edge_row Flat.edge_target_id Flat.edge_source_id].
  split; [exact Heq |]. split; [congruence |].
  intros id' erow' Hrow' Htarget'.
  apply lookup_edge_entries_inv in Hrow' as (ed' & Hin' & -> & ->);
    [| exact Hnodup'].
  cbn [Flat.edge_row Flat.edge_target_id] in Htarget'.
  f_equal.
  apply (NoDup_fmap_elem Flat.ed_target_id
           (flat_map Flat.edge_dicts groups)); try assumption; [| congruence].
  rewrite (group_edge_targets _ _ Hgroups).
  eapply sublist_NoDup; [exact Hnodup | apply message_ids_sublist].
Qed.

End FlatMore.



Lemma import_stores_every_human_message_witness :
  let w' :=
    (Flat.import_conversations sample_parse sample_clock sample_uuid4
                               [sample_flat_conversation]
                               sample_flat_world).2 in
  exists u k row,
    Flat.conv_uuid sample_flat_conversation = Some u
    /\ Some "m1" = Some k
    /\ Flat.nodes (conn w') !! k = Some row
    /\ Flat.node_type row = "thought"
    /\ Flat.node_level row = 4%Z
    /\ Flat.node_parent_id row = Some u
    /\ Flat.node_child_count row = 0%Z
    /\ Flat.node_content row = Some "Q".
Proof.
  intros w'.
  apply (import_stores_every_human_message
           sample_parse sample_clock sample_uuid4
           [sample_flat_conversation] sample_flat_world w' 3 2
           sample_flat_conversation
           (Flat.Message (Some "m1") (Some "human") (Some "Q") None None)).
  - vm_compute. reflexivity.
  - apply list_elem_of_here.
  - vm_compute. apply list_elem_of_here.
Defined.

Lemma import_node_keys_witness :
  let w' :=
    (Flat.import_conversations sample_parse sample_clock sample_uuid4
                               [sample_flat_conversation]
                               sample_flat_world).2 in
  exists keys,
    Flat.planned_keys [sample_flat_conversation] = Some keys
    /\ NoDup keys
    /\ forall k, is_Some (Flat.nodes (conn w') !! k) <-> k ∈ keys.
Proof.
  intros w'.
  apply (import_node_keys sample_parse sample_clock sample_uuid4
           [sample_flat_conversation] sample_flat_world w' 3 2).
  vm_compute. reflexivity.
Defined.

Lemma import_titles_fit_witness :
  let w' :=
    (Flat.import_conversations sample_parse sample_clock sample_uuid4
                               [sample_flat_conversation]
                               sample_flat_world).2 in
  exists row,
    Flat.nodes (conn w') !! "m1" = Some row
    /\ title_fits (Flat.node_level row) (Flat.node_title row).
Proof.
  intros w'. eexists. split; [vm_compute; reflexivity |].
  apply (import_titles_fit sample_parse sample_clock sample_uuid4
           [sample_flat_conversation] sample_flat_world w' 3 2 "m1").
  - vm_compute. reflexivity.
  - vm_compute. reflexivity.
Defined.

Lemma import_one_edge_per_message_row_witness :
  let w' :=
    (Flat.import_conversations sample_parse sample_clock sample_uuid4
                               [sample_flat_conversation]
                               sample_flat_world).2 in
  exists row id erow,
    Flat.nodes (conn w') !! "m1" = Some row
    /\ Flat.edges (conn w') !! id = Some erow
    /\ Flat.edge_target_id erow = "m1"
    /\ Flat.node_parent_id row = Some (Flat.edge_source_id erow)
    /\ forall id' erow',
        Flat.edges (conn w') !! id' = Some erow' ->
        Flat.edge_target_id erow' = "m1" -> id' = id.
Proof.
  intros w'.
  assert (Hrow : exists row,
             Flat.nodes (conn w') !! "m1" = Some row
             /\ Flat.node_level row = 4%Z)
    by (eexists; split; vm_compute; reflexivity).
  destruct Hrow as (row & Hrow & Hlevel).
  destruct (import_one_edge_per_message_row
              sample_parse sample_clock sample_uuid4
              [sample_flat_conversation] sample_flat_world w' 3 2 "m1" row
              ltac:(vm_compute; reflexivity) Hrow Hlevel)
    as (id & erow & H).
  exists row, id, erow. split; [exact Hrow | exact H].
Defined.

(** ** The flat importer's [main] *)

Section FlatMainFacts.

Context (iso_to_millis : string -> option Z) (wall_clock : nat -> Z).
Context (uuid4 : nat -> string) (TEST_DATA DB_PATH : string).
Context (group_order : list (string * nat) -> list (string * nat)).

Abbreviation import_conversations :=
  (Flat.import_conversations iso_to_millis wall_clock uuid4).
Abbreviation flat_main :=
  (FlatMain.main iso_to_millis wall_clock uuid4 TEST_DATA DB_PATH group_order).

Lemma print_rows_out {A} (line : A -> string) (rows : list A) :
  forall w : world Flat.database,
    FlatMain.print_rows line rows w
    = (Ok tt, World (clock_reads w) (uuid_draws w)
                    (stdout w ++ (line <$> rows)) (sql_log w)
                    (conn w) (disk w)).
Proof.
  induction rows as [|row rows IH]; intros w.
  - destruct w. cbn. now rewrite app_nil_r.
  - cbn [FlatMain.print_rows]. unfold bind, print at 1. rewrite IH.
    cbn [clock_reads uuid_draws stdout sql_log conn disk].
    now rewrite fmap_cons, <- app_assoc.
Qed.

Lemma executemany_stdout {A} (statement : A -> M Flat.database unit) :
  (forall a w r w', statement a w = (r, w') -> stdout w' = stdout w) ->
  forall rows w r w',
    Flat.executemany statement rows w = (r, w') -> stdout w' = stdout w.
Proof.
  intros Hst. induction rows as [|row rows IH]; intros w r w' H.
  - now inversion H.
  - cbn [Flat.executemany] in H.
    apply bind_inv in H as [(u & w1 & Hrow & H) | (e & Hrow & _)].
    + apply IH in H. apply Hst in Hrow. congruence.
    + eapply Hst, Hrow.
Qed.

Lemma insert_node_stdout d (w : world Flat.database) r
  (w' : world Flat.database) :
  Flat.insert_node d w = (r, w') -> stdout w' = stdout w.
Proof.
  unfold Flat.insert_node.
  destruct (Flat.nodes (conn w) !! Flat.nd_id d); intros H; now inversion H.
Qed.

Lemma insert_edge_stdout d (w : world Flat.database) r
  (w' : world Flat.database) :
  Flat.insert_edge d w = (r, w') -> stdout w' = stdout w.
Proof.
  unfold Flat.insert_edge.
  destruct (Flat.edges (conn w) !! Flat.ed_id d); intros H; now inversion H.
Qed.

(** An import prints nothing. *)
Lemma import_conversations_stdout conversations (w w' : world Flat.database) r :
  import_conversations conversations w = (r, w') -> stdout w' = stdout w.
Proof.
  unfold Flat.import_conversations. intros H.
  bind_cases H u w1 Hdel; [| discriminate].
  inversion Hdel; subst u w1; clear Hdel.
  bind_cases H u w1 Hdel; [| discriminate].
  inversion Hdel; subst u w1; clear Hdel.
  bind_cases H built w1 Hbuild; apply conversation_loop_inv in Hbuild.
  2:{ destruct Hbuild as (_ & _ & d & _ & _ & _ & A4 & _). exact A4. }
  destruct built as [nds eds].
  destruct Hbuild as (groups & _ & _ & _ & _ & _ & _ & _ & _ & A4 & _).
  cbn [stdout fst snd] in *.
  bind_cases H u w2 Hnodes;
    apply (executemany_stdout _ insert_node_stdout) in Hnodes;
    [| congruence].
  bind_cases H u' w3 Hedges;
    apply (executemany_stdout _ insert_edge_stdout) in Hedges;
    [| congruence].
  bind_cases H u'' w4 Hcommit; [| discriminate].
  inversion Hcommit; subst u'' w4; clear Hcommit.
  inversion H; subst. cbn [stdout]. congruence.
Qed.

Lemma filter_nonempty {A} (P : A -> Prop) `{!forall x, Decision (P x)}
  (l : list A) :
  0 < length (filter P l) <-> exists x, x ∈ l /\ P x.
Proof.
  split.
  - intros Hlen. destruct (filter P l) as [|x rest] eqn:E; [simpl in Hlen; lia |].
    assert (Hin : x ∈ filter P l) by (rewrite E; apply list_elem_of_here).
    apply list_elem_of_filter in Hin as [HP Hx]. eauto.
  - intros (x & Hx & HP).
    assert (Hin : x ∈ filter P l) by (apply list_elem_of_filter; now split).
    destruct (filter P l); [now apply elem_of_nil in Hin | simpl; lia].
Qed.

(** The values of a table built from dicts with distinct keys. *)
Lemma table_values (ds : list Flat.node_dict) :
  NoDup (Flat.nd_id <$> ds) ->
  (map_to_list (list_to_map (Flat.node_entries ds) : gmap string Flat.node)).*2
  ≡ₚ Flat.node_row <$> ds.
Proof.
  intros Hnodup.
  rewrite map_to_list_to_map by now rewrite node_entries_keys.
  unfold Flat.node_entries. now rewrite <- list_fmap_compose.
Qed.

(** The groups of a [GROUP BY] over a table whose rows are of two kinds. *)
Lemma groups_of_two_kinds {B} `{!EqDecision B} (column : Flat.node -> B)
  (a b : B) (ds : list Flat.node_dict) :
  a <> b ->
  Forall (fun d => column (Flat.node_row d) = a
                   \/ column (Flat.node_row d) = b) ds ->
  NoDup (Flat.nd_id <$> ds) ->
  remove_dups
    (column <$> (map_to_list (list_to_map (Flat.node_entries ds)
                              : gmap string Flat.node)).*2)
  ≡ₚ (if 0 <? length (filter (fun d => column (Flat.node_row d) = a) ds)
      then [a] else [])
     ++ (if 0 <? length (filter (fun d => column (Flat.node_row d) = b) ds)
         then [b] else []).
Proof.
  intros Hab Hkinds Hnodup. apply NoDup_Permutation.
  - apply NoDup_remove_dups.
  - destruct (0 <? _); destruct (0 <? _); simpl;
      repeat constructor; try apply not_elem_of_nil.
    intros Hin. apply list_elem_of_singleton in Hin. contradiction.
  - intros x. rewrite elem_of_remove_dups, table_values by exact Hnodup.
    rewrite <- list_fmap_compose, list_elem_of_fmap.
    rewrite elem_of_app. split.
    + intros (d & -> & Hd). cbn [compose].
      rewrite Forall_forall in Hkinds. destruct (Hkinds d Hd) as [Ha | Hb].
      * left. rewrite Ha.
        assert (Hpos : 0 < length (filter (fun d => column (Flat.node_row d) = a)
                                          ds))
          by (apply filter_nonempty; eauto).
        apply Nat.ltb_lt in Hpos. rewrite Hpos. apply list_elem_of_here.
      * right. rewrite Hb.
        assert (Hpos : 0 < length (filter (fun d => column (Flat.node_row d) = b)
                                          ds))
          by (apply filter_nonempty; eauto).
        apply Nat.ltb_lt in Hpos. rewrite Hpos. apply list_elem_of_here.
    + intros [Hin | Hin].
      * destruct (0 <? _) eqn:E; [| now apply elem_of_nil in Hin].
        apply list_elem_of_singleton in Hin. subst x.
        apply Nat.ltb_lt, filter_nonempty in E as (d & Hd & Ha).
        exists d. split; [now rewrite <- Ha | exact Hd].
      * destruct (0 <? _) eqn:E; [| now apply elem_of_nil in Hin].
        apply list_elem_of_singleton in Hin. subst x.
        apply Nat.ltb_lt, filter_nonempty in E as (d & Hd & Hb).
        exists d. split; [now rewrite <- Hb | exact Hd].
Qed.

Lemma filter_entries {B} `{!EqDecision B} (column : Flat.node -> B) (x : B)
  (ds : list Flat.node_dict) :
  length (filter (fun kv : string * Flat.node => column kv.2 = x)
                 (Flat.node_entries ds))
  = length (filter (fun d => column (Flat.node_row d) = x) ds).
Proof.
  induction ds as [|d ds IH]; [reflexivity |].
  unfold Flat.node_entries in *. rewrite fmap_cons, !filter_cons.
  cbn [snd]. destruct (decide (column (Flat.node_row d) = x)); simpl;
    now rewrite IH.
Qed.

(** The count of a group is the number of dicts of its kind. *)
Lemma group_count {B} `{!EqDecision B} (column : Flat.node -> B) (x : B)
  (ds : list Flat.node_dict) :
  NoDup (Flat.nd_id <$> ds) ->
  size (filter (fun kv : string * Flat.node => column kv.2 = x)
               (list_to_map (Flat.node_entries ds) : gmap string Flat.node))
  = length (filter (fun d => column (Flat.node_row d) = x) ds).
Proof.
  intros Hnodup.
  rewrite size_filter_list_to_map by now rewrite node_entries_keys.
  apply filter_entries.
Qed.

Lemma count_conv_dicts (P : Flat.node_dict -> Prop)
  `{!forall d, Decision (P d)} (groups : list Flat.group) :
  Forall (fun g => P (Flat.conv_dict g)
                   /\ Forall (fun d => ~ P d) (Flat.message_dicts g)) groups ->
  length (filter P (flat_map Flat.group_nodes groups)) = length groups.
Proof.
  induction 1 as [|g gs [Hconv Hmsgs] _ IH]; [reflexivity |].
  cbn [flat_map length]. rewrite filter_app, length_app, IH.
  unfold Flat.group_nodes. rewrite filter_cons, decide_True by exact Hconv.
  assert (Hnone : filter P (Flat.message_dicts g) = []).
  { induction Hmsgs as [|d ds Hd _ IHd]; [reflexivity |].
    now rewrite filter_cons, decide_False by exact Hd. }
  rewrite Hnone. reflexivity.
Qed.

Lemma count_message_dicts (P : Flat.node_dict -> Prop)
  `{!forall d, Decision (P d)} (groups : list Flat.group) :
  Forall (fun g => ~ P (Flat.conv_dict g)
                   /\ Forall P (Flat.message_dicts g)) groups ->
  length (filter P (flat_map Flat.group_nodes groups))
  = length (flat_map Flat.message_dicts groups).
Proof.
  induction 1 as [|g gs [Hconv Hmsgs] _ IH]; [reflexivity |].
  cbn [flat_map]. rewrite filter_app, !length_app, IH.
  unfold Flat.group_nodes. rewrite filter_cons, decide_False by exact Hconv.
  assert (Hall : filter P (Flat.message_dicts g) = Flat.message_dicts g).
  { induction Hmsgs as [|d ds Hd _ IHd]; [reflexivity |].
    now rewrite filter_cons, decide_True, IHd by exact Hd. }
  rewrite Hall. reflexivity.
Qed.

Lemma group_message_count conversations groups :
  Forall2 Flat.group_of conversations groups ->
  length (flat_map Flat.message_dicts groups)
  = length (flat_map Flat.human_messages conversations).
Proof.
  induction 1 as [|conv g convs gs Hg _ IH]; [reflexivity |].
  cbn [flat_map]. rewrite !length_app, IH. f_equal.
  destruct Hg as (_ & _ & _ & _ & _ & Hms & _).
  symmetry. exact (Forall2_length _ _ _ Hms).
Qed.

(** The dicts of an import are conversation dicts, of level 3 and type
    ['context'], and message dicts, of level 4 and type ['thought']. *)
Lemma group_kinds conversations groups :
  Forall2 Flat.group_of conversations groups ->
  Forall (fun g =>
            (Flat.nd_level (Flat.conv_dict g) = 3%Z
             /\ Flat.nd_type (Flat.conv_dict g) = "context")
            /\ Forall (fun d => Flat.nd_level d = 4%Z
                                /\ Flat.nd_type d = "thought")
                      (Flat.message_dicts g)) groups.
Proof.
  induction 1 as [|conv g convs gs Hg _ IH]; constructor; [| exact IH].
  destruct Hg as (_ & Htype & Hlevel & _ & _ & Hms & _).
  split; [now split |].
  clear -Hms. induction Hms as [|msg d msgs ds Hd _ IHd]; constructor;
    [| exact IHd].
  destruct Hd as (_ & Htype & Hlevel & _). now split.
Qed.

Lemma sorted_levels (n h : nat) :
  Sorted Z.le ((if 0 <? n then [3%Z] else [])
               ++ (if 0 <? h then [4%Z] else [])).
Proof.
  destruct (0 <? n); destruct (0 <? h); simpl; repeat constructor. lia.
Qed.

Lemma import_dict_counts conversations groups :
  Forall2 Flat.group_of conversations groups ->
  let ds := flat_map Flat.group_nodes groups in
  let n := length conversations in
  let h := length (flat_map Flat.human_messages conversations) in
  Forall (fun d => Flat.node_level (Flat.node_row d) = 3%Z
                   \/ Flat.node_level (Flat.node_row d) = 4%Z) ds
  /\ Forall (fun d => Flat.node_type (Flat.node_row d) = "context"
                      \/ Flat.node_type (Flat.node_row d) = "thought") ds
  /\ length (filter (fun d => Flat.node_level (Flat.node_row d) = 3%Z) ds) = n
  /\ length (filter (fun d => Flat.node_level (Flat.node_row d) = 4%Z) ds) = h
  /\ length (filter (fun d => Flat.node_type (Flat.node_row d) = "context") ds)
     = n
  /\ length (filter (fun d => Flat.node_type (Flat.node_row d) = "thought") ds)
     = h.
Proof.
  intros Hgroups ds n h.
  pose proof (group_kinds _ _ Hgroups) as Hkinds.
  pose proof (Forall2_length _ _ _ Hgroups) as Hlen.
  pose proof (group_message_count _ _ Hgroups) as Hmsgs.
  assert (Hds : Forall (fun d => (Flat.nd_level d = 3%Z
                                  /\ Flat.nd_type d = "context")
                                 \/ (Flat.nd_level d = 4%Z
                                     /\ Flat.nd_type d = "thought")) ds).
  { subst ds. clear -Hkinds.
    induction Hkinds as [|g gs [Hconv Hms] _ IH]; [constructor |].
    cbn [flat_map]. apply Forall_app. split; [| exact IH].
    unfold Flat.group_nodes. constructor; [now left |].
    eapply Forall_impl; [exact Hms |]. intros d Hd. now right. }
  split; [| split].
  { eapply Forall_impl; [exact Hds |]. cbn. intros d [[H _] | [H _]]; auto. }
  { eapply Forall_impl; [exact Hds |]. cbn. intros d [[_ H] | [_ H]]; auto. }
  subst ds n h. rewrite Hlen, <- Hmsgs.
  split; [| split; [| split]].
  - apply count_conv_dicts.
    eapply Forall_impl; [exact Hkinds |]. cbn. intros g [[H _] Hms].
    split; [exact H |]. eapply Forall_impl; [exact Hms |].
    cbn. intros d [Hd _]. rewrite Hd. discriminate.
  - apply count_message_dicts.
    eapply Forall_impl; [exact Hkinds |]. cbn. intros g [[H _] Hms].
    split; [rewrite H; discriminate |]. eapply Forall_impl; [exact Hms |].
    cbn. now intros d [Hd _].
  - apply count_conv_dicts.
    eapply Forall_impl; [exact Hkinds |]. cbn. intros g [[_ H] Hms].
    split; [exact H |]. eapply Forall_impl; [exact Hms |].
    cbn. intros d [_ Hd]. rewrite Hd. discriminate.
  - apply count_message_dicts.
    eapply Forall_impl; [exact Hkinds |]. cbn. intros g [[_ H] Hms].
    split; [rewrite H; discriminate |]. eapply Forall_impl; [exact Hms |].
    cbn. now intros d [_ Hd].
Qed.

(** The two listings of [main] over the table an import has built. *)
Lemma import_listings conversations groups :
  Forall2 Flat.group_of conversations groups ->
  NoDup (Flat.nd_id <$> flat_map Flat.group_nodes groups) ->
  let table : gmap string Flat.node :=
    list_to_map (Flat.node_entries (flat_map Flat.group_nodes groups)) in
  let n := length conversations in
  let h := length (flat_map Flat.human_messages conversations) in
  FlatMain.level_line <$> FlatMain.nodes_by_level table = level_report n h
  /\ FlatMain.type_line <$> FlatMain.nodes_by_type table ≡ₚ type_report n h.
Proof.
  intros Hgroups Hnodup table n h.
  destruct (import_dict_counts _ _ Hgroups)
    as (Hlevels & Htypes & Hn3 & Hh4 & Hnc & Hht).
  split.
  - unfold FlatMain.nodes_by_level.
    assert (Hsorted :
              merge_sort Z.le
                (remove_dups (Flat.node_level <$> (map_to_list table).*2))
              = (if 0 <? n then [3%Z] else []) ++ (if 0 <? h then [4%Z] else [])).
    { apply (Sorted_unique Z.le).
      - apply Sorted_merge_sort; apply _.
      - apply sorted_levels.
      - rewrite merge_sort_Permutation. subst table.
        rewrite (groups_of_two_kinds Flat.node_level 3%Z 4%Z)
          by (try assumption; discriminate).
        now rewrite Hn3, Hh4. }
    rewrite Hsorted. subst table. unfold level_report.
    rewrite !fmap_app.
    assert (H3 : 0 < n ->
                 FlatMain.level_line
                   (3%Z, size (filter (fun kv : string * Flat.node =>
                                         Flat.node_level kv.2 = 3%Z)
                                      (list_to_map
                                         (Flat.node_entries
                                            (flat_map Flat.group_nodes groups))
                                       : gmap string Flat.node)))
                 = "  L3 Tree: " +:+ pretty n).
    { intros _. rewrite group_count, Hn3 by exact Hnodup. reflexivity. }
    assert (H4 : 0 < h ->
                 FlatMain.level_line
                   (4%Z, size (filter (fun kv : string * Flat.node =>
                                         Flat.node_level kv.2 = 4%Z)
                                      (list_to_map
                                         (Flat.node_entries
                                            (flat_map Flat.group_nodes groups))
                                       : gmap string Flat.node)))
                 = "  L4 Leaf: " +:+ pretty h).
    { intros _. rewrite group_count, Hh4 by exact Hnodup. reflexivity. }
    destruct (0 <? n) eqn:En; destruct (0 <? h) eqn:Eh;
      try apply Nat.ltb_lt in En; try apply Nat.ltb_lt in Eh;
      cbn [fmap list_fmap app]; rewrite ?H3, ?H4 by assumption; reflexivity.
  - unfold FlatMain.nodes_by_type. subst table.
    rewrite (groups_of_two_kinds Flat.node_type "context" "thought")
      by (try assumption; discriminate).
    rewrite Hnc, Hht. unfold type_report. subst n h.
    assert (Hc : FlatMain.type_line
                   ("context",
                    size (filter (fun kv : string * Flat.node =>
                                    Flat.node_type kv.2 = "context")
                                 (list_to_map
                                    (Flat.node_entries
                                       (flat_map Flat.group_nodes groups))
                                  : gmap string Flat.node)))
                 = "  context: " +:+ pretty (length conversations)).
    { rewrite group_count, Hnc by exact Hnodup. reflexivity. }
    assert (Ht : FlatMain.type_line
                   ("thought",
                    size (filter (fun kv : string * Flat.node =>
                                    Flat.node_type kv.2 = "thought")
                                 (list_to_map
                                    (Flat.node_entries
                                       (flat_map Flat.group_nodes groups))
                                  : gmap string Flat.node)))
                 = "  thought: "
                   +:+ pretty (length (flat_map Flat.human_messages
                                                conversations))).
    { rewrite group_count, Hht by exact Hnodup. reflexivity. }
    destruct (0 <? length conversations);
      destruct (0 <? length (flat_map Flat.human_messages conversations));
      cbn [fmap list_fmap app]; rewrite ?Hc, ?Ht; reflexivity.
Qed.

(** X21: when [main] of the flat importer returns, it has printed, after
    its three opening lines, the numbers of nodes and of edges of the
    import, then one line per type and one line per level that has rows:
    as many ['context'] and level-3 rows as the file has conversations and
    as many ['thought'] and level-4 rows as it has human messages, the
    levels in ascending order; the file then holds what the connection
    held. *)
Theorem flat_main_reports_rows_of_file
  conversations (w w' : world Flat.database) :
  (forall l, Permutation l (group_order l)) ->
  flat_main conversations w = (Ok tt, w') ->
  let n := length conversations in
  let h := length (flat_map Flat.human_messages conversations) in
  exists type_lines,
    type_lines ≡ₚ type_report n h
    /\ stdout w'
       = stdout w
         ++ ["Loading test data from " +:+ TEST_DATA;
             "Found " +:+ pretty n +:+ " conversations";
             "Creating database at " +:+ DB_PATH;
             "Imported " +:+ pretty (n + h) +:+ " nodes and "
               +:+ pretty h +:+ " edges";
             nl +:+ "Nodes by type:"]
         ++ type_lines
         ++ [nl +:+ "Nodes by hierarchy level:"]
         ++ level_report n h
         ++ [nl +:+ "Done!"]
    /\ conn w' = disk w'.
Proof.
  intros group_order_permutes. remember (Ok tt) as r eqn:Hr. intros H n h.
  unfold FlatMain.main, FlatMain.init_db in H.
  do 5 (bind_cases H u w1 Hp;
        [inversion Hp; subst u w1; clear Hp | discriminate]).
  bind_cases H counts w1 Himport; [| discriminate].
  pose proof (import_conversations_stdout _ _ _ _ Himport) as Hout.
  destruct counts as [n_nodes n_edges].
  apply import_conversations_inv in Himport as (ks & es & tail & _ & Hi).
  destruct Hi as (groups & Hgroups & -> & -> & Hnodup & _ & Hnodes & _ & _).
  destruct (import_listings _ _ Hgroups Hnodup) as [Hlevels Htypes].
  cbv zeta in Hlevels, Htypes. rewrite <- Hnodes in Hlevels, Htypes.
  rewrite (group_node_count _ _ Hgroups), (group_edge_count _ _ Hgroups) in H.
  cbn [fst snd stdout] in H, Hout.
  bind_cases H u w2 Hp; [inversion Hp; subst u w2; clear Hp | discriminate].
  bind_cases H cursor w2 Hp;
    [inversion Hp; subst cursor w2; clear Hp | discriminate].
  bind_cases H u w2 Hp; [inversion Hp; subst u w2; clear Hp | discriminate].
  bind_cases H u w2 Hp; [| rewrite print_rows_out in Hp; discriminate].
  rewrite print_rows_out in Hp. inversion Hp; subst u w2; clear Hp.
  bind_cases H cursor w2 Hp;
    [inversion Hp; subst cursor w2; clear Hp | discriminate].
  bind_cases H u w2 Hp; [inversion Hp; subst u w2; clear Hp | discriminate].
  bind_cases H u w2 Hp; [| rewrite print_rows_out in Hp; discriminate].
  rewrite print_rows_out in Hp. inversion Hp; subst u w2; clear Hp.
  bind_cases H u w2 Hp; [inversion Hp; subst u w2; clear Hp | discriminate].
  inversion H; subst w'; clear H.
  cbn [clock_reads uuid_draws stdout sql_log conn disk] in *.
  exists (FlatMain.type_line
            <$> group_order (FlatMain.nodes_by_type (Flat.nodes (conn w1)))).
  split; [| split; [| reflexivity]].
  - rewrite <- (group_order_permutes _). exact Htypes.
  - rewrite Hlevels, Hout. repeat rewrite <- app_assoc. reflexivity.
Qed.


End FlatMainFacts.

Lemma flat_main_reports_rows_of_file_witness :
  let w' :=
    (FlatMain.main sample_parse sample_clock sample_uuid4
                   "data/test_conversations.json" "data/mycelica.db"
                   (fun l => l) [sample_flat_conversation]
                   sample_flat_world).2 in
  let n := length [sample_flat_conversation] in
  let h := length (flat_map Flat.human_messages [sample_flat_conversation]) in
  exists type_lines,
    type_lines ≡ₚ type_report n h
    /\ stdout w'
       = stdout sample_flat_world
         ++ ["Loading test data from " +:+ "data/test_conversations.json";
             "Found " +:+ pretty n +:+ " conversations";
             "Creating database at " +:+ "data/mycelica.db";
             "Imported " +:+ pretty (n + h) +:+ " nodes and "
               +:+ pretty h +:+ " edges";
             nl +:+ "Nodes by type:"]
         ++ type_lines
         ++ [nl +:+ "Nodes by hierarchy level:"]
         ++ level_report n h
         ++ [nl +:+ "Done!"]
    /\ conn w' = disk w'.
Proof.
  intros w'.
  apply (flat_main_reports_rows_of_file
           sample_parse sample_clock sample_uuid4
           "data/test_conversations.json" "data/mycelica.db" (fun l => l)
           [sample_flat_conversation] sample_flat_world w').
  - intros l. reflexivity.
  - vm_compute. reflexivity.
Defined.

